(** * clipper-ai: from an edit specification to the ffmpeg command

    A shallow embedding of the export path of [server.js]
    ([secondsToFFmpeg], [buildFFmpegFilters] and the handler of
    [POST /api/export-clip]) and the properties of it stated in the
    specification.

    Conventions of the embedding.
    - A JavaScript string is a [string]; template literals are [++].
    - A JavaScript number is the exact rational it denotes ([Q]); the
      arithmetic of the source is exact here, binary64 rounding is not
      modelled.  A field that may be [undefined] or [null] is an [option].
    - An array built by [push] is a list threaded through the pushes.
    - A thrown exception is the [Throw] case of [Completion].
    - What the handler asks of Node (the file system, the clock, the path
      library) is a [Runtime] record; what it does to the outside world (the
      processes it starts) is the log returned next to the response. *)

From Stdlib Require Import ZArith QArith Qabs Qround String Ascii List Bool.
From Stdlib Require Import Lia Lqa Sorted Permutation.
Import ListNotations.

Open Scope string_scope.

(** ** JavaScript strings *)

(** The three characters the drawtext escaping is about, and the double quote
    of the shell words. *)
Definition backslash : ascii := "\"%char.
Definition squote : ascii := "'"%char.
Definition colon : ascii := ":"%char.
Definition dquote : ascii := "034"%char.

Definition str (c : ascii) : string := String c EmptyString.

(** [s.replace(/c/g, r)] for a one-character pattern [c]: every occurrence,
    left to right; [r] holds no [$], so it is inserted as it is. *)
Fixpoint replace_all (c : ascii) (r : string) (s : string) : string :=
  match s with
  | EmptyString => EmptyString
  | String a s' =>
      if Ascii.eqb a c then r ++ replace_all c r s'
      else String a (replace_all c r s')
  end.

(** [s.replace("c", r)] with a string pattern: the first occurrence only. *)
Fixpoint replace_first (c : ascii) (r : string) (s : string) : string :=
  match s with
  | EmptyString => EmptyString
  | String a s' =>
      if Ascii.eqb a c then r ++ s' else String a (replace_first c r s')
  end.

(** [" ".repeat(n)] for a one-character string. *)
Fixpoint repeat_char (c : ascii) (n : nat) : string :=
  match n with
  | O => EmptyString
  | S n' => String c (repeat_char c n')
  end.

(** [s.padStart(n, "c")]. *)
Definition padStart (n : nat) (c : ascii) (s : string) : string :=
  repeat_char c (n - String.length s) ++ s.

(** [arr.join(sep)]. *)
Fixpoint join (sep : string) (l : list string) : string :=
  match l with
  | [] => EmptyString
  | [s] => s
  | s :: rest => s ++ sep ++ join sep rest
  end.

(** [s.split(":")]. *)
Fixpoint split_on (c : ascii) (s : string) : list string :=
  match s with
  | EmptyString => [EmptyString]
  | String a s' =>
      if Ascii.eqb a c then EmptyString :: split_on c s'
      else match split_on c s' with
           | [] => [str a]
           | p :: ps => String a p :: ps
           end
  end.

(** Truthiness of a string: [Boolean(s)]. *)
Definition truthy_string (s : string) : bool :=
  match s with EmptyString => false | _ => true end.

(** [arr.filter(Boolean)] on an array of strings. *)
Definition filter_Boolean (l : list string) : list string :=
  filter truthy_string l.

(** ** The text escaping of the drawtext entries

    [t.text.replace(/\\/g, "\\\\").replace(/'/g, "\\'").replace(/:/g, "\\:")] *)
Definition escapeText (text : string) : string :=
  replace_all colon (String backslash (str colon))
    (replace_all squote (String backslash (str squote))
       (replace_all backslash (String backslash (str backslash)) text)).

(** What the escaping is meant to do, one character at a time. *)
Definition escape_char (c : ascii) : string :=
  if Ascii.eqb c backslash then String backslash (str backslash)
  else if Ascii.eqb c squote then String backslash (str squote)
  else if Ascii.eqb c colon then String backslash (str colon)
  else str c.

Fixpoint escape_each (s : string) : string :=
  match s with
  | EmptyString => EmptyString
  | String c s' => escape_char c ++ escape_each s'
  end.



(** ** JavaScript numbers *)

Open Scope Q_scope.

(** [Math.floor], and the truncation toward zero behind [%] and ffmpeg's
    [trunc]. *)
Definition Math_floor (q : Q) : Q := inject_Z (Qfloor q).

Definition Qtrunc (q : Q) : Z :=
  if Qle_bool 0 q then Qfloor q else Qceiling q.

(** [a % b]: the remainder has the sign of [a]. *)
Definition js_rem (a b : Q) : Q := a - b * inject_Z (Qtrunc (a / b)).

Definition Math_max (a b : Q) : Q := if Qle_bool a b then b else a.
Definition Math_min (a b : Q) : Q := if Qle_bool a b then a else b.

(** [x !== y] and [Boolean(x)] on numbers. *)
Definition num_neq (a b : Q) : bool := negb (Qeq_bool a b).
Definition truthy_num (a : Q) : bool := num_neq a 0.

(** The decimal digit [d], for [0 <= d < 10]. *)
Definition digit (d : Z) : ascii := ascii_of_nat (48 + Z.to_nat d).

(** The [k] low decimal digits of [n], most significant first. *)
Fixpoint digits_fixed (k : nat) (n : Z) : string :=
  match k with
  | O => EmptyString
  | S k' => digits_fixed k' (n / 10) ++ str (digit (n mod 10))
  end.

(** The decimal numeral of a natural number, without leading zeros. *)
Fixpoint show_digits (fuel : nat) (n : Z) : string :=
  match fuel with
  | O => EmptyString
  | S fuel' =>
      if (n <? 10)%Z then str (digit n)
      else show_digits fuel' (n / 10) ++ str (digit (n mod 10))
  end.

Definition show_nat (n : Z) : string :=
  show_digits (S (Z.to_nat (Z.log2 n))) n.

(** The digits after the decimal point of [r/d], for [0 <= r < d], until the
    expansion ends. *)
Fixpoint frac_digits (fuel : nat) (r d : Z) : string :=
  match fuel with
  | O => EmptyString
  | S fuel' =>
      if (r =? 0)%Z then EmptyString
      else String (digit (r * 10 / d)) (frac_digits fuel' (r * 10 mod d) d)
  end.

(** [String(q)] and [`${q}`] (Number::toString): the shortest decimal
    numeral of [q].  It is JavaScript's for a number given by a decimal
    numeral of at most 17 fraction digits whose magnitude is in the range
    JavaScript prints without an exponent. *)
Definition show_number (q : Q) : string :=
  let n := Qnum q in
  let d := Zpos (Qden q) in
  let a := Z.abs n in
  (if (n <? 0)%Z then "-" else "") ++ show_nat (a / d) ++
  (if (a mod d =? 0)%Z then "" else "." ++ frac_digits 17 (a mod d) d).

(** [q.toFixed(f)]: the nearest multiple of [10^-f], the larger one on a tie,
    printed with exactly [f] fraction digits. *)
Definition toFixed (f : nat) (q : Q) : string :=
  let scale := (10 ^ Z.of_nat f)%Z in
  let n := Qfloor (Qabs q * inject_Z scale + (1 # 2)) in
  (if Qle_bool 0 q then "" else "-") ++ show_nat (n / scale) ++
  match f with
  | O => ""
  | _ => "." ++ digits_fixed f (n mod scale)
  end.

(** The value of an array slot after [.map(Number)] and destructuring:
    a number, [NaN], or [undefined] when the slot does not exist. *)
Inductive JsNum : Type :=
| Undefined
| NaN
| Num (q : Q).

Definition show_JsNum (v : JsNum) : string :=
  match v with
  | Undefined => "undefined"
  | NaN => "NaN"
  | Num q => show_number q
  end.

Definition is_digit (c : ascii) : bool :=
  (48 <=? nat_of_ascii c)%nat && (nat_of_ascii c <=? 57)%nat.

Fixpoint digits_value (acc : Z) (s : string) : option Z :=
  match s with
  | EmptyString => Some acc
  | String c s' =>
      if is_digit c
      then digits_value (acc * 10 + Z.of_nat (nat_of_ascii c - 48)) s'
      else None
  end.

(** [Number(s)] on a piece of the aspect-ratio string: the empty string is 0,
    an unsigned decimal numeral is its value.  Everything else is read as
    [NaN] here; the signs, fractions, exponents, radix prefixes and blanks
    that [Number] also accepts do not occur in an aspect ratio. *)
Definition Number (s : string) : JsNum :=
  match digits_value 0 s with
  | Some n => Num (inject_Z n)
  | None => NaN
  end.

(** ** [secondsToFFmpeg] *)

Definition secondsToFFmpeg (s : Q) : string :=
  let h := Math_floor (s / 3600) in
  let m := Math_floor (js_rem s 3600 / 60) in
  let sec := toFixed 3 (js_rem s 60) in
  padStart 2 "0" (show_number h) ++ ":" ++
  padStart 2 "0" (show_number m) ++ ":" ++
  padStart 6 "0" sec.

(** ** The edit specification ([ClipEdits] and [TextOverlay] of storage.ts)

    The server reads the JSON body as it comes, so every field may be
    missing. *)

Record TextOverlay : Type := mkTextOverlay {
  t_id : option string;
  t_text : option string;
  t_x : option Q;
  t_y : option Q;
  t_fontSize : option Q;
  t_color : option string;
  t_startSec : option Q;
  t_endSec : option Q;
  t_bold : option bool
}.

Record ClipEdits : Type := mkClipEdits {
  cropX : option Q;
  cropY : option Q;
  cropW : option Q;
  cropH : option Q;
  aspectRatio : option string;
  textOverlays : option (list TextOverlay);
  brightness : option Q;
  contrast : option Q;
  saturation : option Q;
  speed : option Q;
  trimStart : option Q;
  trimEnd : option Q
}.

(** The object [{}] of [edits || {}]. *)
Definition empty_edits : ClipEdits :=
  mkClipEdits None None None None None None None None None None None None.

(** [defaultEdits()] of storage.ts. *)
Definition defaultEdits : ClipEdits :=
  mkClipEdits (Some 0) (Some 0) (Some 1) (Some 1) (Some "original")
    (Some []) (Some 0) (Some 0) (Some 0) (Some 1) (Some 0) (Some 0).

(** ** Exceptions *)

Inductive Exn : Type :=
| TypeError (reading : string)
| ProcessError (message : string).

Inductive Completion (A : Type) : Type :=
| Normal (a : A)
| Throw (e : Exn).
Arguments Normal {A} a.
Arguments Throw {A} e.

Definition bind {A B : Type} (c : Completion A) (k : A -> Completion B)
  : Completion B :=
  match c with
  | Normal a => k a
  | Throw e => Throw e
  end.

(** ** [buildFFmpegFilters] *)

(** [arr.push(x)]. *)
Definition push (arr : list string) (x : string) : list string :=
  (arr ++ [x])%list.

(** A numeric field that is neither [null] nor [undefined] and [!== 0]. *)
Definition present_nonzero (v : option Q) : option Q :=
  match v with
  | Some q => if num_neq q 0 then Some q else None
  | None => None
  end.

(** 1. Aspect ratio: the two runtime expressions of the crop entry. *)
Definition cropW_text (rw rh : JsNum) : string :=
  "if(gt(iw/ih\," ++ show_JsNum rw ++ "/" ++ show_JsNum rh ++ ")\," ++
  "trunc(ih*" ++ show_JsNum rw ++ "/" ++ show_JsNum rh ++ "/2)*2\," ++
  "iw)".

Definition cropH_text (rw rh : JsNum) : string :=
  "if(gt(iw/ih\," ++ show_JsNum rw ++ "/" ++ show_JsNum rh ++ ")\," ++
  "ih\," ++
  "trunc(iw*" ++ show_JsNum rh ++ "/" ++ show_JsNum rw ++ "/2)*2)".

Definition crop_entry (rw rh : JsNum) : string :=
  "crop=" ++ cropW_text rw rh ++ ":" ++ cropH_text rw rh ++
  ":(iw-out_w)/2:(ih-out_h)/2".

(** [const [rw, rh] = edits.aspectRatio.split(":").map(Number)]. *)
Definition ratio_of (ar : string) : JsNum * JsNum :=
  let parts := map Number (split_on colon ar) in
  (nth 0 parts Undefined, nth 1 parts Undefined).

Definition wants_crop (edits : ClipEdits) : option string :=
  match aspectRatio edits with
  | Some ar =>
      if truthy_string ar && negb (String.eqb ar "original") then Some ar
      else None
  | None => None
  end.

Definition push_crop (edits : ClipEdits) (filters : list string)
  : list string :=
  match wants_crop edits with
  | Some ar =>
      let '(rw, rh) := ratio_of ar in
      push filters (crop_entry rw rh)
  | None => filters
  end.

(** 2. Color adjustments: the array [eq], then the eq entry. *)
Definition eq_entries (edits : ClipEdits) : list string :=
  let eq := [] in
  let eq :=
    match present_nonzero (brightness edits) with
    | Some b => push eq ("brightness=" ++ show_number b)
    | None => eq
    end in
  let eq :=
    match present_nonzero (contrast edits) with
    | Some c => push eq ("contrast=" ++ toFixed 4 (1 + c))
    | None => eq
    end in
  let eq :=
    match present_nonzero (saturation edits) with
    | Some s => push eq ("saturation=" ++ toFixed 4 (1 + s))
    | None => eq
    end in
  eq.

Definition push_color (edits : ClipEdits) (filters : list string)
  : list string :=
  match eq_entries edits with
  | [] => filters
  | eq => push filters ("eq=" ++ join ":" eq)
  end.

(** 3. Speed, the video side. *)
Definition wants_setpts (edits : ClipEdits) : option Q :=
  match speed edits with
  | Some s => if truthy_num s && num_neq s 1 then Some s else None
  | None => None
  end.

Definition push_speed (edits : ClipEdits) (filters : list string)
  : list string :=
  match wants_setpts edits with
  | Some s => push filters ("setpts=" ++ toFixed 6 (1 / s) ++ "*PTS")
  | None => filters
  end.

(** 4. Text overlays: the body of the loop.  [t.text.replace] throws when
    the overlay has no text. *)
Definition overlay_color (t : TextOverlay) : string :=
  replace_first "#" "0x"
    (match t_color t with
     | Some c => if truthy_string c then c else "#FFFFFF"
     | None => "#FFFFFF"
     end).

Definition overlay_size (t : TextOverlay) : Q :=
  match t_fontSize t with
  | Some n => if truthy_num n then n else 36
  | None => 36
  end.

Definition overlay_x (t : TextOverlay) : string :=
  match t_x t with
  | Some v => "w*" ++ show_number v
  | None => "(w-text_w)/2"
  end.

Definition overlay_y (t : TextOverlay) : string :=
  match t_y t with
  | Some v => "h*" ++ show_number v
  | None => "h*0.85"
  end.

Definition overlay_enable (t : TextOverlay) : string :=
  match t_startSec t, t_endSec t with
  | Some a, Some b =>
      ":enable='between(t," ++ show_number a ++ "," ++ show_number b ++ ")'"
  | _, _ => ""
  end.

Definition drawtext_entry (t : TextOverlay) : Completion string :=
  let color := overlay_color t in
  let size := overlay_size t in
  let x := overlay_x t in
  let y := overlay_y t in
  let enable := overlay_enable t in
  match t_text t with
  | None => Throw (TypeError "replace")
  | Some text =>
      let safeText := escapeText text in
      Normal ("drawtext=text='" ++ safeText ++ "':fontsize=" ++
              show_number size ++ ":fontcolor=" ++ color ++
              ":x=" ++ x ++ ":y=" ++ y ++ enable)
  end.

Fixpoint push_overlays (ts : list TextOverlay) (filters : list string)
  : Completion (list string) :=
  match ts with
  | [] => Normal filters
  | t :: rest =>
      bind (drawtext_entry t)
        (fun entry => push_overlays rest (push filters entry))
  end.

Definition buildFFmpegFilters (edits : ClipEdits)
  : Completion (list string) :=
  let filters := [] in
  let filters := push_crop edits filters in
  let filters := push_color edits filters in
  let filters := push_speed edits filters in
  match textOverlays edits with
  | Some (t :: ts) => push_overlays (t :: ts) filters
  | _ => Normal filters
  end.

(** ** The handler of [POST /api/export-clip] *)

Record Clip : Type := mkClip {
  startTime : Q;
  endTime : Q
}.

(** [req.body]. *)
Record Request : Type := mkRequest {
  sourceFile : option string;
  clip : option Clip;
  edits : option ClipEdits
}.

(** The two ways Node's [child_process] starts a program: [exec] hands one
    command line to a shell, [execFile] and [spawn] take the program and its
    argument vector. *)
Inductive ProcessCall : Type :=
| exec (command : string) (timeout : Z)
| execFile (file : string) (args : list string) (timeout : Z).

(** What the handler is given by Node and by the machine: the directories
    under [__dirname], the [path] library, the file system, the clock, and
    how the started command ends ([None]: the promise resolves; [Some msg]:
    it rejects with [err.message = msg]). *)
Record Runtime : Type := mkRuntime {
  TEMP_DIR : string;
  EXPORT_DIR : string;
  path_join : string -> string -> string;
  path_basename : string -> string;
  fs_existsSync : string -> bool;
  Date_now : Z;
  execAsync_outcome : string -> option string
}.

Inductive Response : Type :=
| MissingParams                                  (* 400 *)
| SourceNotFound (detail : string)               (* 422 *)
| ExportFailed (err : Exn)                       (* 500, detail: err.message *)
| Exported (fileName url fullPath : string).     (* 200 *)

(** [edits?.speed || 1]. *)
Definition audio_speed (edits : option ClipEdits) : Q :=
  match edits with
  | Some e =>
      match speed e with
      | Some s => if truthy_num s then s else 1
      | None => 1
      end
  | None => 1
  end.

(** The array of the command, before [.filter(Boolean).join(" ")]. *)
Definition cmd_array (resolvedSource outPath : string) (c : Clip)
  (filters : list string) (speed : Q) : list string :=
  let startSec := startTime c in
  let durationSec := endTime c - startTime c in
  [ "ffmpeg -y";
    "-ss " ++ secondsToFFmpeg startSec;
    "-i " ++ str dquote ++ resolvedSource ++ str dquote;
    "-t " ++ secondsToFFmpeg durationSec;
    match filters with
    | [] => ""
    | _ => "-vf " ++ str dquote ++ join "," filters ++ str dquote
    end;
    if num_neq speed 1
    then "-af " ++ str dquote ++ "atempo=" ++
         show_number (Math_min (Math_max speed (1 # 2)) 2) ++ str dquote
    else "";
    "-c:v libx264 -preset fast -crf 22";
    "-c:a aac -b:a 128k";
    "-movflags +faststart";
    str dquote ++ outPath ++ str dquote ].

(** [edits || {}]. *)
Definition edits_or_empty (edits : option ClipEdits) : ClipEdits :=
  match edits with
  | Some e => e
  | None => empty_edits
  end.

(** The body of the [try] up to the command. *)
Definition build_cmd (resolvedSource outPath : string) (c : Clip)
  (edits : option ClipEdits) : Completion string :=
  bind (buildFFmpegFilters (edits_or_empty edits))
    (fun filters =>
       let speed := audio_speed edits in
       Normal (join " "
                 (filter_Boolean
                    (cmd_array resolvedSource outPath c filters speed)))).

(** The handler: the processes it starts, in order, and its response. *)
Definition export_clip (rt : Runtime) (req : Request)
  : list ProcessCall * Response :=
  match sourceFile req, clip req with
  | Some sf, Some c =>
      if negb (truthy_string sf) then ([], MissingParams)
      else
        let resolvedSource :=
          path_join rt (TEMP_DIR rt) (path_basename rt sf) in
        if negb (fs_existsSync rt resolvedSource)
        then ([], SourceNotFound ("Expected at: " ++ resolvedSource))
        else
          let outName := "clip_" ++ show_number (inject_Z (Date_now rt))
                         ++ ".mp4" in
          let outPath := path_join rt (EXPORT_DIR rt) outName in
          match build_cmd resolvedSource outPath c (edits req) with
          | Throw e => ([], ExportFailed e)
          | Normal cmd =>
              match execAsync_outcome rt cmd with
              | Some msg =>
                  ([exec cmd 120000], ExportFailed (ProcessError msg))
              | None =>
                  ([exec cmd 120000],
                   Exported outName ("/exports/" ++ outName) outPath)
              end
          end
  | _, _ => ([], MissingParams)
  end.

(** ** The expressions of the crop entry, as ffmpeg reads them

    The crop entry is text for ffmpeg's expression evaluator.  [Expr] is the
    syntax that text is written in, [show_Expr] writes it the way the
    template literals do, and [eval] is what the evaluator computes, here in
    exact arithmetic.  A literal that is not a number, or a division by
    zero, has no value. *)
Inductive Expr : Type :=
| E_iw | E_ih | E_out_w | E_out_h
| E_lit (n : JsNum)
| E_mul (a b : Expr)
| E_div (a b : Expr)
| E_sub (a b : Expr)
| E_paren (a : Expr)
| E_trunc (a : Expr)
| E_gt (a b : Expr)
| E_if (c a b : Expr).

Fixpoint show_Expr (e : Expr) : string :=
  match e with
  | E_iw => "iw"
  | E_ih => "ih"
  | E_out_w => "out_w"
  | E_out_h => "out_h"
  | E_lit n => show_JsNum n
  | E_mul a b => show_Expr a ++ "*" ++ show_Expr b
  | E_div a b => show_Expr a ++ "/" ++ show_Expr b
  | E_sub a b => show_Expr a ++ "-" ++ show_Expr b
  | E_paren a => "(" ++ show_Expr a ++ ")"
  | E_trunc a => "trunc(" ++ show_Expr a ++ ")"
  | E_gt a b => "gt(" ++ show_Expr a ++ "\," ++ show_Expr b ++ ")"
  | E_if c a b =>
      "if(" ++ show_Expr c ++ "\," ++ show_Expr a ++ "\," ++ show_Expr b ++ ")"
  end.

Record Frame : Type := mkFrame {
  iw : Q;
  ih : Q;
  out_w : Q;
  out_h : Q
}.

Definition lift2 (f : Q -> Q -> Q) (a b : option Q) : option Q :=
  match a, b with
  | Some x, Some y => Some (f x y)
  | _, _ => None
  end.

Fixpoint eval (fr : Frame) (e : Expr) : option Q :=
  match e with
  | E_iw => Some (iw fr)
  | E_ih => Some (ih fr)
  | E_out_w => Some (out_w fr)
  | E_out_h => Some (out_h fr)
  | E_lit (Num q) => Some q
  | E_lit _ => None
  | E_mul a b => lift2 Qmult (eval fr a) (eval fr b)
  | E_div a b =>
      match eval fr a, eval fr b with
      | Some x, Some y => if Qeq_bool y 0 then None else Some (x / y)
      | _, _ => None
      end
  | E_sub a b => lift2 Qminus (eval fr a) (eval fr b)
  | E_paren a => eval fr a
  | E_trunc a => option_map (fun x => inject_Z (Qtrunc x)) (eval fr a)
  | E_gt a b =>
      lift2 (fun x y => if Qle_bool x y then 0 else 1) (eval fr a) (eval fr b)
  | E_if c a b =>
      match eval fr c with
      | Some v => if Qeq_bool v 0 then eval fr b else eval fr a
      | None => None
      end
  end.

Definition two : Expr := E_lit (Num 2).

Definition source_wider (rw rh : JsNum) : Expr :=
  E_gt (E_div E_iw E_ih) (E_div (E_lit rw) (E_lit rh)).

Definition cropW_expr (rw rh : JsNum) : Expr :=
  E_if (source_wider rw rh)
       (E_mul (E_trunc (E_div (E_div (E_mul E_ih (E_lit rw)) (E_lit rh)) two))
              two)
       E_iw.

Definition cropH_expr (rw rh : JsNum) : Expr :=
  E_if (source_wider rw rh)
       E_ih
       (E_mul (E_trunc (E_div (E_div (E_mul E_iw (E_lit rh)) (E_lit rw)) two))
              two).

Definition cropX_expr : Expr := E_div (E_paren (E_sub E_iw E_out_w)) two.
Definition cropY_expr : Expr := E_div (E_paren (E_sub E_ih E_out_h)) two.

(** The crop filter on a source frame of [w] by [h] pixels: width and height
    first, then the offsets with [out_w] and [out_h] set to them. *)
Record CropBox : Type := mkCropBox {
  crop_w : Q;
  crop_h : Q;
  crop_x : Q;
  crop_y : Q
}.

Definition crop_box (rw rh : JsNum) (w h : Z) : option CropBox :=
  let fr0 := mkFrame (inject_Z w) (inject_Z h) 0 0 in
  match eval fr0 (cropW_expr rw rh), eval fr0 (cropH_expr rw rh) with
  | Some cw, Some ch =>
      let fr := mkFrame (inject_Z w) (inject_Z h) cw ch in
      match eval fr cropX_expr, eval fr cropY_expr with
      | Some cx, Some cy => Some (mkCropBox cw ch cx cy)
      | _, _ => None
      end
  | _, _ => None
  end.

(** ** The vocabulary of the specification *)

(** *** Filter chains *)

(** [s] begins with [p]. *)
Fixpoint starts_with (p s : string) : bool :=
  match p with
  | EmptyString => true
  | String a p' =>
      match s with
      | EmptyString => false
      | String b s' => Ascii.eqb a b && starts_with p' s'
      end
  end.

(** The kind of a filter-chain entry, read off its name. *)
Inductive FilterKind : Type := KCrop | KColor | KSpeed | KText.

Definition kind_of (entry : string) : option FilterKind :=
  if starts_with "crop=" entry then Some KCrop
  else if starts_with "eq=" entry then Some KColor
  else if starts_with "setpts=" entry then Some KSpeed
  else if starts_with "drawtext=" entry then Some KText
  else None.

Definition all_kind (k : FilterKind) (l : list string) : Prop :=
  Forall (fun entry => kind_of entry = Some k) l.

(** The overlays the loop runs over. *)
Definition overlays_of (edits : ClipEdits) : list TextOverlay :=
  match textOverlays edits with
  | Some l => l
  | None => []
  end.

(** An overlay whose [text] is a string. *)
Definition has_text (t : TextOverlay) : Prop := t_text t <> None.

(** *** Color *)

(** One dimension of the color filter as the specification describes it:
    present when the field is set and not zero. *)
Definition color_dim (name : string) (render : Q -> string) (v : option Q)
  : list string :=
  match v with
  | Some q => if Qeq_bool q 0 then [] else [name ++ "=" ++ render q]
  | None => []
  end.

Definition color_dims (edits : ClipEdits) : list string :=
  (color_dim "brightness" show_number (brightness edits) ++
   color_dim "contrast" (fun c => toFixed 4 (1 + c)) (contrast edits) ++
   color_dim "saturation" (fun s => toFixed 4 (1 + s)) (saturation edits))%list.

Definition color_entry (edits : ClipEdits) : string :=
  "eq=" ++ join ":" (color_dims edits).

(** *** Crop *)

(** [e] is [x] rounded down to an even integer: what [trunc(x/2)*2], the
    expression of the crop, computes for [x >= 0]. *)
Definition is_even_floor (x : Q) (e : Z) : Prop :=
  Z.even e = true /\ inject_Z e <= x < inject_Z e + 2.

(** [round_even x] as the worked example above [buildFFmpegFilters] rounds,
    where 607.5 becomes 608: [x] to the nearest even integer, an odd integer
    going up. *)
Definition round_even (x : Q) : Z := (2 * Qfloor (x / 2 + (1 # 2)))%Z.

(** The aspect ratios an edit specification offers besides "original". *)
Definition supported_ratios : list (string * (Z * Z)) :=
  [ ("9:16", (9, 16)%Z); ("16:9", (16, 9)%Z);
    ("1:1", (1, 1)%Z); ("4:3", (4, 3)%Z) ].

(** Even crop dimensions within the source on both axes, which is what the
    specification asks of the crop of a [w] by [h] source to [rw:rh]. *)
Definition crop_dims_even (w h rw rh : Z) : Prop :=
  exists box cw ch,
    crop_box (Num (inject_Z rw)) (Num (inject_Z rh)) w h = Some box /\
    crop_w box == inject_Z cw /\ crop_h box == inject_Z ch /\
    Z.even cw = true /\ Z.even ch = true /\
    (cw <= w)%Z /\ (ch <= h)%Z.

(** *** Speed *)

(** [speed] clamped to the range of one tempo stage. *)
Definition clamp_tempo (s : Q) : Q :=
  if Qle_bool s (1 # 2) then (1 # 2)
  else if Qle_bool s 2 then s
  else 2.

(** *** Time *)

(** [text] is the time [s] in the form [HH:MM:SS.mmm]: hours on two digits
    or more, minutes and seconds on two digits and below 60, milliseconds on
    three, and the time it denotes is [s] to the nearest millisecond. *)
Definition ffmpeg_time (s : Q) (text : string) : Prop :=
  exists hh mm ss ms : Z,
    text = padStart 2 "0" (show_nat hh) ++ ":" ++ digits_fixed 2 mm ++ ":" ++
           digits_fixed 2 ss ++ "." ++ digits_fixed 3 ms /\
    (2 <= String.length (padStart 2 "0" (show_nat hh)))%nat /\
    (0 <= hh)%Z /\ (0 <= mm < 60)%Z /\ (0 <= ss < 60)%Z /\
    (0 <= ms < 1000)%Z /\
    Qabs (inject_Z (3600 * hh + 60 * mm + ss) + inject_Z ms / 1000 - s)
    <= 1 # 2000.

(** The fields [secondsToFFmpeg] writes for [s]: those of [ffmpeg_time],
    but with a seconds field that may read 60, since the rounding of the
    seconds to three decimals is not carried over to the minutes.  Such a
    text is no [HH:MM:SS.mmm] time when the seconds do read 60. *)
Definition written_fields (s : Q) (text : string) : Prop :=
  exists hh mm ss ms : Z,
    text = padStart 2 "0" (show_nat hh) ++ ":" ++ digits_fixed 2 mm ++ ":" ++
           digits_fixed 2 ss ++ "." ++ digits_fixed 3 ms /\
    (2 <= String.length (padStart 2 "0" (show_nat hh)))%nat /\
    (0 <= hh)%Z /\ (0 <= mm < 60)%Z /\ (0 <= ss <= 60)%Z /\
    (0 <= ms < 1000)%Z /\
    Qabs (inject_Z (3600 * hh + 60 * mm + ss) + inject_Z ms / 1000 - s)
    <= 1 # 2000.

(** The edit specification with other trim offsets. *)
Definition set_trim (e : ClipEdits) (a b : option Q) : ClipEdits :=
  mkClipEdits (cropX e) (cropY e) (cropW e) (cropH e) (aspectRatio e)
    (textOverlays e) (brightness e) (contrast e) (saturation e) (speed e)
    a b.

(** *** The command line *)

(** The optional arguments: the visual chain and the audio chain. *)
Definition vf_args (filters : list string) : list string :=
  match filters with
  | [] => []
  | _ => ["-vf " ++ str dquote ++ join "," filters ++ str dquote]
  end.

Definition af_args (speed : Q) : list string :=
  if Qeq_bool speed 1 then []
  else ["-af " ++ str dquote ++ "atempo=" ++ show_number (clamp_tempo speed)
        ++ str dquote].

(** The arguments around them. *)
Definition input_args (src : string) (c : Clip) : list string :=
  [ "ffmpeg -y";
    "-ss " ++ secondsToFFmpeg (startTime c);
    "-i " ++ str dquote ++ src ++ str dquote;
    "-t " ++ secondsToFFmpeg (endTime c - startTime c) ].

Definition output_args (out : string) : list string :=
  [ "-c:v libx264 -preset fast -crf 22";
    "-c:a aac -b:a 128k";
    "-movflags +faststart";
    str dquote ++ out ++ str dquote ].

Definition is_vf (arg : string) : bool := starts_with "-vf" arg.
Definition is_af (arg : string) : bool := starts_with "-af" arg.

(** *** Requests *)

(** The paths of a request: [resolvedSource], [outName] and [outPath]. *)
Definition resolved_source (rt : Runtime) (sf : string) : string :=
  path_join rt (TEMP_DIR rt) (path_basename rt sf).

Definition out_name (rt : Runtime) : string :=
  "clip_" ++ show_number (inject_Z (Date_now rt)) ++ ".mp4".

Definition out_path (rt : Runtime) : string :=
  path_join rt (EXPORT_DIR rt) (out_name rt).

(** A request that passes the two checks of the handler: [sourceFile] and
    [clip] are there and the source file exists. *)
Definition accepted (rt : Runtime) (req : Request) (sf : string) (c : Clip)
  : Prop :=
  sourceFile req = Some sf /\ sf <> "" /\ clip req = Some c /\
  fs_existsSync rt (resolved_source rt sf) = true.

(** The edit specifications the specification calls invalid: a color delta
    outside [-1, 1] or a speed that is not positive, an aspect ratio that is
    none of the five, or an overlay whose text is empty. *)
Definition out_of_range (lo hi : Q) (v : option Q) : Prop :=
  exists q, v = Some q /\ (q < lo \/ hi < q).

Definition malformed_ratio (v : option string) : Prop :=
  exists ar, v = Some ar /\ ar <> "original" /\
             ~ In ar (map fst supported_ratios).

Definition invalid_edits (e : ClipEdits) : Prop :=
  out_of_range (-(1)) 1 (brightness e) \/
  out_of_range (-(1)) 1 (contrast e) \/
  out_of_range (-(1)) 1 (saturation e) \/
  (exists q, speed e = Some q /\ q <= 0) \/
  malformed_ratio (aspectRatio e) \/
  Exists (fun t => t_text t = Some "") (overlays_of e).

Definition is_error (r : Response) : Prop :=
  match r with
  | Exported _ _ _ => False
  | _ => True
  end.

(** An invalid edit specification is turned down before any process is
    started: the error kind [InvalidEditSpec] of the specification. *)
Definition rejects_invalid (rt : Runtime) (req : Request) : Prop :=
  forall e, edits req = Some e -> invalid_edits e ->
            fst (export_clip rt req) = [] /\
            is_error (snd (export_clip rt req)).

(** The engine is started on an argument vector: the engine command
    contract of the specification. *)
Definition uses_argument_vector (rt : Runtime) (req : Request) : Prop :=
  forall call, In call (fst (export_clip rt req)) ->
               exists file args timeout, call = execFile file args timeout.

(** ** Machines, requests and edit specifications used as examples *)

(** A machine on which every source file is there and ffmpeg succeeds. *)
Definition rt_all_present : Runtime :=
  mkRuntime "/srv/temp_videos" "/srv/exports"
    (fun dir name => dir ++ "/" ++ name) (fun p => p)
    (fun _ => true) 1714000000000 (fun _ => None).

(** A brightness of 5. *)
Definition edits_too_bright : ClipEdits :=
  mkClipEdits None None None None (Some "original") (Some [])
    (Some 5) (Some 0) (Some 0) (Some 1) (Some 0) (Some 0).

Definition req_too_bright : Request :=
  mkRequest (Some "abc.mp4") (Some (mkClip 45 90)) (Some edits_too_bright).



(** More contrast, less saturation. *)
Definition edits_warm : ClipEdits :=
  mkClipEdits None None None None (Some "original") (Some [])
    (Some 0) (Some (1 # 10)) (Some (-(1 # 4))) (Some 1) None None.

(** Every part of the chain at once. *)
Definition overlay_first : TextOverlay :=
  mkTextOverlay (Some "a") (Some "first") None None None None None None None.

Definition overlay_second : TextOverlay :=
  mkTextOverlay (Some "b") (Some "second") (Some (1 # 2)) (Some (1 # 4))
    (Some 48) (Some "#FF0000") (Some 1) (Some 3) None.

Definition edits_everything : ClipEdits :=
  mkClipEdits None None None None (Some "1:1")
    (Some [overlay_first; overlay_second])
    (Some (1 # 5)) None None (Some 2) None None.

Definition crop_square : string :=
  "crop=if(gt(iw/ih\,1/1)\,trunc(ih*1/1/2)*2\,iw):" ++
  "if(gt(iw/ih\,1/1)\,ih\,trunc(iw*1/1/2)*2):(iw-out_w)/2:(ih-out_h)/2".

(** Three times the speed. *)
Definition edits_triple_speed : ClipEdits :=
  mkClipEdits None None None None (Some "original") (Some [])
    (Some 0) (Some 0) (Some 0) (Some 3) (Some 0) (Some 0).

(** The moment from 0:45 to 1:30. *)
Definition moment_45_90 : Clip := mkClip 45 90.

(** The scenario of the specification: 9:16, one timed overlay, speed 1.5. *)
Definition overlay_hi_there : TextOverlay :=
  mkTextOverlay (Some "hi") (Some "Hi: there") None None None None
    (Some 1) (Some 3) None.

Definition edits_scenario : ClipEdits :=
  mkClipEdits None None None None (Some "9:16") (Some [overlay_hi_there])
    (Some 0) (Some 0) (Some 0) (Some (3 # 2)) (Some 0) (Some 0).

(** A request with one caption and nothing else. *)
Definition edits_caption : ClipEdits :=
  mkClipEdits None None None None (Some "original") (Some [overlay_hi_there])
    None None None None None None.

Definition req_caption : Request :=
  mkRequest (Some "abc.mp4") (Some (mkClip 0 10)) (Some edits_caption).

(** The example above [buildFFmpegFilters]: a crop to 9:16 and nothing
    else, for a source of 1920 by 1080. *)
Definition edits_portrait : ClipEdits :=
  mkClipEdits (Some 0) (Some 0) (Some 1) (Some 1) (Some "9:16")
    (Some []) (Some 0) (Some 0) (Some 0) (Some 1) (Some 0) (Some 0).

(** A moment that starts at 59.9996 s and ends at 1:30. *)
Definition moment_late_second : Clip := mkClip (599996 # 10000) 90.

Definition req_late_second : Request :=
  mkRequest (Some "abc.mp4") (Some moment_late_second) (Some defaultEdits).

(** * The rest of the server and of the client library *)

(** ** [sanitizeId] *)

(** [s.replace(/[class]/g, r)]: every character of the class, left to
    right. *)
Fixpoint replace_class (p : ascii -> bool) (r : string) (s : string)
  : string :=
  match s with
  | EmptyString => EmptyString
  | String a s' =>
      if p a then r ++ replace_class p r s'
      else String a (replace_class p r s')
  end.

Definition in_range (lo hi : nat) (c : ascii) : bool :=
  (lo <=? nat_of_ascii c)%nat && (nat_of_ascii c <=? hi)%nat.

(** The class [a-zA-Z0-9_-]. *)
Definition is_id_char (c : ascii) : bool :=
  in_range 97 122 c || in_range 65 90 c || in_range 48 57 c ||
  Ascii.eqb c "_" || Ascii.eqb c "-".

(** [str.replace(/[^a-zA-Z0-9_-]/g, "_").substring(0, 40)] *)
Definition sanitizeId (s : string) : string :=
  substring 0 40 (replace_class (fun c => negb (is_id_char c)) "_" s).

(** ** The handler of [POST /api/download] *)

Record DownloadRequest : Type := mkDownloadRequest {
  dl_url : option string;
  dl_videoId : option string
}.

Inductive DownloadResponse : Type :=
| DownloadMissing                                   (* 400 *)
| DownloadFailed (detail : string)                  (* 500 *)
| Downloaded (filePath fileName url : string).      (* 200 *)

(** The yt-dlp command line of the download. *)
Definition download_cmd (outputPath url : string) : string :=
  "yt-dlp -f " ++ str dquote ++
  "bestvideo[ext=mp4][height<=1080]+bestaudio[ext=m4a]/best[ext=mp4]/best" ++
  str dquote ++ " --merge-output-format mp4 -o " ++ str dquote ++ outputPath ++
  str dquote ++ " --no-playlist " ++ str dquote ++ url ++ str dquote.

Definition download (rt : Runtime) (req : DownloadRequest)
  : list ProcessCall * DownloadResponse :=
  match dl_url req, dl_videoId req with
  | Some url, Some videoId =>
      if negb (truthy_string url) || negb (truthy_string videoId)
      then ([], DownloadMissing)
      else
        let safeId := sanitizeId videoId in
        let outputPath := path_join rt (TEMP_DIR rt) (safeId ++ ".mp4") in
        let ok := Downloaded outputPath (safeId ++ ".mp4")
                    ("/videos/" ++ safeId ++ ".mp4") in
        if fs_existsSync rt outputPath then ([], ok)
        else
          let cmd := download_cmd outputPath url in
          match execAsync_outcome rt cmd with
          | None => ([exec cmd 300000], ok)
          | Some msg => ([exec cmd 300000], DownloadFailed msg)
          end
  | _, _ => ([], DownloadMissing)
  end.

(** What a successful download tells the client. *)
Definition downloaded_name (r : DownloadResponse) : option string :=
  match r with
  | Downloaded _ fileName _ => Some fileName
  | _ => None
  end.

Definition downloaded_path (r : DownloadResponse) : option string :=
  match r with
  | Downloaded filePath _ _ => Some filePath
  | _ => None
  end.

(** Every character of [s] passes [p]. *)
Fixpoint all_chars (p : ascii -> bool) (s : string) : bool :=
  match s with
  | EmptyString => true
  | String c s' => p c && all_chars p s'
  end.

(** A machine that has no source file yet and on which yt-dlp succeeds. *)
Definition rt_nothing_yet : Runtime :=
  mkRuntime "/srv/temp_videos" "/srv/exports"
    (fun dir name => dir ++ "/" ++ name) (fun p => p)
    (fun _ => false) 1714000000000 (fun _ => None).

Definition req_traversal : DownloadRequest :=
  mkDownloadRequest (Some "https://youtu.be/dQw4w9WgXcQ")
    (Some "../../etc/passwd").

Definition req_after_download : Request :=
  mkRequest (Some "______etc_passwd.mp4") (Some (mkClip 45 90)) None.

(** ** [parseVTT] *)

Definition newline : ascii := "010"%char.

(** [\s], and the characters [trim] removes, among the characters of a
    [string]: tab to carriage return, space and no-break space. *)
Definition is_space (c : ascii) : bool :=
  in_range 9 13 c || in_range 32 32 c || in_range 160 160 c.

(** [\d{2}:\d{2}:\d{2}\.\d{3}] at the head of [s]: the twelve characters and
    what follows them. *)
Definition take_time (s : string) : option (string * string) :=
  match s with
  | String h1 (String h2 (String c1 (String m1 (String m2 (String c2
      (String s1 (String s2 (String p (String f1 (String f2 (String f3
         rest))))))))))) =>
      if is_digit h1 && is_digit h2 && Ascii.eqb c1 ":" &&
         is_digit m1 && is_digit m2 && Ascii.eqb c2 ":" &&
         is_digit s1 && is_digit s2 && Ascii.eqb p "." &&
         is_digit f1 && is_digit f2 && is_digit f3
      then Some (substring 0 12 s, rest)
      else None
  | _ => None
  end.

(** [\s-->\s] at the head of [s]. *)
Definition arrow_follows (s : string) : bool :=
  match s with
  | String w1 (String a1 (String a2 (String a3 (String w2 _)))) =>
      is_space w1 && Ascii.eqb a1 "-" && Ascii.eqb a2 "-" &&
      Ascii.eqb a3 ">" && is_space w2
  | _ => false
  end.

(** The whole pattern at the head of [s]: its group 1. *)
Definition time_at (s : string) : option string :=
  match take_time s with
  | Some (t, rest) => if arrow_follows rest then Some t else None
  | None => None
  end.

(** [line.match(/(\d{2}:\d{2}:\d{2}\.\d{3})\s-->\s/)]: group 1 of the
    leftmost match. *)
Fixpoint find_time (s : string) : option string :=
  match time_at s with
  | Some t => Some t
  | None =>
      match s with
      | EmptyString => None
      | String _ s' => find_time s'
      end
  end.

Fixpoint has_char (c : ascii) (s : string) : bool :=
  match s with
  | EmptyString => false
  | String a s' => Ascii.eqb a c || has_char c s'
  end.

(** [[^>]+>] at the head of [s]: a character that is not [>], and a [>]
    further on. *)
Definition tag_opens (s : string) : bool :=
  match s with
  | EmptyString => false
  | String c _ => negb (Ascii.eqb c ">") && has_char ">" s
  end.

(** [line.replace(/<[^>]+>/g, "")], read from the left: a [<] that opens a
    tag is dropped with everything up to the first [>] after it. *)
Fixpoint strip_from (in_tag : bool) (s : string) : string :=
  match s with
  | EmptyString => EmptyString
  | String c s' =>
      if in_tag then strip_from (negb (Ascii.eqb c ">")) s'
      else if Ascii.eqb c "<" && tag_opens s' then strip_from true s'
      else String c (strip_from false s')
  end.

Definition strip_tags (s : string) : string := strip_from false s.

(** [s.trim()]. *)
Fixpoint trim_start (s : string) : string :=
  match s with
  | EmptyString => EmptyString
  | String c s' => if is_space c then trim_start s' else s
  end.

Fixpoint trim_end (s : string) : string :=
  match s with
  | EmptyString => EmptyString
  | String c s' =>
      match trim_end s' with
      | EmptyString => if is_space c then EmptyString else str c
      | r => String c r
      end
  end.

Definition trim (s : string) : string := trim_end (trim_start s).

(** The body of the loop, on [result] and [currentTime]. *)
Definition vtt_line (st : list string * string) (line : string)
  : list string * string :=
  let '(result, currentTime) := st in
  match find_time line with
  | Some t => (result, t)
  | None =>
      let text := trim (strip_tags line) in
      if truthy_string text && truthy_string currentTime &&
         negb (starts_with "WEBVTT" text) && negb (starts_with "NOTE" text)
      then (push result ("[" ++ currentTime ++ "] " ++ text), EmptyString)
      else (result, currentTime)
  end.

(** The array [result] at the end of the loop. *)
Definition vtt_entries (vtt : string) : list string :=
  fst (fold_left vtt_line (split_on newline vtt) ([], EmptyString)).

Definition parseVTT (vtt : string) : string :=
  join (str newline) (vtt_entries vtt).

(** A string of the form [dd:dd:dd.ddd]. *)
Definition is_timestamp (t : string) : Prop :=
  take_time t = Some (t, EmptyString).

(** A match of the tag pattern somewhere in [s]. *)
Fixpoint has_tag (s : string) : bool :=
  match s with
  | EmptyString => false
  | String c s' => (Ascii.eqb c "<" && tag_opens s') || has_tag s'
  end.

(** The lines of [vtt] that carry a cue timing. *)
Definition timing_lines (vtt : string) : list string :=
  filter (fun line => match find_time line with Some _ => true | None => false end)
    (split_on newline vtt).

(** An entry of the transcript made from the lines [lines]: the time of a
    timing line, and the text of a line that is no timing line. *)
Definition cue_entry (lines : list string) (entry : string) : Prop :=
  exists t line text,
    entry = "[" ++ t ++ "] " ++ text /\
    is_timestamp t /\
    (exists timing, In timing lines /\ find_time timing = Some t) /\
    In line lines /\ find_time line = None /\
    text = trim (strip_tags line) /\ text <> "" /\
    starts_with "WEBVTT" text = false /\ starts_with "NOTE" text = false.

(** A small captions file. *)
Definition vtt_sample : string :=
  "WEBVTT" ++ str newline ++
  "Kind: captions" ++ str newline ++
  str newline ++
  "00:00:01.000 --> 00:00:03.500 align:start" ++ str newline ++
  "<c.colorE5E5E5>hello</c> <00:00:02.000>world " ++ str newline ++
  "still the same cue" ++ str newline ++
  "00:00:03.500 --> 00:00:05.000" ++ str newline ++
  "  a < b and 1 <> 2".

(** ** [formatTime] of AI.ts *)

(** [a > b] on numbers. *)
Definition num_gt (a b : Q) : bool := negb (Qle_bool a b).

Definition formatTime (seconds : Q) : string :=
  let h := Math_floor (seconds / 3600) in
  let m := Math_floor (js_rem seconds 3600 / 60) in
  let s := Math_floor (js_rem seconds 60) in
  if num_gt h 0
  then show_number h ++ ":" ++ padStart 2 "0" (show_number m) ++ ":" ++
       padStart 2 "0" (show_number s)
  else show_number m ++ ":" ++ padStart 2 "0" (show_number s).

(** ** The moments kept by [detectViralMoments] of AI.ts

    The part of the function after the reply of the model has been parsed:
    [filter], [map], [sort] on [parsed.moments || []].  The times of a
    moment are numbers; its id and its score may be missing. *)

Record ViralMoment : Type := mkViralMoment {
  vm_id : option string;
  vm_label : string;
  vm_startTime : Q;
  vm_endTime : Q;
  vm_reason : string;
  vm_viralScore : option Q;
  vm_category : string
}.

(** [Math.round]: to the nearest integer, upwards on a tie. *)
Definition Math_round (q : Q) : Q := inject_Z (Qfloor (q + (1 # 2))).

(** The test of the [filter]. *)
Definition moment_in_video (duration : Q) (m : ViralMoment) : bool :=
  Qle_bool 0 (vm_startTime m) && Qle_bool (vm_endTime m) duration &&
  num_gt (vm_endTime m) (vm_startTime m).

(** The function of the [map], on the moment and its index. *)
Definition fix_moment (duration : Q) (i : nat) (m : ViralMoment)
  : ViralMoment :=
  mkViralMoment
    (Some (match vm_id m with
           | Some id => if truthy_string id then id
                        else "moment_" ++ show_number (inject_Z (Z.of_nat i + 1))
           | None => "moment_" ++ show_number (inject_Z (Z.of_nat i + 1))
           end))
    (vm_label m)
    (Math_round (vm_startTime m))
    (Math_min (Math_round (vm_endTime m)) duration)
    (vm_reason m)
    (Some (Math_min 10
             (Math_max 1
                (match vm_viralScore m with
                 | Some v => if truthy_num v then v else 5
                 | None => 5
                 end))))
    (vm_category m).

(** [arr.map((m, i) => ...)]. *)
Fixpoint map_indexed {A B : Type} (f : nat -> A -> B) (i : nat) (l : list A)
  : list B :=
  match l with
  | [] => []
  | a :: l' => f i a :: map_indexed f (S i) l'
  end.

(** The score the comparator reads; after the [map] every moment has one. *)
Definition score (m : ViralMoment) : Q :=
  match vm_viralScore m with
  | Some v => v
  | None => 0
  end.

(** [arr.sort((a, b) => b.viralScore - a.viralScore)]: the sort is stable,
    so the result is the one of inserting each moment, from the last to the
    first, before the first moment whose score is not higher than its own. *)
Fixpoint insert_by_score (m : ViralMoment) (l : list ViralMoment)
  : list ViralMoment :=
  match l with
  | [] => [m]
  | x :: l' =>
      if num_gt (score x) (score m) then x :: insert_by_score m l'
      else m :: l
  end.

Definition sort_by_score (l : list ViralMoment) : list ViralMoment :=
  fold_right insert_by_score [] l.

Definition kept_moments (duration : Q) (moments : list ViralMoment)
  : list ViralMoment :=
  sort_by_score
    (map_indexed (fix_moment duration) 0
       (filter (moment_in_video duration) moments)).

(** The order of the sort: the score of [a] is not below that of [b]. *)
Definition by_score_desc (a b : ViralMoment) : Prop := score b <= score a.

(** A number that is an integer. *)
Definition is_integer (q : Q) : Prop := exists z : Z, q == inject_Z z.

(** What the model may answer for a video of ten minutes. *)
Definition moments_answer : list ViralMoment :=
  [ mkViralMoment (Some "moment_1") "intro" (1 # 2) (61 # 2) "hook"
      (Some 7) "funny";
    mkViralMoment None "too late" 590 620 "after the end" (Some 9) "drama";
    mkViralMoment (Some "") "peak" 300 (6817 # 20) "surprise" (Some 12)
      "shocking";
    mkViralMoment None "calm" 400 430 "no score" None "emotional" ].

(** ** The projects of storage.ts

    The item of [localStorage] under the key of the projects is modelled by
    the array its JSON text denotes: [JSON.parse] of what [JSON.stringify]
    wrote.  [None] is an item that is absent, empty or not JSON, for which
    [loadProjects] answers the empty array. *)

Record VideoAnalysisResult : Type := mkVideoAnalysisResult {
  ar_moments : list ViralMoment;
  ar_summary : string;
  ar_totalViralPotential : Q
}.

Record GeneratedContent : Type := mkGeneratedContent {
  gc_titles : list string;
  gc_captions : list string;
  gc_hashtags : list string
}.

Record ProjectClip : Type := mkProjectClip {
  pc_momentId : string;
  pc_moment : ViralMoment;
  pc_edits : ClipEdits;
  pc_generatedContent : option GeneratedContent;
  pc_exportedUrl : option string
}.

Record Project : Type := mkProject {
  p_id : string;
  p_videoUrl : string;
  p_videoId : string;
  p_videoTitle : string;
  p_videoThumbnail : string;
  p_videoDuration : Q;
  p_localVideoUrl : option string;
  p_analysisResult : VideoAnalysisResult;
  p_selectedClips : list ProjectClip;
  p_createdAt : Z;
  p_updatedAt : Z
}.

Definition LocalStorage : Type := option (list Project).

Definition loadProjects (st : LocalStorage) : list Project :=
  match st with
  | Some projects => projects
  | None => []
  end.

(** [(p) => p.id === id]. *)
Definition has_id (id : string) (p : Project) : bool := String.eqb (p_id p) id.

(** [arr.findIndex(f)]; [None] is -1. *)
Fixpoint findIndex {A : Type} (f : A -> bool) (l : list A) : option nat :=
  match l with
  | [] => None
  | x :: l' => if f x then Some O else option_map S (findIndex f l')
  end.

(** [arr[idx] = v] for an index of the array. *)
Fixpoint set_at {A : Type} (idx : nat) (v : A) (l : list A) : list A :=
  match l, idx with
  | [], _ => []
  | _ :: l', O => v :: l'
  | x :: l', S idx' => x :: set_at idx' v l'
  end.

Definition saveProject (project : Project) (st : LocalStorage)
  : LocalStorage :=
  let projects := loadProjects st in
  let projects :=
    match findIndex (has_id (p_id project)) projects with
    | Some idx => set_at idx project projects
    | None => project :: projects
    end in
  Some (firstn 20 projects).

Definition deleteProject (id : string) (st : LocalStorage) : LocalStorage :=
  Some (filter (fun p => negb (has_id id p)) (loadProjects st)).

Definition getProject (id : string) (st : LocalStorage) : option Project :=
  find (has_id id) (loadProjects st).

(** The ids of the stored projects, in order. *)
Definition stored_ids (st : LocalStorage) : list string :=
  map p_id (loadProjects st).

(** Two projects to store. *)
Definition project_a : Project :=
  mkProject "a1b2c3d4" "https://youtu.be/dQw4w9WgXcQ" "dQw4w9WgXcQ" "A video"
    "thumb.jpg" 600 None (mkVideoAnalysisResult [] "nothing yet" 5) []
    1714000000000 1714000000000.

Definition project_a_later : Project :=
  mkProject "a1b2c3d4" "https://youtu.be/dQw4w9WgXcQ" "dQw4w9WgXcQ"
    "A video, renamed" "thumb.jpg" 600 (Some "/videos/dQw4w9WgXcQ.mp4")
    (mkVideoAnalysisResult moments_answer "four moments" 7) []
    1714000000000 1714000360000.

(** ** The handler of [GET /api/video-info] *)

(** The object [info] that [JSON.parse(stdout)] gives, with the fields the
    handler reads. *)
Record VideoInfo : Type := mkVideoInfo {
  info_id : string;
  info_title : string;
  info_description : option string;
  info_duration : Q;
  info_thumbnail : string;
  info_chapters : option (list (string * Q));
  info_tags : option (list string)
}.

(** What the handler is given besides the [Runtime]: the standard output of
    a command that succeeds, [JSON.parse] (the message of its [SyntaxError]
    on the left), and reading and removing a file ([None] and [false] when
    the call throws). *)
Record InfoRuntime : Type := mkInfoRuntime {
  ir_rt : Runtime;
  exec_stdout : string -> string;
  JSON_parse : string -> string + VideoInfo;
  fs_readFileSync : string -> option string;
  fs_unlinkSync : string -> bool
}.

Inductive InfoResponse : Type :=
| InfoMissingUrl                                          (* 400 *)
| InfoFailed (detail : string)                            (* 500 *)
| InfoFound (id title description : string) (duration : Q)
    (thumbnail : string) (chapters : list (string * Q))
    (tags : list string) (transcript : string).           (* 200 *)

Definition dump_json_cmd (url : string) : string :=
  "yt-dlp --dump-json --no-playlist " ++ str dquote ++ url ++ str dquote.

Definition subtitles_cmd (temp_dir url : string) : string :=
  "yt-dlp --write-auto-sub --sub-format vtt --skip-download --no-playlist -o "
  ++ str dquote ++ temp_dir ++ "/%(id)s.%(ext)s" ++ str dquote ++ " " ++
  str dquote ++ url ++ str dquote.

(** The inner [try]: the processes it starts, the files it removes, and the
    transcript it leaves. *)
Definition fetch_transcript (ir : InfoRuntime) (url : string)
  (info : VideoInfo) : list ProcessCall * list string * string :=
  let rt := ir_rt ir in
  let cmd := subtitles_cmd (TEMP_DIR rt) url in
  match execAsync_outcome rt cmd with
  | Some _ => ([exec cmd 30000], [], EmptyString)
  | None =>
      let vttFile := path_join rt (TEMP_DIR rt) (info_id info ++ ".en.vtt") in
      if fs_existsSync rt vttFile then
        match fs_readFileSync ir vttFile with
        | None => ([exec cmd 30000], [], EmptyString)
        | Some raw =>
            ([exec cmd 30000],
             if fs_unlinkSync ir vttFile then [vttFile] else [],
             parseVTT raw)
        end
      else ([exec cmd 30000], [], EmptyString)
  end.

Definition or_empty {A : Type} (v : option (list A)) : list A :=
  match v with
  | Some l => l
  | None => []
  end.

Definition video_info (ir : InfoRuntime) (url : option string)
  : list ProcessCall * list string * InfoResponse :=
  match url with
  | None => ([], [], InfoMissingUrl)
  | Some url =>
      if negb (truthy_string url) then ([], [], InfoMissingUrl)
      else
        let rt := ir_rt ir in
        let cmd := dump_json_cmd url in
        match execAsync_outcome rt cmd with
        | Some msg => ([exec cmd 30000], [], InfoFailed msg)
        | None =>
            match JSON_parse ir (exec_stdout ir cmd) with
            | inl msg => ([exec cmd 30000], [], InfoFailed msg)
            | inr info =>
                let '(calls, removed, transcript) :=
                  fetch_transcript ir url info in
                (exec cmd 30000 :: calls, removed,
                 InfoFound (info_id info) (info_title info)
                   (substring 0 2000
                      (match info_description info with
                       | Some d => d
                       | None => EmptyString
                       end))
                   (info_duration info) (info_thumbnail info)
                   (or_empty (info_chapters info))
                   (or_empty (info_tags info)) transcript)
            end
        end
  end.

(** The transcript of a response. *)
Definition response_transcript (r : InfoResponse) : option string :=
  match r with
  | InfoFound _ _ _ _ _ _ _ transcript => Some transcript
  | _ => None
  end.

Definition response_description (r : InfoResponse) : option string :=
  match r with
  | InfoFound _ _ description _ _ _ _ _ => Some description
  | _ => None
  end.

(** A machine on which the metadata are found and the captions command
    fails. *)
Definition info_sample : VideoInfo :=
  mkVideoInfo "dQw4w9WgXcQ" "A video" None 212 "thumb.jpg" None None.

Definition ir_no_captions : InfoRuntime :=
  mkInfoRuntime
    (mkRuntime "/srv/temp_videos" "/srv/exports"
       (fun dir name => dir ++ "/" ++ name) (fun p => p) (fun _ => false)
       1714000000000
       (fun cmd => if starts_with "yt-dlp --dump-json" cmd then None
                   else Some "no subtitles"))
    (fun _ => "{}") (fun _ => inr info_sample) (fun _ => None)
    (fun _ => false).

(** ** Edit specifications that ask for nothing *)

(** A number that is missing or equal to one of the given values. *)
Definition missing_or (values : list Q) (v : option Q) : Prop :=
  match v with
  | None => True
  | Some q => Exists (fun x => q == x) values
  end.

(** No crop, no color change, normal speed, no overlay. *)
Definition neutral_edits (e : ClipEdits) : Prop :=
  (aspectRatio e = None \/ aspectRatio e = Some "" \/
   aspectRatio e = Some "original") /\
  missing_or [0] (brightness e) /\
  missing_or [0] (contrast e) /\
  missing_or [0] (saturation e) /\
  missing_or [0; 1] (speed e) /\
  (textOverlays e = None \/ textOverlays e = Some []).

(** ** The cleanup job of the server

    The job that runs every 30 minutes in the server that keeps its files
    on the local disk.  A directory is what [readdirSync] lists ([None] when
    it throws); for each name, what [statSync] gives ([None] when it throws)
    and whether [unlinkSync] succeeds.  [Date.now()] is read anew at every
    test: [clock i] is its [i]-th reading. *)

Record DirEntry : Type := mkDirEntry {
  de_name : string;
  de_mtimeMs : option Q;
  de_unlink_ok : bool
}.

Definition MAX_AGE_MS : Q := 2 * 60 * 60 * 1000.

(** The [for] loop over one directory, from the [reads]-th reading of the
    clock on: the paths removed and the number of readings at the end.  An
    exception ends the loop. *)
Fixpoint cleanup_files (rt : Runtime) (clock : nat -> Q) (dir : string)
  (reads : nat) (files : list DirEntry) : list string * nat :=
  match files with
  | [] => ([], reads)
  | f :: rest =>
      let fp := path_join rt dir (de_name f) in
      match de_mtimeMs f with
      | None => ([], reads)
      | Some mtimeMs =>
          if num_gt (clock reads - mtimeMs) MAX_AGE_MS then
            if de_unlink_ok f then
              let '(removed, n) := cleanup_files rt clock dir (S reads) rest in
              (fp :: removed, n)
            else ([], S reads)
          else cleanup_files rt clock dir (S reads) rest
      end
  end.

(** The body of [forEach], with its [try]. *)
Definition cleanup_dir (rt : Runtime) (clock : nat -> Q) (dir : string)
  (reads : nat) (listing : option (list DirEntry)) : list string * nat :=
  match listing with
  | Some files => cleanup_files rt clock dir reads files
  | None => ([], reads)
  end.

(** The job: the paths it removes, first under [TEMP_DIR], then under
    [EXPORT_DIR]. *)
Definition cleanup (rt : Runtime) (clock : nat -> Q)
  (temp exports : option (list DirEntry)) : list string :=
  let '(removed_temp, n) := cleanup_dir rt clock (TEMP_DIR rt) 0 temp in
  let '(removed_exports, _) := cleanup_dir rt clock (EXPORT_DIR rt) n exports in
  (removed_temp ++ removed_exports)%list.

(** The files of a listing, with the directory they are in. *)
Definition listed (dir : string) (listing : option (list DirEntry))
  : list (string * DirEntry) :=
  match listing with
  | Some files => map (fun f => (dir, f)) files
  | None => []
  end.

(** Nothing throws in a listing. *)
Definition no_failure (listing : option (list DirEntry)) : Prop :=
  exists files,
    listing = Some files /\
    Forall (fun f => de_mtimeMs f <> None /\ de_unlink_ok f = true) files.

(** A source video of three hours ago and an export of ten minutes ago, at
    1714000000000. *)
Definition temp_listing : option (list DirEntry) :=
  Some [mkDirEntry "abc.mp4" (Some 1713989200000) true].

Definition exports_listing : option (list DirEntry) :=
  Some [mkDirEntry "clip_1713999400000.mp4" (Some 1713999400000) true].

(** * Properties *)

Lemma replace_all_cons c r a s :
  replace_all c r (String a s) =
  if Ascii.eqb a c then r ++ replace_all c r s
  else String a (replace_all c r s).
Proof. reflexivity. Qed.

Lemma escapeText_cons c s :
  escapeText (String c s) = escape_char c ++ escapeText s.
Proof.
  unfold escapeText, escape_char.
  destruct (Ascii.eqb c backslash) eqn:Eb.
  { apply Ascii.eqb_eq in Eb; subst c; reflexivity. }
  destruct (Ascii.eqb c squote) eqn:Eq.
  { apply Ascii.eqb_eq in Eq; subst c; reflexivity. }
  destruct (Ascii.eqb c colon) eqn:Ec.
  { apply Ascii.eqb_eq in Ec; subst c; reflexivity. }
  rewrite (replace_all_cons backslash), Eb.
  rewrite (replace_all_cons squote), Eq.
  rewrite (replace_all_cons colon), Ec.
  reflexivity.
Qed.

Lemma escapeText_each s : escapeText s = escape_each s.
Proof.
  induction s as [|c s IH]; [reflexivity|].
  rewrite escapeText_cons, IH. reflexivity.
Qed.





(** ** The shape of the visual chain *)

Lemma push_crop_app edits filters :
  push_crop edits filters = (filters ++ push_crop edits [])%list.
Proof.
  unfold push_crop. destruct (wants_crop edits) as [ar|].
  - destruct (ratio_of ar) as [rw rh]. reflexivity.
  - now rewrite app_nil_r.
Qed.

Lemma push_color_app edits filters :
  push_color edits filters = (filters ++ push_color edits [])%list.
Proof.
  unfold push_color. destruct (eq_entries edits).
  - now rewrite app_nil_r.
  - reflexivity.
Qed.

Lemma push_speed_app edits filters :
  push_speed edits filters = (filters ++ push_speed edits [])%list.
Proof.
  unfold push_speed. destruct (wants_setpts edits).
  - reflexivity.
  - now rewrite app_nil_r.
Qed.

Lemma push_overlays_entries ts :
  Forall has_text ts ->
  exists entries,
    Forall2 (fun t entry => drawtext_entry t = Normal entry) ts entries /\
    forall filters, push_overlays ts filters = Normal (filters ++ entries)%list.
Proof.
  induction 1 as [|t ts Ht _ IH].
  - exists []. split; [constructor|]. intros. simpl. now rewrite app_nil_r.
  - destruct IH as (entries & HF & Hpush).
    destruct (drawtext_entry t) as [entry|e] eqn:Hentry.
    + exists (entry :: entries). split.
      * constructor; assumption.
      * intros filters. simpl. rewrite Hentry. simpl.
        rewrite Hpush. unfold push. now rewrite <- app_assoc.
    + exfalso. unfold drawtext_entry in Hentry. unfold has_text in Ht.
      destruct (t_text t); [discriminate|now apply Ht].
Qed.

Lemma buildFFmpegFilters_loop edits :
  buildFFmpegFilters edits =
  push_overlays (overlays_of edits)
    (push_crop edits [] ++ push_color edits [] ++ push_speed edits [])%list.
Proof.
  unfold buildFFmpegFilters, overlays_of.
  rewrite (push_speed_app edits (push_color _ _)).
  rewrite (push_color_app edits (push_crop _ _)).
  rewrite <- app_assoc.
  destruct (textOverlays edits) as [[|t ts]|]; reflexivity.
Qed.

Lemma push_crop_kind edits :
  (length (push_crop edits []) <= 1)%nat /\ all_kind KCrop (push_crop edits []).
Proof.
  unfold push_crop. destruct (wants_crop edits) as [ar|].
  - destruct (ratio_of ar) as [rw rh]. split; [simpl; lia|].
    repeat constructor.
  - split; [simpl; lia|constructor].
Qed.

Lemma push_color_kind edits :
  (length (push_color edits []) <= 1)%nat /\
  all_kind KColor (push_color edits []).
Proof.
  unfold push_color. destruct (eq_entries edits).
  - split; [simpl; lia|constructor].
  - split; [simpl; lia|]. constructor; [reflexivity|constructor].
Qed.

Lemma push_speed_kind edits :
  (length (push_speed edits []) <= 1)%nat /\
  all_kind KSpeed (push_speed edits []).
Proof.
  unfold push_speed. destruct (wants_setpts edits).
  - split; [simpl; lia|]. repeat constructor.
  - split; [simpl; lia|constructor].
Qed.

Lemma drawtext_entry_kind t entry :
  drawtext_entry t = Normal entry -> kind_of entry = Some KText.
Proof.
  unfold drawtext_entry. destruct (t_text t); [|discriminate].
  intros H; injection H as <-. reflexivity.
Qed.

Lemma drawtext_entries_kind ts entries :
  Forall2 (fun t entry => drawtext_entry t = Normal entry) ts entries ->
  all_kind KText entries.
Proof.
  induction 1; constructor; eauto using drawtext_entry_kind.
Qed.

Lemma buildFFmpegFilters_parts edits :
  Forall has_text (overlays_of edits) ->
  exists texts,
    buildFFmpegFilters edits =
    Normal (push_crop edits [] ++ push_color edits [] ++
            push_speed edits [] ++ texts)%list /\
    Forall2 (fun t entry => drawtext_entry t = Normal entry)
      (overlays_of edits) texts.
Proof.
  intros Htext.
  destruct (push_overlays_entries _ Htext) as (texts & HF & Hpush).
  exists texts. split; [|exact HF].
  rewrite buildFFmpegFilters_loop, Hpush, <- !app_assoc. reflexivity.
Qed.

Lemma kinds_differ k k' l :
  k <> k' -> all_kind k l -> Forall (fun e => kind_of e <> Some k') l.
Proof.
  intros Hk H. eapply Forall_impl; [|exact H]. cbv beta.
  intros e He. rewrite He. congruence.
Qed.

Lemma push_overlays_inv ts filters fs :
  push_overlays ts filters = Normal fs ->
  exists entries,
    fs = (filters ++ entries)%list /\
    Forall2 (fun t entry => drawtext_entry t = Normal entry) ts entries.
Proof.
  revert filters. induction ts as [|t ts IH]; intros filters Hfs.
  - injection Hfs as <-. exists []. split; [now rewrite app_nil_r|constructor].
  - simpl in Hfs. destruct (drawtext_entry t) as [entry|e] eqn:Hentry;
      [|discriminate].
    simpl in Hfs. apply IH in Hfs as (entries & -> & HF).
    exists (entry :: entries). split.
    + unfold push. now rewrite <- app_assoc.
    + now constructor.
Qed.

Lemma buildFFmpegFilters_texts edits fs :
  buildFFmpegFilters edits = Normal fs ->
  exists texts,
    fs = (push_crop edits [] ++ push_color edits [] ++
          push_speed edits [] ++ texts)%list /\
    Forall2 (fun t entry => drawtext_entry t = Normal entry)
      (overlays_of edits) texts.
Proof.
  rewrite buildFFmpegFilters_loop. intros Hfs.
  apply push_overlays_inv in Hfs as (texts & -> & HF).
  exists texts. split; [now rewrite <- !app_assoc|exact HF].
Qed.

Lemma buildFFmpegFilters_inv edits fs :
  buildFFmpegFilters edits = Normal fs ->
  exists texts,
    fs = (push_crop edits [] ++ push_color edits [] ++
          push_speed edits [] ++ texts)%list /\
    all_kind KText texts.
Proof.
  rewrite buildFFmpegFilters_loop. intros Hfs.
  apply push_overlays_inv in Hfs as (texts & -> & HF).
  exists texts. split; [now rewrite <- !app_assoc|].
  eapply drawtext_entries_kind; eassumption.
Qed.

(** ** The command line *)

Lemma clamp_tempo_min_max s :
  Math_min (Math_max s (1 # 2)) 2 = clamp_tempo s.
Proof.
  unfold Math_min, Math_max, clamp_tempo.
  destruct (Qle_bool s (1 # 2)); reflexivity.
Qed.

Lemma cmd_args src out c filters speed :
  filter_Boolean (cmd_array src out c filters speed) =
  (input_args src c ++ vf_args filters ++ af_args speed ++ output_args out)%list.
Proof.
  unfold cmd_array, filter_Boolean, vf_args, af_args, num_neq.
  rewrite clamp_tempo_min_max.
  destruct filters as [|f fs]; destruct (Qeq_bool speed 1); reflexivity.
Qed.

Lemma vf_args_nil_no_vf src out c speed :
  Forall (fun arg => is_vf arg = false)
    (filter_Boolean (cmd_array src out c [] speed)).
Proof.
  rewrite cmd_args. unfold af_args.
  destruct (Qeq_bool speed 1); repeat (constructor; [reflexivity|]);
    constructor.
Qed.

Lemma af_args_nil_no_af src out c filters speed :
  Qeq_bool speed 1 = true ->
  Forall (fun arg => is_af arg = false)
    (filter_Boolean (cmd_array src out c filters speed)).
Proof.
  intros H. rewrite cmd_args. unfold af_args, vf_args. rewrite H.
  destruct filters; repeat (constructor; [reflexivity|]); constructor.
Qed.

(** ** Text overlays *)

Lemma drawtext_entry_text t text :
  t_text t = Some text ->
  drawtext_entry t =
  Normal ("drawtext=text='" ++ escapeText text ++ "':fontsize=" ++
          show_number (overlay_size t) ++ ":fontcolor=" ++ overlay_color t ++
          ":x=" ++ overlay_x t ++ ":y=" ++ overlay_y t ++ overlay_enable t).
Proof. intros H. unfold drawtext_entry. rewrite H. reflexivity. Qed.





(** ** Color *)

Lemma eq_entries_color_dims edits : eq_entries edits = color_dims edits.
Proof.
  unfold eq_entries, color_dims, color_dim, present_nonzero, num_neq, push.
  destruct (brightness edits) as [b|]; [destruct (Qeq_bool b 0)|];
    (destruct (contrast edits) as [c|]; [destruct (Qeq_bool c 0)|]);
    (destruct (saturation edits) as [s|]; [destruct (Qeq_bool s 0)|]);
    reflexivity.
Qed.

Lemma color_dim_zero name render q :
  q == 0 -> color_dim name render (Some q) = [].
Proof.
  intros H. unfold color_dim. apply Qeq_bool_iff in H. now rewrite H.
Qed.

Lemma color_dim_nonzero name render q :
  ~ q == 0 -> color_dim name render (Some q) = [name ++ "=" ++ render q].
Proof.
  intros H. unfold color_dim. destruct (Qeq_bool q 0) eqn:E; [|reflexivity].
  apply Qeq_bool_iff in E. contradiction.
Qed.

Lemma color_dim_in name render v entry :
  In entry (color_dim name render v) ->
  exists q, v = Some q /\ ~ q == 0 /\ entry = name ++ "=" ++ render q.
Proof.
  unfold color_dim. destruct v as [q|]; [|intros []].
  destruct (Qeq_bool q 0) eqn:E; [intros []|].
  intros [<-|[]]. exists q. repeat split.
  intros H. apply Qeq_bool_iff in H. congruence.
Qed.

Lemma push_color_none edits :
  color_dims edits = [] -> push_color edits [] = [].
Proof.
  intros H. unfold push_color. now rewrite eq_entries_color_dims, H.
Qed.

Lemma push_color_some edits :
  color_dims edits <> [] -> push_color edits [] = [color_entry edits].
Proof.
  intros H. unfold push_color, color_entry. rewrite eq_entries_color_dims.
  destruct (color_dims edits); [contradiction|reflexivity].
Qed.

Lemma color_dims_all_zero edits b c s :
  brightness edits = Some b -> contrast edits = Some c ->
  saturation edits = Some s -> b == 0 -> c == 0 -> s == 0 ->
  color_dims edits = [].
Proof.
  intros Hb Hc Hs Zb Zc Zs. unfold color_dims.
  rewrite Hb, Hc, Hs, !color_dim_zero by assumption. reflexivity.
Qed.

Lemma chain_without_color edits chain :
  buildFFmpegFilters edits = Normal chain ->
  color_dims edits = [] ->
  Forall (fun entry => kind_of entry <> Some KColor) chain.
Proof.
  intros Hchain Hnone.
  apply buildFFmpegFilters_inv in Hchain as (texts & -> & Ht).
  rewrite (push_color_none _ Hnone). rewrite !Forall_app. repeat split.
  - apply (kinds_differ KCrop); [discriminate|apply push_crop_kind].
  - constructor.
  - apply (kinds_differ KSpeed); [discriminate|apply push_speed_kind].
  - apply (kinds_differ KText); [discriminate|assumption].
Qed.

Lemma chain_with_color edits chain :
  buildFFmpegFilters edits = Normal chain ->
  color_dims edits <> [] ->
  exists before after,
    chain = (before ++ color_entry edits :: after)%list /\
    all_kind KCrop before /\
    Forall (fun entry => kind_of entry <> Some KColor) before /\
    Forall (fun entry => kind_of entry <> Some KColor) after.
Proof.
  intros Hchain Hsome.
  apply buildFFmpegFilters_inv in Hchain as (texts & -> & Ht).
  rewrite (push_color_some _ Hsome).
  exists (push_crop edits []), (push_speed edits [] ++ texts)%list.
  split; [reflexivity|]. split; [apply push_crop_kind|]. split.
  - apply (kinds_differ KCrop); [discriminate|apply push_crop_kind].
  - rewrite Forall_app. split.
    + apply (kinds_differ KSpeed); [discriminate|apply push_speed_kind].
    + apply (kinds_differ KText); [discriminate|assumption].
Qed.

(** C7. The chain [buildFFmpegFilters] returns has no color entry when
    brightness, contrast and saturation are all 0, and, in general, when no
    dimension is set and not zero.  When there is such a dimension the chain
    has exactly one color entry, placed after the crop entry if there is one:
    [eq=] followed by the dimensions that are set and not zero, in the order
    brightness, contrast, saturation and joined by colons, and nothing else:
    brightness as it is, contrast and saturation as [1 + delta] with four
    decimals.  The chain is returned whenever every overlay has a text. *)
Theorem color_filter_dims (edits : ClipEdits) (filters : list string) :
  eq_entries edits = color_dims edits /\
  (forall b c s,
      brightness edits = Some b -> contrast edits = Some c ->
      saturation edits = Some s -> b == 0 -> c == 0 -> s == 0 ->
      push_color edits filters = filters) /\
  (color_dims edits = [] -> push_color edits filters = filters) /\
  (color_dims edits <> [] ->
   push_color edits filters = push filters (color_entry edits)) /\
  (forall b, brightness edits = Some b -> ~ b == 0 ->
             In ("brightness=" ++ show_number b) (color_dims edits)) /\
  (forall c, contrast edits = Some c -> ~ c == 0 ->
             In ("contrast=" ++ toFixed 4 (1 + c)) (color_dims edits)) /\
  (forall s, saturation edits = Some s -> ~ s == 0 ->
             In ("saturation=" ++ toFixed 4 (1 + s)) (color_dims edits)) /\
  (forall entry, In entry (color_dims edits) ->
     (exists b, brightness edits = Some b /\ ~ b == 0 /\
                entry = "brightness=" ++ show_number b) \/
     (exists c, contrast edits = Some c /\ ~ c == 0 /\
                entry = "contrast=" ++ toFixed 4 (1 + c)) \/
     (exists s, saturation edits = Some s /\ ~ s == 0 /\
                entry = "saturation=" ++ toFixed 4 (1 + s))) /\
  (Forall has_text (overlays_of edits) ->
   exists chain, buildFFmpegFilters edits = Normal chain) /\
  (forall chain,
      buildFFmpegFilters edits = Normal chain ->
      (forall b c s,
          brightness edits = Some b -> contrast edits = Some c ->
          saturation edits = Some s -> b == 0 -> c == 0 -> s == 0 ->
          Forall (fun entry => kind_of entry <> Some KColor) chain) /\
      (color_dims edits = [] ->
       Forall (fun entry => kind_of entry <> Some KColor) chain) /\
      (color_dims edits <> [] ->
       exists before after,
         chain = (before ++ color_entry edits :: after)%list /\
         all_kind KCrop before /\
         Forall (fun entry => kind_of entry <> Some KColor) before /\
         Forall (fun entry => kind_of entry <> Some KColor) after)).
Proof.
  split; [apply eq_entries_color_dims|].
  split.
  { intros b c s Hb Hc Hs Zb Zc Zs. unfold push_color.
    rewrite eq_entries_color_dims.
    now rewrite (color_dims_all_zero edits b c s). }
  split.
  { intros H. unfold push_color. now rewrite eq_entries_color_dims, H. }
  split.
  { intros H. unfold push_color, color_entry. rewrite eq_entries_color_dims.
    destruct (color_dims edits); [contradiction|reflexivity]. }
  split.
  { intros b Hb Zb. unfold color_dims. rewrite Hb.
    rewrite color_dim_nonzero by assumption.
    apply in_or_app. left. now left. }
  split.
  { intros c Hc Zc. unfold color_dims. rewrite Hc.
    rewrite (color_dim_nonzero "contrast") by assumption.
    apply in_or_app. right. apply in_or_app. left. now left. }
  split.
  { intros s Hs Zs. unfold color_dims. rewrite Hs.
    rewrite (color_dim_nonzero "saturation") by assumption.
    apply in_or_app. right. apply in_or_app. right. now left. }
  split.
  { unfold color_dims. intros entry H.
    apply in_app_or in H as [H|H]; [|apply in_app_or in H as [H|H]];
      apply color_dim_in in H; auto. }
  split.
  { intros Htext.
    destruct (buildFFmpegFilters_parts _ Htext) as (texts & Hbuild & _).
    eexists. exact Hbuild. }
  intros chain Hchain. split.
  { intros b c s Hb Hc Hs Zb Zc Zs.
    apply (chain_without_color edits chain Hchain).
    now apply (color_dims_all_zero edits b c s). }
  split.
  - now apply chain_without_color.
  - now apply chain_with_color.
Qed.

Lemma color_filter_dims_witness :
  buildFFmpegFilters defaultEdits = Normal [] /\
  exists chain before after,
    buildFFmpegFilters edits_warm = Normal chain /\
    chain = (before ++ "eq=contrast=1.1000:saturation=0.7500" :: after)%list /\
    Forall (fun entry => kind_of entry <> Some KColor) before /\
    Forall (fun entry => kind_of entry <> Some KColor) after.
Proof.
  split; [reflexivity|].
  destruct (color_filter_dims edits_warm []) as (_ & _ & _ & _ & _ & _ & _ & _ &
                                                 Hruns & Hchain).
  destruct Hruns as (chain & Hbuild); [constructor|].
  destruct (Hchain chain Hbuild) as (_ & _ & Hsome).
  destruct Hsome as (before & after & Heq & _ & Hb & Ha); [discriminate|].
  exists chain, before, after. repeat split; assumption.
Defined.

(** ** The order of the chains *)

Lemma kind_not_atempo k entry :
  kind_of entry = Some k -> starts_with "atempo=" entry = false.
Proof.
  destruct entry as [|a entry]; [discriminate|].
  destruct (Ascii.eqb "a" a) eqn:E.
  - apply Ascii.eqb_eq in E. subst a. discriminate.
  - intros _.
    change (starts_with "atempo=" (String a entry))
      with (Ascii.eqb "a" a && starts_with "tempo=" entry).
    rewrite E. reflexivity.
Qed.

(** C5. For every edit specification whose overlays have a text, the visual
    chain is, in this order: at most one crop entry, at most one color entry,
    at most one setpts entry, then one drawtext entry per overlay in the
    order of the overlays; a part that has nothing to say adds nothing.  The
    command line carries the chain in a [-vf] argument of its own, next to
    the [-af] argument of the audio tempo, which is no entry of the visual
    chain; and when the visual chain is empty there is no [-vf] argument. *)
Theorem visual_chain_order (edits : ClipEdits) :
  Forall has_text (overlays_of edits) ->
  exists crop color setpts texts,
    buildFFmpegFilters edits = Normal (crop ++ color ++ setpts ++ texts)%list /\
    crop = push_crop edits [] /\
    color = push_color edits [] /\
    setpts = push_speed edits [] /\
    ((length crop <= 1)%nat /\ all_kind KCrop crop) /\
    ((length color <= 1)%nat /\ all_kind KColor color) /\
    ((length setpts <= 1)%nat /\ all_kind KSpeed setpts) /\
    Forall2 (fun t entry => drawtext_entry t = Normal entry)
      (overlays_of edits) texts /\
    all_kind KText texts /\
    Forall (fun entry => starts_with "atempo=" entry = false)
      (crop ++ color ++ setpts ++ texts)%list /\
    forall src out c speed,
      filter_Boolean
        (cmd_array src out c (crop ++ color ++ setpts ++ texts)%list speed) =
      (input_args src c ++
       vf_args (crop ++ color ++ setpts ++ texts) ++
       af_args speed ++ output_args out)%list /\
      ((crop ++ color ++ setpts ++ texts)%list = [] ->
       Forall (fun arg => is_vf arg = false)
         (filter_Boolean (cmd_array src out c [] speed))).
Proof.
  intros Htext.
  destruct (buildFFmpegFilters_parts _ Htext) as (texts & Hbuild & HF).
  exists (push_crop edits []), (push_color edits []), (push_speed edits []),
    texts.
  pose proof (push_crop_kind edits) as Hc.
  pose proof (push_color_kind edits) as He.
  pose proof (push_speed_kind edits) as Hs.
  pose proof (drawtext_entries_kind _ _ HF) as Ht.
  split; [exact Hbuild|].
  do 3 (split; [reflexivity|]).
  do 3 (split; [assumption|]).
  do 2 (split; [assumption|]).
  split.
  { destruct Hc as [_ Hc], He as [_ He], Hs as [_ Hs].
    rewrite !Forall_app.
    repeat split;
      (eapply Forall_impl; [|eassumption]);
      intros entry Hk; exact (kind_not_atempo _ _ Hk). }
  intros src out c speed. split; [apply cmd_args|].
  intros _. apply vf_args_nil_no_vf.
Qed.

Lemma visual_chain_order_witness :
  exists texts,
    buildFFmpegFilters edits_everything =
    Normal ([crop_square] ++ ["eq=brightness=0.2"] ++
            ["setpts=0.500000*PTS"] ++ texts)%list /\
    Forall2 (fun t entry => drawtext_entry t = Normal entry)
      [overlay_first; overlay_second] texts.
Proof.
  assert (Htext : Forall has_text (overlays_of edits_everything)).
  { repeat constructor; discriminate. }
  destruct (visual_chain_order edits_everything Htext)
    as (crop & color & setpts & texts & Hbuild & -> & -> & -> & _ & _ & _ &
        Hentries & _).
  exists texts. split; [exact Hbuild|exact Hentries].
Defined.

Example chain_everything :
  buildFFmpegFilters edits_everything =
  Normal
    [ crop_square;
      "eq=brightness=0.2";
      "setpts=0.500000*PTS";
      "drawtext=text='first':fontsize=36:fontcolor=0xFFFFFF" ++
      ":x=(w-text_w)/2:y=h*0.85";
      "drawtext=text='second':fontsize=48:fontcolor=0xFF0000" ++
      ":x=w*0.5:y=h*0.25:enable='between(t,1,3)'" ].
Proof. vm_compute. reflexivity. Qed.

(** ** Speed *)

Lemma clamp_tempo_range s : (1 # 2) <= clamp_tempo s <= 2.
Proof.
  unfold clamp_tempo.
  destruct (Qle_bool s (1 # 2)) eqn:E1.
  - split; [apply Qle_refl|discriminate].
  - destruct (Qle_bool s 2) eqn:E2.
    + split; [|now apply Qle_bool_iff].
      apply Qlt_le_weak, Qnot_le_lt. intros H.
      apply Qle_bool_iff in H. congruence.
    + split; [discriminate|apply Qle_refl].
Qed.

Lemma clamp_tempo_inside s : (1 # 2) <= s <= 2 -> clamp_tempo s == s.
Proof.
  intros [H1 H2]. unfold clamp_tempo.
  destruct (Qle_bool s (1 # 2)) eqn:E1.
  - apply Qle_bool_iff in E1. now apply Qle_antisym.
  - apply Qle_bool_iff in H2. rewrite H2. reflexivity.
Qed.

Lemma clamp_tempo_above s : 2 <= s -> clamp_tempo s == 2.
Proof.
  intros H. unfold clamp_tempo.
  destruct (Qle_bool s (1 # 2)) eqn:E1.
  - apply Qle_bool_iff in E1. exfalso.
    apply (Qle_not_lt _ _ (Qle_trans _ _ _ H E1)). reflexivity.
  - destruct (Qle_bool s 2) eqn:E2; [|reflexivity].
    apply Qle_bool_iff in E2. now apply Qle_antisym.
Qed.

Lemma clamp_tempo_below s : s <= (1 # 2) -> clamp_tempo s = (1 # 2).
Proof.
  intros H. unfold clamp_tempo. apply Qle_bool_iff in H. now rewrite H.
Qed.

Lemma Qeq_bool_false a b : ~ a == b -> Qeq_bool a b = false.
Proof.
  intros H. destruct (Qeq_bool a b) eqn:E; [|reflexivity].
  apply Qeq_bool_iff in E. contradiction.
Qed.

(** C4. For speed 1 there is no setpts entry in the visual chain and no
    [-af] argument on the command line.  For every other speed (0, which the
    code takes for "not set", apart) the visual chain has the entry
    [setpts=(1/speed)*PTS], the factor written with six decimals, and the
    command line has the argument [-af "atempo=v"] with [v] the speed clamped
    to [0.5, 2]; for speed 3 these are [setpts=0.333333*PTS] and
    [atempo=2]. *)
Theorem speed_filters (edits : ClipEdits) (s : Q) :
  speed edits = Some s ->
  Forall has_text (overlays_of edits) ->
  exists filters,
    buildFFmpegFilters edits = Normal filters /\
    (s == 1 ->
     Forall (fun entry => kind_of entry <> Some KSpeed) filters /\
     forall src out c,
       Forall (fun arg => is_af arg = false)
         (filter_Boolean
            (cmd_array src out c filters (audio_speed (Some edits))))) /\
    (~ s == 0 -> ~ s == 1 ->
     In ("setpts=" ++ toFixed 6 (1 / s) ++ "*PTS") filters /\
     forall src out c,
       In ("-af " ++ str dquote ++ "atempo=" ++ show_number (clamp_tempo s)
           ++ str dquote)
         (filter_Boolean
            (cmd_array src out c filters (audio_speed (Some edits))))) /\
    (1 # 2) <= clamp_tempo s <= 2 /\
    ((1 # 2) <= s <= 2 -> clamp_tempo s == s) /\
    (s <= (1 # 2) -> clamp_tempo s = (1 # 2)) /\
    (2 <= s -> clamp_tempo s == 2) /\
    (s = 3 ->
     In "setpts=0.333333*PTS" filters /\
     forall src out c,
       In ("-af " ++ str dquote ++ "atempo=2" ++ str dquote)
         (filter_Boolean
            (cmd_array src out c filters (audio_speed (Some edits))))).
Proof.
  intros Hs Htext.
  destruct (buildFFmpegFilters_parts _ Htext) as (texts & Hbuild & HF).
  eexists. split; [exact Hbuild|].
  assert (Hset : ~ s == 0 -> ~ s == 1 ->
                 push_speed edits [] =
                 ["setpts=" ++ toFixed 6 (1 / s) ++ "*PTS"] /\
                 forall src out c filters,
                   In ("-af " ++ str dquote ++ "atempo=" ++
                       show_number (clamp_tempo s) ++ str dquote)
                     (filter_Boolean
                        (cmd_array src out c filters
                           (audio_speed (Some edits))))).
  { intros H0 H1.
    unfold push_speed, wants_setpts, audio_speed, truthy_num, num_neq.
    rewrite Hs, !Qeq_bool_false by assumption. split; [reflexivity|].
    intros src out c filters. rewrite cmd_args.
    apply in_or_app; right. apply in_or_app; right. apply in_or_app; left.
    unfold af_args. rewrite Qeq_bool_false by assumption. now left. }
  split.
  { intros H1. apply Qeq_bool_iff in H1. split.
    - assert (push_speed edits [] = []) as ->.
      { unfold push_speed, wants_setpts, num_neq. rewrite Hs, H1.
        now rewrite andb_false_r. }
      rewrite !Forall_app. repeat split.
      + apply (kinds_differ KCrop); [discriminate|apply push_crop_kind].
      + apply (kinds_differ KColor); [discriminate|apply push_color_kind].
      + constructor.
      + apply (kinds_differ KText); [discriminate|].
        eapply drawtext_entries_kind; eassumption.
    - intros src out c. apply af_args_nil_no_af.
      unfold audio_speed. rewrite Hs.
      destruct (truthy_num s); [exact H1|reflexivity]. }
  split.
  { intros H0 H1. destruct (Hset H0 H1) as [Hpush Haf]. split.
    - rewrite Hpush. apply in_or_app; right. apply in_or_app; right.
      now left.
    - intros; apply Haf. }
  split; [apply clamp_tempo_range|].
  split; [apply clamp_tempo_inside|].
  split; [apply clamp_tempo_below|].
  split; [apply clamp_tempo_above|].
  intros ->.
  destruct Hset as [Hpush Haf]; [discriminate|discriminate|]. split.
  - rewrite Hpush. apply in_or_app; right. apply in_or_app; right. now left.
  - intros; apply Haf.
Qed.

Lemma speed_filters_witness :
  exists filters,
    buildFFmpegFilters edits_triple_speed = Normal filters /\
    In "setpts=0.333333*PTS" filters /\
    forall src out c,
      In ("-af " ++ str dquote ++ "atempo=2" ++ str dquote)
        (filter_Boolean
           (cmd_array src out c filters
              (audio_speed (Some edits_triple_speed)))).
Proof.
  destruct (speed_filters edits_triple_speed 3 eq_refl (Forall_nil _))
    as (filters & Hbuild & _ & _ & _ & _ & _ & _ & Hthree).
  exists filters. split; [exact Hbuild|]. exact (Hthree eq_refl).
Defined.

Example speed_one_no_filter :
  buildFFmpegFilters defaultEdits = Normal [] /\
  filter_Boolean
    (cmd_array "in.mp4" "out.mp4" (mkClip 0 10) []
       (audio_speed (Some defaultEdits))) =
  (input_args "in.mp4" (mkClip 0 10) ++ output_args "out.mp4")%list.
Proof. split; vm_compute; reflexivity. Qed.

(** ** The crop geometry *)

Lemma append_assoc (a b c : string) : (a ++ b) ++ c = a ++ b ++ c.
Proof. induction a as [|x a IH]; simpl; [reflexivity|now rewrite IH]. Qed.

Lemma show_cropW rw rh : show_Expr (cropW_expr rw rh) = cropW_text rw rh.
Proof.
  unfold cropW_text. simpl. rewrite !append_assoc. reflexivity.
Qed.

Lemma show_cropH rw rh : show_Expr (cropH_expr rw rh) = cropH_text rw rh.
Proof.
  unfold cropH_text. simpl. rewrite !append_assoc. reflexivity.
Qed.

Lemma crop_entry_exprs rw rh :
  crop_entry rw rh =
  "crop=" ++ show_Expr (cropW_expr rw rh) ++ ":" ++
  show_Expr (cropH_expr rw rh) ++ ":" ++
  show_Expr cropX_expr ++ ":" ++ show_Expr cropY_expr.
Proof.
  rewrite show_cropW, show_cropH. reflexivity.
Qed.

Lemma inject_Z_pos_neq0 z : (0 < z)%Z -> Qeq_bool (inject_Z z) 0 = false.
Proof.
  intros H. apply Qeq_bool_false. intros E.
  apply (Qlt_not_eq 0 (inject_Z z)); [|now symmetry].
  unfold Qlt; simpl; lia.
Qed.

Lemma Qtrunc_nonneg q : 0 <= q -> Qtrunc q = Qfloor q.
Proof.
  intros H. unfold Qtrunc. apply Qle_bool_iff in H. now rewrite H.
Qed.

Lemma Qdiv_le_cross a b c d :
  (0 < b)%Z -> (0 < d)%Z ->
  (inject_Z a / inject_Z b <= inject_Z c / inject_Z d <-> (a * d <= c * b)%Z).
Proof.
  intros Hb Hd.
  destruct b as [|p|p]; try lia. destruct d as [|q|q]; try lia.
  unfold Qle, Qdiv, Qmult, Qinv, inject_Z; simpl.
  rewrite !Z.mul_1_r. reflexivity.
Qed.

Lemma half_ratio_nonneg a b c :
  (0 <= a)%Z -> (0 <= b)%Z -> (0 < c)%Z ->
  0 <= inject_Z a * inject_Z b / inject_Z c / 2.
Proof.
  intros Ha Hb Hc.
  apply Qle_shift_div_l; [reflexivity|]. rewrite Qmult_0_l.
  apply Qle_shift_div_l; [unfold Qlt; simpl; lia|]. rewrite Qmult_0_l.
  rewrite <- inject_Z_mult. unfold Qle; simpl. nia.
Qed.

Lemma floor_half_even_floor x : is_even_floor x (2 * Qfloor (x / 2)).
Proof.
  split.
  - rewrite Z.even_mul. reflexivity.
  - pose proof (Qfloor_le (x / 2)) as H1.
    pose proof (Qlt_floor (x / 2)) as H2.
    rewrite inject_Z_plus in H2. rewrite inject_Z_mult.
    change (x / 2) with (x * (1 # 2)) in *.
    change (inject_Z 2) with 2. change (inject_Z 1) with 1 in H2.
    split; lra.
Qed.

Lemma cut_value a b c :
  (0 <= a)%Z -> (0 <= b)%Z -> (0 < c)%Z ->
  let x := inject_Z a * inject_Z b / inject_Z c in
  inject_Z (Qtrunc (x / 2)) * 2 == inject_Z (2 * Qfloor (x / 2)).
Proof.
  intros Ha Hb Hc x. unfold x.
  rewrite Qtrunc_nonneg by now apply half_ratio_nonneg.
  rewrite inject_Z_mult. change (inject_Z 2) with 2. ring.
Qed.

Section CropGeometry.

Variables w h rw rh : Z.
Hypothesis w_pos : (0 < w)%Z.
Hypothesis h_pos : (0 < h)%Z.
Hypothesis rw_pos : (0 < rw)%Z.
Hypothesis rh_pos : (0 < rh)%Z.

Let W : Q := inject_Z w.
Let H : Q := inject_Z h.
Let RW : Q := inject_Z rw.
Let RH : Q := inject_Z rh.

(** The source is not wider than the target. *)
Let narrow : bool := Qle_bool (W / H) (RW / RH).

Let cut_w : Q := inject_Z (Qtrunc (H * RW / RH / 2)) * 2.
Let cut_h : Q := inject_Z (Qtrunc (W * RH / RW / 2)) * 2.

Lemma eval_cropW ow oh :
  eval (mkFrame W H ow oh) (cropW_expr (Num RW) (Num RH)) =
  Some (if narrow then W else cut_w).
Proof.
  cbn [eval cropW_expr source_wider two lift2 option_map iw ih].
  unfold H, RH. rewrite !inject_Z_pos_neq0 by assumption.
  change (Qeq_bool 2 0) with false. cbn [lift2 option_map].
  fold H RH W RW narrow. destruct narrow; reflexivity.
Qed.

Lemma eval_cropH ow oh :
  eval (mkFrame W H ow oh) (cropH_expr (Num RW) (Num RH)) =
  Some (if narrow then cut_h else H).
Proof.
  cbn [eval cropH_expr source_wider two lift2 option_map iw ih].
  unfold H, RH, RW. rewrite !inject_Z_pos_neq0 by assumption.
  change (Qeq_bool 2 0) with false. cbn [lift2 option_map].
  fold H RH W RW narrow. destruct narrow; reflexivity.
Qed.

Lemma crop_box_value :
  crop_box (Num RW) (Num RH) w h =
  Some (mkCropBox (if narrow then W else cut_w)
                  (if narrow then cut_h else H)
                  ((W - (if narrow then W else cut_w)) / 2)
                  ((H - (if narrow then cut_h else H)) / 2)).
Proof.
  unfold crop_box. fold W H. rewrite eval_cropW, eval_cropH.
  reflexivity.
Qed.

Lemma narrow_cross : narrow = true <-> (w * rh <= rw * h)%Z.
Proof.
  unfold narrow. rewrite Qle_bool_iff. now apply Qdiv_le_cross.
Qed.

(** The cut dimensions as integers. *)
Let cw : Z := (2 * Qfloor (H * RW / RH / 2))%Z.
Let ch : Z := (2 * Qfloor (W * RH / RW / 2))%Z.

Lemma cut_w_cw : cut_w == inject_Z cw.
Proof. apply cut_value; lia. Qed.

Lemma cut_h_ch : cut_h == inject_Z ch.
Proof. apply cut_value; lia. Qed.

Lemma cw_even_floor : is_even_floor (H * RW / RH) cw.
Proof. apply floor_half_even_floor. Qed.

Lemma ch_even_floor : is_even_floor (W * RH / RW) ch.
Proof. apply floor_half_even_floor. Qed.

Lemma wide_ratio_lt : narrow = false -> H * RW / RH < W.
Proof.
  intros Hn. apply Qlt_shift_div_r; [unfold Qlt; simpl; lia|].
  unfold H, RW, W, RH. rewrite <- !inject_Z_mult, <- Zlt_Qlt.
  destruct (Z.le_gt_cases (w * rh) (rw * h)) as [Hle|Hgt]; [|lia].
  apply narrow_cross in Hle. congruence.
Qed.

Lemma narrow_ratio_le : narrow = true -> W * RH / RW <= H.
Proof.
  intros Hn. apply Qle_shift_div_r; [unfold Qlt; simpl; lia|].
  unfold H, RW, W, RH. rewrite <- !inject_Z_mult, <- Zle_Qle.
  apply narrow_cross in Hn. lia.
Qed.

Lemma cut_w_fits : narrow = false -> cut_w <= W.
Proof.
  intros Hn. rewrite cut_w_cw.
  destruct cw_even_floor as [_ [Hle _]].
  apply Qlt_le_weak. eapply Qle_lt_trans; [exact Hle|].
  now apply wide_ratio_lt.
Qed.

Lemma cut_h_fits : narrow = true -> cut_h <= H.
Proof.
  intros Hn. rewrite cut_h_ch.
  destruct ch_even_floor as [_ [Hle _]].
  eapply Qle_trans; [exact Hle|]. now apply narrow_ratio_le.
Qed.

(** The crop box on a [w] by [h] source, for the target [rw:rh]. *)
Lemma crop_box_geometry :
  exists box,
    crop_box (Num RW) (Num RH) w h = Some box /\
    crop_x box == (W - crop_w box) / 2 /\
    crop_y box == (H - crop_h box) / 2 /\
    crop_w box <= W /\ crop_h box <= H /\
    (RW / RH < W / H ->
     crop_h box = H /\ crop_w box == inject_Z cw) /\
    (W / H <= RW / RH ->
     crop_w box = W /\ crop_h box == inject_Z ch).
Proof.
  eexists. split; [apply crop_box_value|]. cbn [crop_w crop_h crop_x crop_y].
  split; [reflexivity|]. split; [reflexivity|].
  destruct narrow eqn:Hn.
  - split; [apply Qle_refl|]. split; [now apply cut_h_fits|]. split.
    + intros Hlt. exfalso. apply (Qlt_not_le _ _ Hlt).
      now apply Qle_bool_iff.
    + intros _. split; [reflexivity|apply cut_h_ch].
  - split; [now apply cut_w_fits|]. split; [apply Qle_refl|]. split.
    + intros _. split; [reflexivity|apply cut_w_cw].
    + intros Hle. apply Qle_bool_iff in Hle. fold narrow in Hle. congruence.
Qed.

End CropGeometry.

Lemma supported_ratio_parsed name rw rh :
  In (name, (rw, rh)) supported_ratios ->
  (0 < rw)%Z /\ (0 < rh)%Z /\
  ratio_of name = (Num (inject_Z rw), Num (inject_Z rh)) /\
  truthy_string name && negb (String.eqb name "original") = true.
Proof.
  unfold supported_ratios.
  intros [E|[E|[E|[E|[]]]]]; injection E as <- <- <-;
    (split; [lia|]; split; [lia|]; split; reflexivity).
Qed.

(** C2, as stated, fails: a source of 101 by 200 pixels cropped to 16:9
    keeps its full width, 101, which is odd. *)
Lemma crop_dims_even_odd_source : ~ crop_dims_even 101 200 16 9.
Proof.
  intros (box & cw & ch & Hbox & Hw & _ & Hev & _).
  vm_compute in Hbox. injection Hbox as <-.
  cbn [crop_w] in Hw. unfold Qeq in Hw. simpl in Hw.
  assert (cw = 101%Z) as -> by lia. discriminate.
Qed.

(** C2, amended. For every positive source width and height and every
    supported target ratio, the crop width and height the crop expressions
    give are integers that do not exceed the source width and height; one
    axis is kept as the source has it and the other, the one that is cut,
    is even; so both are even whenever the source dimensions are. *)
Theorem crop_dims_fit (w h rw rh : Z) (name : string) :
  (0 < w)%Z -> (0 < h)%Z ->
  In (name, (rw, rh)) supported_ratios ->
  exists box cw ch,
    crop_box (Num (inject_Z rw)) (Num (inject_Z rh)) w h = Some box /\
    crop_w box == inject_Z cw /\ crop_h box == inject_Z ch /\
    (cw <= w)%Z /\ (ch <= h)%Z /\
    ((cw = w /\ Z.even ch = true) \/ (ch = h /\ Z.even cw = true)) /\
    (Z.even w = true -> Z.even h = true ->
     Z.even cw = true /\ Z.even ch = true).
Proof.
  intros Hw Hh Hin.
  destruct (supported_ratio_parsed _ _ _ Hin) as (Hrw & Hrh & _).
  destruct (crop_box_geometry w h rw rh Hw Hh Hrw Hrh)
    as (box & Hbox & _ & _ & Hfw & Hfh & Hwide & Hnarrow).
  destruct (Qlt_le_dec (inject_Z rw / inject_Z rh) (inject_Z w / inject_Z h))
    as [Hlt|Hle].
  - destruct (Hwide Hlt) as [Ech Ecw].
    eexists box, _, h. split; [exact Hbox|]. split; [exact Ecw|].
    split; [now rewrite Ech|].
    assert (Hev : Z.even (2 * Qfloor
                    (inject_Z h * inject_Z rw / inject_Z rh / 2)) = true)
      by (rewrite Z.even_mul; reflexivity).
    split; [rewrite Zle_Qle, <- Ecw; exact Hfw|].
    split; [lia|]. split; [right; split; [reflexivity|exact Hev]|].
    intros _ Heh. split; [exact Hev|exact Heh].
  - destruct (Hnarrow Hle) as [Ecw Ech].
    eexists box, w, _. split; [exact Hbox|].
    split; [now rewrite Ecw|]. split; [exact Ech|].
    assert (Hev : Z.even (2 * Qfloor
                    (inject_Z w * inject_Z rh / inject_Z rw / 2)) = true)
      by (rewrite Z.even_mul; reflexivity).
    split; [lia|].
    split; [rewrite Zle_Qle, <- Ech; exact Hfh|].
    split; [left; split; [reflexivity|exact Hev]|].
    intros Hew _. split; [exact Hew|exact Hev].
Qed.

Lemma crop_dims_fit_witness :
  exists box cw ch,
    crop_box (Num 9) (Num 16) 1920 1080 = Some box /\
    crop_w box == inject_Z cw /\ crop_h box == inject_Z ch /\
    (cw <= 1920)%Z /\ (ch <= 1080)%Z /\
    Z.even cw = true /\ Z.even ch = true.
Proof.
  assert (Hw : (0 < 1920)%Z) by lia.
  assert (Hh : (0 < 1080)%Z) by lia.
  assert (Hin : In ("9:16", (9, 16)%Z) supported_ratios) by (left; reflexivity).
  destruct (crop_dims_fit 1920 1080 9 16 "9:16" Hw Hh Hin)
    as (box & cw & ch & Hbox & Ew & Eh & Lw & Lh & _ & Hev).
  exists box, cw, ch. repeat (split; [assumption|]).
  apply Hev; reflexivity.
Defined.

Example crop_1920_1080_to_9_16 :
  crop_box (Num 9) (Num 16) 1920 1080 =
  Some (mkCropBox 606 1080 (1314 # 2) (0 # 2)).
Proof. vm_compute. reflexivity. Qed.

Lemma push_crop_supported edits name rw rh filters :
  aspectRatio edits = Some name ->
  In (name, (rw, rh)) supported_ratios ->
  push_crop edits filters =
  push filters (crop_entry (Num (inject_Z rw)) (Num (inject_Z rh))).
Proof.
  intros Har Hin.
  destruct (supported_ratio_parsed _ _ _ Hin) as (_ & _ & Hparse & Hwant).
  unfold push_crop, wants_crop. rewrite Har, Hwant, Hparse. reflexivity.
Qed.

Lemma push_crop_original edits filters :
  aspectRatio edits = Some "original" -> push_crop edits filters = filters.
Proof.
  intros Har. unfold push_crop, wants_crop. rewrite Har. reflexivity.
Qed.

(** C3. The example above [buildFFmpegFilters]: a source of 1920 by 1080
    pixels cut to 9:16.  The chain [buildFFmpegFilters] returns is the one
    crop entry, the text of the four crop expressions.  On that source they
    keep the full height, 1080, and give the width 606 with the offsets 657
    and 0: the width is [1080 * 9/16 = 607.5] rounded down to an even
    integer.  [round_even] of 607.5 is 608, and the offset that centres a
    width of 608 is 656, as the example has them. *)
Theorem crop_1920_1080_rounds_down :
  buildFFmpegFilters edits_portrait =
  Normal ["crop=" ++ show_Expr (cropW_expr (Num 9) (Num 16)) ++ ":" ++
          show_Expr (cropH_expr (Num 9) (Num 16)) ++ ":" ++
          show_Expr cropX_expr ++ ":" ++ show_Expr cropY_expr] /\
  (exists box,
      crop_box (Num 9) (Num 16) 1920 1080 = Some box /\
      crop_w box == 606 /\ crop_h box == 1080 /\
      crop_x box == 657 /\ crop_y box == 0) /\
  is_even_floor (1080 * 9 / 16) 606 /\
  round_even (1080 * 9 / 16) = 608%Z /\
  (1920 - inject_Z (round_even (1080 * 9 / 16))) / 2 == 656.
Proof.
  split; [vm_compute; reflexivity|].
  split.
  { eexists. split; [vm_compute; reflexivity|].
    cbn [crop_w crop_h crop_x crop_y]. repeat split; reflexivity. }
  split.
  { split; [reflexivity|]. split; [discriminate|reflexivity]. }
  split; reflexivity.
Qed.

(** ** The time range *)

Lemma append_empty_r (s : string) : s ++ "" = s.
Proof. induction s as [|c s IH]; simpl; [reflexivity|now rewrite IH]. Qed.

Lemma length_append (a b : string) :
  String.length (a ++ b) = (String.length a + String.length b)%nat.
Proof. induction a as [|c a IH]; simpl; [reflexivity|now rewrite IH]. Qed.

Lemma length_repeat_char c n : String.length (repeat_char c n) = n.
Proof. induction n as [|n IH]; simpl; [reflexivity|now rewrite IH]. Qed.

Lemma padStart_length n c s : (n <= String.length (padStart n c s))%nat.
Proof.
  unfold padStart. rewrite length_append, length_repeat_char. lia.
Qed.

Lemma digits_fixed_length k n : String.length (digits_fixed k n) = k.
Proof.
  revert n. induction k as [|k IH]; intros n; simpl; [reflexivity|].
  rewrite length_append, IH. simpl. lia.
Qed.

Lemma show_number_nat z : (0 <= z)%Z -> show_number (inject_Z z) = show_nat z.
Proof.
  intros Hz. unfold show_number, inject_Z. cbn [Qnum Qden].
  destruct (Z.ltb_spec z 0) as [Hneg|_]; [lia|].
  rewrite Z.abs_eq, Z.div_1_r, Z.mod_1_r by assumption.
  simpl. apply append_empty_r.
Qed.

Lemma pad2_two_digits m :
  (0 <= m < 100)%Z -> padStart 2 "0" (show_nat m) = digits_fixed 2 m.
Proof.
  intros Hm. rewrite <- (Z2Nat.id m) by lia.
  assert (Hn : (Z.to_nat m < 100)%nat) by lia.
  generalize dependent (Z.to_nat m). intros n Hn.
  do 100 (destruct n as [|n]; [vm_compute; reflexivity|]). lia.
Qed.

Lemma pad6_seconds i a b c :
  (0 <= i < 100)%Z ->
  padStart 6 "0" (show_nat i ++ String "." (String a (String b (str c)))) =
  digits_fixed 2 i ++ String "." (String a (String b (str c))).
Proof.
  intros Hi. rewrite <- (Z2Nat.id i) by lia.
  assert (Hn : (Z.to_nat i < 100)%nat) by lia.
  generalize dependent (Z.to_nat i). intros n Hn.
  do 100 (destruct n as [|n]; [vm_compute; reflexivity|]). lia.
Qed.

Lemma digits_fixed_3 k :
  digits_fixed 3 k =
  String (digit (k / 10 / 10 mod 10))
    (String (digit (k / 10 mod 10)) (str (digit (k mod 10)))).
Proof. reflexivity. Qed.

Lemma Qfloor_unique x k :
  inject_Z k <= x -> x < inject_Z k + 1 -> Qfloor x = k.
Proof.
  intros Hlo Hhi.
  pose proof (Qfloor_le x) as H1. pose proof (Qlt_floor x) as H2.
  assert (Ha : inject_Z (Qfloor x) < inject_Z (k + 1)).
  { rewrite inject_Z_plus. eapply Qle_lt_trans; eassumption. }
  assert (Hb : inject_Z k < inject_Z (Qfloor x + 1)).
  { eapply Qle_lt_trans; eassumption. }
  rewrite <- Zlt_Qlt in Ha, Hb. lia.
Qed.

Lemma js_rem_nonneg s b :
  0 <= s / b -> js_rem s b = s - b * inject_Z (Qfloor (s / b)).
Proof. intros H. unfold js_rem. now rewrite Qtrunc_nonneg. Qed.

Lemma floor_bounds x :
  inject_Z (Qfloor x) <= x /\ x < inject_Z (Qfloor x) + 1.
Proof.
  split; [apply Qfloor_le|].
  pose proof (Qlt_floor x) as H. now rewrite inject_Z_plus in H.
Qed.

Lemma inject_Z_lt_inv a b : inject_Z a < inject_Z b + 1 -> (a <= b)%Z.
Proof.
  intros H. change 1 with (inject_Z 1) in H.
  rewrite <- inject_Z_plus, <- Zlt_Qlt in H. lia.
Qed.

Lemma secondsToFFmpeg_format s :
  0 <= s -> written_fields s (secondsToFFmpeg s).
Proof.
  intros Hs. unfold secondsToFFmpeg, Math_floor.
  assert (H3600 : 0 <= s / 3600)
    by (change (s / 3600) with (s * (1 # 3600)); lra).
  assert (H60 : 0 <= s / 60) by (change (s / 60) with (s * (1 # 60)); lra).
  rewrite (js_rem_nonneg s 3600 H3600), (js_rem_nonneg s 60 H60).
  set (hh := Qfloor (s / 3600)).
  set (r1 := s - 3600 * inject_Z hh).
  set (mm := Qfloor (r1 / 60)).
  set (q60 := Qfloor (s / 60)).
  set (r := s - 60 * inject_Z q60).
  destruct (floor_bounds (s / 3600)) as [Hh1 Hh2]. fold hh in Hh1, Hh2.
  destruct (floor_bounds (r1 / 60)) as [Hm1 Hm2]. fold mm in Hm1, Hm2.
  destruct (floor_bounds (s / 60)) as [Hq1 Hq2]. fold q60 in Hq1, Hq2.
  change (s / 3600) with (s * (1 # 3600)) in Hh1, Hh2.
  change (r1 / 60) with (r1 * (1 # 60)) in Hm1, Hm2.
  change (s / 60) with (s * (1 # 60)) in Hq1, Hq2.
  assert (Hhh : (0 <= hh)%Z).
  { apply inject_Z_lt_inv. change (inject_Z 0) with 0. lra. }
  assert (Hmm : (0 <= mm < 60)%Z).
  { split.
    - apply inject_Z_lt_inv. change (inject_Z 0) with 0. unfold r1 in *. lra.
    - assert (inject_Z mm < inject_Z 59 + 1); [|apply inject_Z_lt_inv in H; lia].
      change (inject_Z 59) with 59. unfold r1 in *. lra. }
  assert (Hq : q60 = (60 * hh + mm)%Z).
  { apply Qfloor_unique; rewrite inject_Z_plus, inject_Z_mult;
      change (inject_Z 60) with 60; change (s / 60) with (s * (1 # 60));
      unfold r1 in *; lra. }
  assert (Hr : 0 <= r /\ r < 60) by (unfold r; split; lra).
  destruct Hr as [Hr0 Hr60].
  unfold toFixed.
  assert (Hsign : Qle_bool 0 r = true) by now apply Qle_bool_iff.
  rewrite Hsign.
  change (inject_Z (10 ^ Z.of_nat 3)) with 1000.
  change (10 ^ Z.of_nat 3)%Z with 1000%Z.
  set (n := Qfloor (Qabs r * 1000 + (1 # 2))).
  destruct (floor_bounds (Qabs r * 1000 + (1 # 2))) as [Hn1 Hn2].
  fold n in Hn1, Hn2. rewrite (Qabs_pos r Hr0) in Hn1, Hn2.
  assert (Hn : (0 <= n <= 60000)%Z).
  { split.
    - apply inject_Z_lt_inv. change (inject_Z 0) with 0. lra.
    - assert (inject_Z n < inject_Z 60000 + 1);
        [|apply inject_Z_lt_inv in H; lia].
      change (inject_Z 60000) with 60000. lra. }
  assert (Hss : (0 <= n / 1000 <= 60)%Z).
  { split; [apply Z.div_pos; lia|apply Z.div_le_upper_bound; lia]. }
  assert (Hms : (0 <= n mod 1000 < 1000)%Z) by (apply Z.mod_pos_bound; lia).
  exists hh, mm, (n / 1000)%Z, (n mod 1000)%Z.
  split.
  { rewrite !show_number_nat by lia.
    rewrite (pad2_two_digits mm) by lia.
    cbn [append]. rewrite digits_fixed_3, pad6_seconds by lia.
    reflexivity. }
  split; [apply padStart_length|].
  split; [exact Hhh|]. split; [exact Hmm|].
  split; [exact Hss|]. split; [exact Hms|].
  apply Qabs_Qle_condition.
  assert (Hnq : inject_Z n ==
                1000 * inject_Z (n / 1000) + inject_Z (n mod 1000)).
  { change 1000 with (inject_Z 1000).
    rewrite <- inject_Z_mult, <- inject_Z_plus.
    rewrite <- Z.div_mod by lia. reflexivity. }
  assert (Hsum : inject_Z (3600 * hh + 60 * mm + n / 1000) ==
                 3600 * inject_Z hh + 60 * inject_Z mm + inject_Z (n / 1000)).
  { rewrite !inject_Z_plus, !inject_Z_mult. reflexivity. }
  assert (Hs60 : s == r + 60 * (60 * inject_Z hh + inject_Z mm)).
  { unfold r. rewrite Hq, inject_Z_plus, inject_Z_mult.
    change (inject_Z 60) with 60. ring. }
  rewrite Hsum.
  change (inject_Z (n mod 1000) / 1000)
    with (inject_Z (n mod 1000) * (1 # 1000)).
  split; lra.
Qed.

Lemma build_cmd_ignores_trim src out c e a b :
  build_cmd src out c (Some (set_trim e a b)) = build_cmd src out c (Some e).
Proof. reflexivity. Qed.

Example moment_45_90_times :
  secondsToFFmpeg (startTime moment_45_90) = "00:00:45.000" /\
  secondsToFFmpeg (endTime moment_45_90 - startTime moment_45_90) =
  "00:00:45.000".
Proof. split; vm_compute; reflexivity. Qed.

Example time_with_hours :
  secondsToFFmpeg (3725 + (1 # 8)) = "01:02:05.125".
Proof. vm_compute. reflexivity. Qed.

(** ** The handler *)

Lemma truthy_string_nonempty s : s <> "" -> truthy_string s = true.
Proof. destruct s; [congruence|reflexivity]. Qed.

Lemma export_clip_missing rt req :
  sourceFile req = None \/ sourceFile req = Some "" \/ clip req = None ->
  export_clip rt req = ([], MissingParams).
Proof.
  unfold export_clip. intros [H|[H|H]]; rewrite H.
  - reflexivity.
  - destruct (clip req); reflexivity.
  - destruct (sourceFile req); reflexivity.
Qed.

Lemma export_clip_not_found rt req sf c :
  sourceFile req = Some sf -> sf <> "" -> clip req = Some c ->
  fs_existsSync rt (resolved_source rt sf) = false ->
  export_clip rt req =
  ([], SourceNotFound ("Expected at: " ++ resolved_source rt sf)).
Proof.
  intros Hsf Hne Hc Hex. unfold export_clip, resolved_source in *.
  rewrite Hsf, Hc, (truthy_string_nonempty _ Hne), Hex. reflexivity.
Qed.

Lemma export_clip_accepted rt req sf c :
  accepted rt req sf c ->
  export_clip rt req =
  match build_cmd (resolved_source rt sf) (out_path rt) c (edits req) with
  | Throw e => ([], ExportFailed e)
  | Normal cmd =>
      ([exec cmd 120000],
       match execAsync_outcome rt cmd with
       | Some msg => ExportFailed (ProcessError msg)
       | None => Exported (out_name rt) ("/exports/" ++ out_name rt)
                   (out_path rt)
       end)
  end.
Proof.
  intros (Hsf & Hne & Hc & Hex).
  unfold export_clip, resolved_source, out_path, out_name in *.
  rewrite Hsf, Hc, (truthy_string_nonempty _ Hne), Hex. cbn [negb].
  destruct (build_cmd _ _ c (edits req)) as [cmd|e]; [|reflexivity].
  destruct (execAsync_outcome rt cmd); reflexivity.
Qed.

Lemma build_cmd_args src out c edits filters :
  buildFFmpegFilters (edits_or_empty edits) = Normal filters ->
  build_cmd src out c edits =
  Normal (join " " (input_args src c ++ vf_args filters ++
                    af_args (audio_speed edits) ++ output_args out)%list).
Proof.
  intros Hf. unfold build_cmd. rewrite Hf. cbn [bind].
  now rewrite cmd_args.
Qed.

Lemma push_overlays_no_text ts filters :
  Exists (fun t => t_text t = None) ts ->
  push_overlays ts filters = Throw (TypeError "replace").
Proof.
  intros Hex. revert filters.
  induction ts as [|t ts IH]; intros filters; [inversion Hex|].
  simpl. unfold drawtext_entry at 1.
  destruct (t_text t) as [text|] eqn:Ht; [|reflexivity].
  cbn [bind]. apply IH. inversion Hex; subst; [congruence|assumption].
Qed.

Lemma buildFFmpegFilters_no_text e :
  Exists (fun t => t_text t = None) (overlays_of e) ->
  buildFFmpegFilters e = Throw (TypeError "replace").
Proof.
  intros Hex. rewrite buildFFmpegFilters_loop.
  now apply push_overlays_no_text.
Qed.

Lemma accepted_started rt req sf c :
  accepted rt req sf c ->
  Forall has_text (overlays_of (edits_or_empty (edits req))) ->
  exists filters,
    buildFFmpegFilters (edits_or_empty (edits req)) = Normal filters /\
    fst (export_clip rt req) =
    [exec (join " " (input_args (resolved_source rt sf) c ++
                     vf_args filters ++
                     af_args (audio_speed (edits req)) ++
                     output_args (out_path rt))%list)
          120000].
Proof.
  intros Hadm Htext.
  destruct (buildFFmpegFilters_parts _ Htext) as (texts & Hbuild & _).
  eexists. split; [exact Hbuild|].
  rewrite (export_clip_accepted rt req sf c Hadm).
  rewrite (build_cmd_args _ _ _ _ _ Hbuild). reflexivity.
Qed.

(** C6. The moment from 59.9996 s to 1:30.  The handler starts ffmpeg with
    the seek [-ss 00:00:60.000] and the duration [-t 00:00:30.000]: the
    seconds of the start, rounded to three decimals, read 60.000 and the
    minute is not carried, so this seek is no [HH:MM:SS.mmm] time.  The start
    in that form is [00:01:00.000]. *)
Theorem seek_59_9996_reads_60 :
  fst (export_clip rt_all_present req_late_second) =
  [exec (join " "
           (List.app
              [ "ffmpeg -y";
                "-ss 00:00:60.000";
                "-i " ++ str dquote ++ "/srv/temp_videos/abc.mp4" ++
                str dquote;
                "-t 00:00:30.000" ]
              (output_args "/srv/exports/clip_1714000000000.mp4")))
        120000] /\
  secondsToFFmpeg (startTime moment_late_second) = "00:00:60.000" /\
  ~ ffmpeg_time (startTime moment_late_second) "00:00:60.000" /\
  ffmpeg_time (startTime moment_late_second) "00:01:00.000".
Proof.
  split; [vm_compute; reflexivity|].
  split; [vm_compute; reflexivity|].
  cbn [startTime moment_late_second]. split.
  - intros (hh & mm & ss & ms & Htext & _ & Hhh & Hmm & Hss & Hms & Habs).
    apply Qabs_Qle_condition in Habs as [Hlo Hhi].
    set (a := (3600 * hh + 60 * mm + ss)%Z) in *.
    assert (E : inject_Z (1000 * a + ms) == 1000 * inject_Z a + inject_Z ms).
    { rewrite inject_Z_plus, inject_Z_mult. reflexivity. }
    change (inject_Z ms / 1000) with (inject_Z ms * (1 # 1000)) in Hlo, Hhi.
    assert (H1 : inject_Z (1000 * a + ms) < inject_Z 60000 + 1).
    { rewrite E. change (inject_Z 60000) with 60000. lra. }
    assert (H2 : inject_Z 60000 < inject_Z (1000 * a + ms) + 1).
    { rewrite E. change (inject_Z 60000) with 60000. lra. }
    apply inject_Z_lt_inv in H1, H2. unfold a in H1, H2.
    assert (Hf : hh = 0%Z /\ mm = 1%Z /\ ss = 0%Z /\ ms = 0%Z) by lia.
    destruct Hf as (-> & -> & -> & ->).
    vm_compute in Htext. discriminate.
  - exists 0%Z, 1%Z, 0%Z, 0%Z.
    split; [vm_compute; reflexivity|].
    split; [vm_compute; lia|].
    repeat (split; [lia|]).
    apply Qabs_Qle_condition. split; vm_compute; discriminate.
Qed.

(** C9, as stated, fails: a request whose brightness is 5 is not turned
    down; ffmpeg is started on it. *)
Lemma brightness_5_is_rendered : ~ rejects_invalid rt_all_present req_too_bright.
Proof.
  intros Hclaim.
  destruct (Hclaim edits_too_bright eq_refl) as [Hnone _].
  - left. exists 5. split; [reflexivity|right; reflexivity].
  - vm_compute in Hnone. discriminate.
Qed.

(** C9, amended. The handler checks the request, not the edit
    specification.  A request without [sourceFile] or [clip] is answered 400
    and one whose source file is not there 422, both before any process is
    started.  Every other request goes to ffmpeg with its edit
    specification as it is, whatever the numbers, the aspect ratio and the
    overlay texts, the empty text included; only an overlay with no text at
    all stops it before the process, as the 500 of a [TypeError]. *)
Theorem export_validates_request_only (rt : Runtime) (req : Request) :
  (sourceFile req = None \/ sourceFile req = Some "" \/ clip req = None ->
   export_clip rt req = ([], MissingParams)) /\
  (forall sf c,
      sourceFile req = Some sf -> sf <> "" -> clip req = Some c ->
      fs_existsSync rt (resolved_source rt sf) = false ->
      export_clip rt req =
      ([], SourceNotFound ("Expected at: " ++ resolved_source rt sf))) /\
  (forall sf c,
      accepted rt req sf c ->
      Forall has_text (overlays_of (edits_or_empty (edits req))) ->
      exists cmd,
        build_cmd (resolved_source rt sf) (out_path rt) c (edits req) =
        Normal cmd /\
        fst (export_clip rt req) = [exec cmd 120000]) /\
  (forall sf c,
      accepted rt req sf c ->
      Exists (fun t => t_text t = None)
        (overlays_of (edits_or_empty (edits req))) ->
      export_clip rt req = ([], ExportFailed (TypeError "replace"))).
Proof.
  split; [apply export_clip_missing|].
  split; [intros; now apply export_clip_not_found with (c := c)|].
  split.
  - intros sf c Hadm Htext.
    destruct (accepted_started rt req sf c Hadm Htext)
      as (filters & Hbuild & Hlog).
    eexists. split; [apply build_cmd_args; exact Hbuild|exact Hlog].
  - intros sf c Hadm Hex.
    rewrite (export_clip_accepted rt req sf c Hadm).
    unfold build_cmd. now rewrite (buildFFmpegFilters_no_text _ Hex).
Qed.

Lemma export_validates_request_only_witness :
  invalid_edits edits_too_bright /\
  exists cmd, fst (export_clip rt_all_present req_too_bright) =
              [exec cmd 120000].
Proof.
  split.
  { left. exists 5. split; [reflexivity|right; reflexivity]. }
  destruct (export_validates_request_only rt_all_present req_too_bright)
    as (_ & _ & Hstart & _).
  destruct (Hstart "abc.mp4" (mkClip 45 90)) as (cmd & _ & Hlog).
  - repeat split. discriminate.
  - constructor.
  - exists cmd. exact Hlog.
Defined.

(** ** The command and the shell *)

Lemma drawtext_entry_of ts entries t :
  Forall2 (fun t entry => drawtext_entry t = Normal entry) ts entries ->
  In t ts ->
  exists entry, drawtext_entry t = Normal entry /\ In entry entries.
Proof.
  induction 1 as [|t' entry ts entries Hentry _ IH]; [intros []|].
  intros [<-|Hin].
  - exists entry. split; [exact Hentry|now left].
  - destruct (IH Hin) as (entry' & He & Hi).
    exists entry'. split; [exact He|now right].
Qed.

Lemma overlay_text_in_chain edits filters t text :
  buildFFmpegFilters edits = Normal filters ->
  In t (overlays_of edits) -> t_text t = Some text ->
  exists rest,
    In ("drawtext=text='" ++ escape_each text ++ "':fontsize=" ++ rest)
       filters.
Proof.
  intros Hbuild Hin Ht.
  apply buildFFmpegFilters_texts in Hbuild as (texts & -> & HF).
  destruct (drawtext_entry_of _ _ _ HF Hin) as (entry & Hentry & Hi).
  rewrite (drawtext_entry_text t text Ht), escapeText_each in Hentry.
  injection Hentry as <-. eexists.
  apply in_or_app. right. apply in_or_app. right. apply in_or_app. right.
  exact Hi.
Qed.

(** C8, as stated, fails: the engine is started through [exec], on one
    command line for the shell, not on an argument vector. *)
Lemma engine_started_through_shell :
  ~ uses_argument_vector rt_all_present req_too_bright.
Proof.
  intros Hclaim.
  destruct (Hclaim (exec
    (join " " (filter_Boolean
       (cmd_array "/srv/temp_videos/abc.mp4"
          "/srv/exports/clip_1714000000000.mp4" (mkClip 45 90)
          ["eq=brightness=5"] 1)))
    120000)) as (file & args & timeout & Hcall).
  - left. vm_compute. reflexivity.
  - discriminate.
Qed.

(** C8, amended. For every render request that reaches the engine, the
    command is one string, its non-empty parts joined by spaces, handed to a
    shell by [exec] with a timeout of 120 s; the source path, the output path
    and the filter chain stand between double quotes in it.  The text of
    every overlay stands in that chain between single quotes, after the
    escaping of backslash, quote and colon. *)
Theorem engine_command_line (rt : Runtime) (req : Request) (sf : string)
  (c : Clip) :
  accepted rt req sf c ->
  Forall has_text (overlays_of (edits_or_empty (edits req))) ->
  exists filters,
    buildFFmpegFilters (edits_or_empty (edits req)) = Normal filters /\
    fst (export_clip rt req) =
    [exec (join " " (input_args (resolved_source rt sf) c ++
                     vf_args filters ++
                     af_args (audio_speed (edits req)) ++
                     output_args (out_path rt))%list)
          120000] /\
    forall t text,
      In t (overlays_of (edits_or_empty (edits req))) ->
      t_text t = Some text ->
      exists rest,
        In ("drawtext=text='" ++ escape_each text ++ "':fontsize=" ++ rest)
           filters.
Proof.
  intros Hadm Htext.
  destruct (accepted_started rt req sf c Hadm Htext)
    as (filters & Hbuild & Hlog).
  exists filters. split; [exact Hbuild|]. split; [exact Hlog|].
  intros t text. now apply overlay_text_in_chain.
Qed.

Lemma engine_command_line_witness :
  fst (export_clip rt_all_present req_caption) =
  [exec ("ffmpeg -y -ss 00:00:00.000 -i " ++ str dquote ++
         "/srv/temp_videos/abc.mp4" ++ str dquote ++
         " -t 00:00:10.000 -vf " ++ str dquote ++
         "drawtext=text='Hi\: there':fontsize=36:fontcolor=0xFFFFFF" ++
         ":x=(w-text_w)/2:y=h*0.85:enable='between(t,1,3)'" ++
         str dquote ++
         " -c:v libx264 -preset fast -crf 22 -c:a aac -b:a 128k" ++
         " -movflags +faststart " ++ str dquote ++
         "/srv/exports/clip_1714000000000.mp4" ++ str dquote)
        120000].
Proof.
  destruct (engine_command_line rt_all_present req_caption "abc.mp4"
              (mkClip 0 10)) as (filters & Hbuild & Hlog & _).
  - repeat split. discriminate.
  - repeat constructor. discriminate.
  - rewrite Hlog. injection Hbuild as <-. vm_compute. reflexivity.
Defined.

(** ** The scenario of the specification, end to end *)

Example scenario_chain :
  buildFFmpegFilters edits_scenario =
  Normal
    [ crop_entry (Num 9) (Num 16);
      "setpts=0.666667*PTS";
      "drawtext=text='Hi\: there':fontsize=36:fontcolor=0xFFFFFF" ++
      ":x=(w-text_w)/2:y=h*0.85:enable='between(t,1,3)'" ] /\
  af_args (audio_speed (Some edits_scenario)) =
  ["-af " ++ str dquote ++ "atempo=1.5" ++ str dquote].
Proof. split; vm_compute; reflexivity. Qed.

(** * The rest of the server and of the client library: properties *)

(** ** [sanitizeId] *)

Lemma substring_0_length n s :
  String.length (substring 0 n s) = Nat.min n (String.length s).
Proof.
  revert s. induction n as [|n IH]; intros [|c s]; simpl; auto.
Qed.

Lemma substring_0_all_chars p n s :
  all_chars p s = true -> all_chars p (substring 0 n s) = true.
Proof.
  revert s. induction n as [|n IH]; intros [|c s]; simpl; auto.
  intros H. apply andb_true_iff in H as [Hc Hs].
  rewrite Hc. now apply IH.
Qed.

Lemma substring_0_short n s :
  (String.length s <= n)%nat -> substring 0 n s = s.
Proof.
  revert s. induction n as [|n IH]; intros [|c s]; simpl; auto.
  - lia.
  - intros H. f_equal. apply IH. lia.
Qed.

Lemma replace_unsafe_all_safe s :
  all_chars is_id_char
    (replace_class (fun c => negb (is_id_char c)) "_" s) = true.
Proof.
  induction s as [|c s IH]; [reflexivity|]. simpl.
  destruct (is_id_char c) eqn:E; simpl; [rewrite E|]; exact IH.
Qed.

Lemma replace_unsafe_length s :
  String.length (replace_class (fun c => negb (is_id_char c)) "_" s) =
  String.length s.
Proof.
  induction s as [|c s IH]; [reflexivity|]. simpl.
  destruct (is_id_char c); simpl; now rewrite IH.
Qed.

Lemma replace_unsafe_safe s :
  all_chars is_id_char s = true ->
  replace_class (fun c => negb (is_id_char c)) "_" s = s.
Proof.
  induction s as [|c s IH]; [reflexivity|]. simpl.
  intros H. apply andb_true_iff in H as [Hc Hs].
  rewrite Hc. simpl. now rewrite IH.
Qed.

Lemma sanitizeId_bounds s :
  all_chars is_id_char (sanitizeId s) = true /\
  String.length (sanitizeId s) = Nat.min 40 (String.length s).
Proof.
  unfold sanitizeId. split.
  - apply substring_0_all_chars, replace_unsafe_all_safe.
  - now rewrite substring_0_length, replace_unsafe_length.
Qed.

(** X1. Whatever the string, [sanitizeId] returns at most 40 characters,
    each of them a letter, a digit, an underscore or a hyphen; its length
    is that of the input cut at 40. *)
Theorem sanitizeId_safe (s : string) :
  all_chars is_id_char (sanitizeId s) = true /\
  String.length (sanitizeId s) = Nat.min 40 (String.length s) /\
  (String.length (sanitizeId s) <= 40)%nat.
Proof.
  destruct (sanitizeId_bounds s) as [Hsafe Hlen].
  repeat split; try assumption. rewrite Hlen. lia.
Qed.

(** X2. [sanitizeId] changes nothing in a string it could have returned: it
    is the identity exactly on the strings of at most 40 characters of the
    class, and applying it twice is applying it once. *)
Theorem sanitizeId_idempotent (s : string) :
  sanitizeId (sanitizeId s) = sanitizeId s /\
  (sanitizeId s = s <->
   all_chars is_id_char s = true /\ (String.length s <= 40)%nat).
Proof.
  assert (Hfix : forall t, all_chars is_id_char t = true ->
                           (String.length t <= 40)%nat -> sanitizeId t = t).
  { intros t Hsafe Hlen. unfold sanitizeId.
    rewrite replace_unsafe_safe by assumption.
    now apply substring_0_short. }
  destruct (sanitizeId_bounds s) as (Hsafe & Hlen).
  split; [apply Hfix; [assumption|rewrite Hlen; lia]|]. split.
  - intros E. rewrite <- E. split; [assumption|rewrite Hlen; lia].
  - intros [H1 H2]. now apply Hfix.
Qed.

(** ** The download handler *)

Lemma download_cases rt req :
  download rt req = ([], DownloadMissing) \/
  exists url videoId,
    dl_url req = Some url /\ dl_videoId req = Some videoId /\
    let fileName := sanitizeId videoId ++ ".mp4" in
    let outputPath := path_join rt (TEMP_DIR rt) fileName in
    let ok := Downloaded outputPath fileName ("/videos/" ++ fileName) in
    let call := exec (download_cmd outputPath url) 300000 in
    (fs_existsSync rt outputPath = true /\ download rt req = ([], ok)) \/
    (fs_existsSync rt outputPath = false /\
     (download rt req = ([call], ok) \/
      exists msg, download rt req = ([call], DownloadFailed msg))).
Proof.
  unfold download.
  destruct (dl_url req) as [url|]; [|now left].
  destruct (dl_videoId req) as [videoId|]; [|now left].
  destruct (negb (truthy_string url) || negb (truthy_string videoId));
    [now left|].
  right. exists url, videoId. split; [reflexivity|]. split; [reflexivity|].
  cbv zeta.
  destruct (fs_existsSync rt _) eqn:Hex; [left; split; reflexivity|].
  right. split; [reflexivity|].
  destruct (execAsync_outcome rt _) as [msg|].
  - right. exists msg. reflexivity.
  - left. reflexivity.
Qed.

(** X3. Whatever [videoId] a download request carries, the file it reports
    is named by at most 40 characters of the class [a-zA-Z0-9_-] followed by
    [.mp4], directly under the directory of the source videos: no slash or
    dot of the request reaches the path.  At most one process is started,
    and none when the file is already there. *)
Theorem download_path_is_sanitized (rt : Runtime) (req : DownloadRequest)
  (filePath fileName url : string) :
  snd (download rt req) = Downloaded filePath fileName url ->
  (exists safeId,
      fileName = safeId ++ ".mp4" /\
      all_chars is_id_char safeId = true /\
      (String.length safeId <= 40)%nat /\
      url = "/videos/" ++ fileName) /\
  filePath = path_join rt (TEMP_DIR rt) fileName /\
  (fs_existsSync rt filePath = true -> fst (download rt req) = []) /\
  (length (fst (download rt req)) <= 1)%nat.
Proof.
  intros Hok.
  destruct (download_cases rt req) as [E|(u & v & _ & _ & Hcase)].
  { rewrite E in Hok. discriminate. }
  cbv zeta in Hcase.
  assert (Hresp : Downloaded
            (path_join rt (TEMP_DIR rt) (sanitizeId v ++ ".mp4"))
            (sanitizeId v ++ ".mp4")
            ("/videos/" ++ sanitizeId v ++ ".mp4") =
          Downloaded filePath fileName url).
  { destruct Hcase as [[_ E]|[_ [E|[msg E]]]]; rewrite E in Hok;
      try exact Hok; discriminate. }
  injection Hresp as <- <- <-.
  destruct (sanitizeId_bounds v) as [Hsafe Hlen].
  split.
  { exists (sanitizeId v). repeat split; try assumption.
    rewrite Hlen. lia. }
  split; [reflexivity|]. split.
  - intros Hex.
    destruct Hcase as [[_ E]|[Hno _]]; [now rewrite E|congruence].
  - destruct Hcase as [[_ E]|[_ [E|[msg E]]]]; rewrite E; simpl; lia.
Qed.

Lemma download_path_is_sanitized_witness :
  snd (download rt_nothing_yet req_traversal) =
  Downloaded "/srv/temp_videos/______etc_passwd.mp4" "______etc_passwd.mp4"
    "/videos/______etc_passwd.mp4" /\
  (length (fst (download rt_nothing_yet req_traversal)) <= 1)%nat.
Proof.
  assert (H : snd (download rt_nothing_yet req_traversal) =
              Downloaded "/srv/temp_videos/______etc_passwd.mp4"
                "______etc_passwd.mp4" "/videos/______etc_passwd.mp4")
    by reflexivity.
  split; [exact H|].
  exact (proj2 (proj2 (proj2
    (download_path_is_sanitized rt_nothing_yet req_traversal _ _ _ H)))).
Defined.

(** X4. The file name a download reports, sent back as [sourceFile] of an
    export request to a server with the same directories, resolves to the
    very path the download reported, provided the base name of that file
    name is the name itself; once the file is there the export request
    passes both checks of the handler. *)
Theorem download_then_export (rt rt' : Runtime) (dreq : DownloadRequest)
  (filePath fileName url : string) (req : Request) (c : Clip) :
  snd (download rt dreq) = Downloaded filePath fileName url ->
  TEMP_DIR rt' = TEMP_DIR rt ->
  path_join rt' = path_join rt ->
  path_basename rt' fileName = fileName ->
  sourceFile req = Some fileName ->
  clip req = Some c ->
  resolved_source rt' fileName = filePath /\
  (fs_existsSync rt' filePath = true -> accepted rt' req fileName c) /\
  (fs_existsSync rt' filePath = false ->
   export_clip rt' req = ([], SourceNotFound ("Expected at: " ++ filePath))).
Proof.
  intros Hok Hdir Hjoin Hbase Hsf Hc.
  destruct (download_cases rt dreq) as [E|(u & v & _ & _ & Hcase)].
  { rewrite E in Hok. discriminate. }
  cbv zeta in Hcase.
  assert (Hresp : Downloaded
            (path_join rt (TEMP_DIR rt) (sanitizeId v ++ ".mp4"))
            (sanitizeId v ++ ".mp4")
            ("/videos/" ++ sanitizeId v ++ ".mp4") =
          Downloaded filePath fileName url).
  { destruct Hcase as [[_ E]|[_ [E|[msg E]]]]; rewrite E in Hok;
      try exact Hok; discriminate. }
  injection Hresp as <- <- <-.
  assert (Hres : resolved_source rt' (sanitizeId v ++ ".mp4") =
                 path_join rt (TEMP_DIR rt) (sanitizeId v ++ ".mp4")).
  { unfold resolved_source. now rewrite Hbase, Hdir, Hjoin. }
  assert (Hne : sanitizeId v ++ ".mp4" <> "").
  { destruct (sanitizeId v); discriminate. }
  split; [exact Hres|]. split.
  - intros Hex. unfold accepted. rewrite Hres. auto.
  - intros Hex. rewrite <- Hres.
    apply export_clip_not_found with (c := c); try assumption.
    now rewrite Hres.
Qed.

Lemma download_then_export_witness :
  accepted rt_all_present req_after_download "______etc_passwd.mp4"
    (mkClip 45 90).
Proof.
  refine (proj1 (proj2
    (download_then_export rt_nothing_yet rt_all_present req_traversal
       "/srv/temp_videos/______etc_passwd.mp4" "______etc_passwd.mp4"
       "/videos/______etc_passwd.mp4" req_after_download (mkClip 45 90)
       eq_refl eq_refl eq_refl eq_refl eq_refl eq_refl)) eq_refl).
Defined.

(** ** [parseVTT] *)

Lemma has_char_strip_from c b s :
  has_char c (strip_from b s) = true -> has_char c s = true.
Proof.
  revert b. induction s as [|a s IH]; intros b; [destruct b; auto|].
  simpl. destruct b.
  - intros H. apply IH in H. rewrite H. apply orb_true_r.
  - destruct (Ascii.eqb a "<" && tag_opens s).
    + intros H. apply IH in H. rewrite H. apply orb_true_r.
    + simpl. intros H. apply orb_true_iff in H as [H|H].
      * now rewrite H.
      * apply IH in H. rewrite H. apply orb_true_r.
Qed.

Lemma tag_opens_strip s :
  tag_opens s = false -> tag_opens (strip_from false s) = false.
Proof.
  destruct s as [|c s]; [reflexivity|].
  intros H. destruct (tag_opens (strip_from false (String c s))) eqn:E;
    [|reflexivity].
  exfalso. unfold tag_opens in H.
  destruct (Ascii.eqb c ">") eqn:Ec.
  - apply Ascii.eqb_eq in Ec. subst c. discriminate.
  - simpl in H.
    assert (Hgt : has_char ">" (strip_from false (String c s)) = true).
    { unfold tag_opens in E. destruct (strip_from false (String c s));
        [discriminate|]. now apply andb_true_iff in E. }
    apply has_char_strip_from in Hgt. simpl in Hgt. congruence.
Qed.

Lemma has_tag_strip_from b s : has_tag (strip_from b s) = false.
Proof.
  revert b. induction s as [|c s IH]; intros b; [destruct b; reflexivity|].
  simpl. destruct b; [apply IH|].
  destruct (Ascii.eqb c "<" && tag_opens s) eqn:E; [apply IH|].
  simpl. rewrite IH, orb_false_r.
  destruct (Ascii.eqb c "<"); [|reflexivity].
  simpl in E |- *. now apply tag_opens_strip.
Qed.

Lemma strip_from_no_tag s : has_tag s = false -> strip_from false s = s.
Proof.
  induction s as [|c s IH]; [reflexivity|].
  simpl. intros H. apply orb_false_iff in H as [H1 H2].
  rewrite H1. now rewrite IH.
Qed.

(** X5. Stripping the tags of a line leaves no tag behind: the result has
    no [<] that is followed by a character other than [>] and, further on,
    by a [>]; so stripping again changes nothing, and a line without such a
    [<] is returned as it is. *)
Theorem strip_tags_leaves_no_tag (line : string) :
  has_tag (strip_tags line) = false /\
  strip_tags (strip_tags line) = strip_tags line /\
  (has_tag line = false -> strip_tags line = line).
Proof.
  unfold strip_tags. split; [apply has_tag_strip_from|].
  split; [|apply strip_from_no_tag].
  apply strip_from_no_tag, has_tag_strip_from.
Qed.

Lemma trim_start_length s :
  (String.length (trim_start s) <= String.length s)%nat.
Proof.
  induction s as [|c s IH]; simpl; [lia|].
  destruct (is_space c); simpl; lia.
Qed.

Lemma trim_start_fixed_head c s :
  trim_start (String c s) = String c s -> is_space c = false.
Proof.
  simpl. destruct (is_space c); [|reflexivity].
  intros E. pose proof (trim_start_length s) as H.
  rewrite E in H. simpl in H. lia.
Qed.

Lemma trim_start_idem s : trim_start (trim_start s) = trim_start s.
Proof.
  induction s as [|c s IH]; [reflexivity|]. simpl.
  destruct (is_space c) eqn:E; [exact IH|]. simpl. now rewrite E.
Qed.

Lemma trim_end_idem s : trim_end (trim_end s) = trim_end s.
Proof.
  induction s as [|c s IH]; [reflexivity|]. simpl.
  destruct (trim_end s) as [|d r] eqn:E.
  - destruct (is_space c) eqn:Ec; [reflexivity|]. simpl. now rewrite Ec.
  - change (trim_end (String c (String d r)))
      with (match trim_end (String d r) with
            | EmptyString => if is_space c then EmptyString else str c
            | String x y => String c (String x y)
            end).
    rewrite IH. reflexivity.
Qed.

Lemma trim_end_keeps_head c s :
  is_space c = false -> exists r, trim_end (String c s) = String c r.
Proof.
  intros Hc. simpl. destruct (trim_end s) as [|d r].
  - rewrite Hc. now exists EmptyString.
  - now exists (String d r).
Qed.

Lemma trim_start_trim s : trim_start (trim s) = trim s.
Proof.
  unfold trim. pose proof (trim_start_idem s) as H.
  destruct (trim_start s) as [|c u]; [reflexivity|].
  apply trim_start_fixed_head in H as Hc.
  destruct (trim_end_keeps_head c u Hc) as [r ->].
  simpl. now rewrite Hc.
Qed.

Lemma trim_is_trimmed s :
  trim_start (trim s) = trim s /\ trim_end (trim s) = trim s.
Proof.
  split; [apply trim_start_trim|]. unfold trim. apply trim_end_idem.
Qed.

Lemma digit_not_newline c : is_digit c = true -> Ascii.eqb c newline = false.
Proof.
  destruct c as [[] [] [] [] [] [] [] []]; try reflexivity; discriminate.
Qed.

Lemma take_time_spec s t rest :
  take_time s = Some (t, rest) ->
  is_timestamp t /\ s = t ++ rest /\ has_char newline t = false.
Proof.
  unfold is_timestamp, take_time.
  do 12 (destruct s as [|? s]; [discriminate|]).
  match goal with |- context [if ?b then _ else _] => destruct b eqn:E end;
    [|discriminate].
  intros H. injection H as <- <-. cbn [substring].
  replace (substring 0 0 s) with EmptyString by (destruct s; reflexivity).
  rewrite E. split; [reflexivity|]. split; [reflexivity|].
  do 11 (apply andb_true_iff in E; destruct E as [E ?]).
  cbn [has_char].
  repeat match goal with
         | H : is_digit _ = true |- _ =>
             rewrite (digit_not_newline _ H); clear H
         | H : Ascii.eqb ?c _ = true |- _ =>
             apply Ascii.eqb_eq in H; subst c
         end.
  reflexivity.
Qed.

Lemma find_time_spec line t :
  find_time line = Some t -> is_timestamp t /\ has_char newline t = false.
Proof.
  induction line as [|c line IH].
  - simpl. discriminate.
  - cbn [find_time]. destruct (time_at (String c line)) as [t'|] eqn:E.
    + intros H. injection H as ->. unfold time_at in E.
      destruct (take_time (String c line)) as [[t0 rest]|] eqn:Et;
        [|discriminate].
      destruct (arrow_follows rest); [|discriminate]. injection E as ->.
      apply take_time_spec in Et as (H1 & _ & H2). now split.
    + exact IH.
Qed.

Lemma fold_left_invariant {A B : Type} (f : A -> B -> A) (P : A -> Prop)
  (l : list B) (a : A) :
  (forall a b, In b l -> P a -> P (f a b)) -> P a -> P (fold_left f l a).
Proof.
  revert a. induction l as [|b l IH]; intros a Hstep Ha; [exact Ha|].
  simpl. apply IH.
  - intros a' b' Hin. apply Hstep. now right.
  - apply Hstep; [now left|exact Ha].
Qed.

Lemma truthy_string_true s : truthy_string s = true -> s <> "".
Proof. destruct s; [discriminate|discriminate]. Qed.

Lemma vtt_line_keeps_cues lines (st : list string * string) line :
  In line lines ->
  Forall (cue_entry lines) (fst st) /\
  (snd st = "" \/
   exists timing, In timing lines /\ find_time timing = Some (snd st)) ->
  Forall (cue_entry lines) (fst (vtt_line st line)) /\
  (snd (vtt_line st line) = "" \/
   exists timing, In timing lines /\
                  find_time timing = Some (snd (vtt_line st line))).
Proof.
  destruct st as [result cur]. intros Hin [Hres Hcur]. unfold vtt_line.
  destruct (find_time line) as [t|] eqn:Ht.
  - split; [exact Hres|]. right. exists line. now split.
  - cbv zeta.
    destruct (truthy_string (trim (strip_tags line))) eqn:E1;
      [|split; assumption].
    destruct (truthy_string cur) eqn:E2; [|split; assumption].
    destruct (starts_with "WEBVTT" (trim (strip_tags line))) eqn:E3;
      [split; assumption|].
    destruct (starts_with "NOTE" (trim (strip_tags line))) eqn:E4;
      [split; assumption|].
    cbn [andb negb fst snd]. split; [|now left].
    unfold push. apply Forall_app. split; [exact Hres|].
    constructor; [|constructor].
    cbn [fst snd] in Hcur.
    destruct Hcur as [->|(timing & Htin & Htime)]; [discriminate|].
    exists cur, line, (trim (strip_tags line)).
    split; [reflexivity|].
    split; [exact (proj1 (find_time_spec _ _ Htime))|].
    split; [now exists timing|].
    repeat split; try assumption.
    now apply truthy_string_true.
Qed.

(** X6. Every entry of the transcript is [[time] text]: the time is the
    [dd:dd:dd.ddd] of a timing line of the file, and the text is a line
    that is no timing line, with its tags stripped and trimmed; the text is
    not empty and does not begin with WEBVTT or NOTE. *)
Theorem vtt_entries_are_cues (vtt : string) :
  Forall (cue_entry (split_on newline vtt)) (vtt_entries vtt).
Proof.
  unfold vtt_entries.
  apply (fold_left_invariant vtt_line
           (fun st => Forall (cue_entry (split_on newline vtt)) (fst st) /\
              (snd st = "" \/
               exists timing, In timing (split_on newline vtt) /\
                              find_time timing = Some (snd st)))).
  - apply vtt_line_keeps_cues.
  - split; [constructor|now left].
Qed.

Lemma vtt_line_count st line :
  (length (fst (vtt_line st line)) +
   Nat.b2n (truthy_string (snd (vtt_line st line)))
   <= length (fst st) + Nat.b2n (truthy_string (snd st)) +
      Nat.b2n (match find_time line with Some _ => true | None => false end))%nat.
Proof.
  destruct st as [result cur]. unfold vtt_line.
  destruct (find_time line) as [t|].
  - cbn [fst snd]. destruct (truthy_string t), (truthy_string cur);
      simpl; lia.
  - cbv zeta. destruct (truthy_string (trim (strip_tags line))).
    + destruct (truthy_string cur) eqn:E.
      * destruct (negb (starts_with "WEBVTT" (trim (strip_tags line))) &&
                  negb (starts_with "NOTE" (trim (strip_tags line)))) eqn:E2.
        -- rewrite <- andb_assoc, E2. cbn [andb fst snd].
           unfold push. rewrite length_app, E. simpl. lia.
        -- rewrite <- andb_assoc, E2. cbn [andb fst snd].
           rewrite E. simpl. lia.
      * cbn [andb fst snd]. rewrite E. simpl. lia.
    + cbn [andb fst snd]. lia.
Qed.

Lemma vtt_fold_count lines st :
  (length (fst (fold_left vtt_line lines st)) +
   Nat.b2n (truthy_string (snd (fold_left vtt_line lines st)))
   <= length (fst st) + Nat.b2n (truthy_string (snd st)) +
      length (filter (fun line => match find_time line with
                                  | Some _ => true
                                  | None => false
                                  end) lines))%nat.
Proof.
  revert st. induction lines as [|line lines IH]; intros st; [simpl; lia|].
  cbn [fold_left filter]. specialize (IH (vtt_line st line)).
  pose proof (vtt_line_count st line) as Hstep.
  destruct (find_time line); cbn [Nat.b2n length] in *; lia.
Qed.

(** X7. The transcript has at most one entry per timing line of the file:
    a cue time is used for the first text line after it and for no other.
    A file without timing lines gives the empty transcript. *)
Theorem vtt_one_entry_per_timing (vtt : string) :
  (length (vtt_entries vtt) <= length (timing_lines vtt))%nat /\
  (timing_lines vtt = [] -> parseVTT vtt = "").
Proof.
  assert (Hle : (length (vtt_entries vtt) <= length (timing_lines vtt))%nat).
  { unfold vtt_entries, timing_lines.
    pose proof (vtt_fold_count (split_on newline vtt) ([], "")) as H.
    cbn [fst snd length truthy_string Nat.b2n] in H. lia. }
  split; [exact Hle|].
  intros Hnone. rewrite Hnone in Hle. unfold parseVTT.
  destruct (vtt_entries vtt); [reflexivity|simpl in Hle; lia].
Qed.

Lemma has_char_app c a b :
  has_char c (a ++ b) = has_char c a || has_char c b.
Proof.
  induction a as [|x a IH]; [reflexivity|]. simpl.
  now rewrite IH, orb_assoc.
Qed.

Lemma split_on_no_sep c s :
  Forall (fun piece => has_char c piece = false) (split_on c s).
Proof.
  induction s as [|a s IH]; [repeat constructor|]. simpl.
  destruct (Ascii.eqb a c) eqn:E; [constructor; [reflexivity|exact IH]|].
  destruct (split_on c s) as [|piece pieces].
  - constructor; [|constructor]. simpl. now rewrite E.
  - inversion IH; subst. constructor; [|assumption]. simpl.
    now rewrite E.
Qed.

Lemma split_on_whole c s : has_char c s = false -> split_on c s = [s].
Proof.
  induction s as [|a s IH]; [reflexivity|]. simpl.
  intros H. apply orb_false_iff in H as [Ha Hs].
  rewrite Ha, IH by assumption. reflexivity.
Qed.

Lemma split_on_app_sep c s u :
  has_char c s = false -> split_on c (s ++ String c u) = s :: split_on c u.
Proof.
  induction s as [|a s IH].
  - intros _. simpl. now rewrite Ascii.eqb_refl.
  - simpl. intros H. apply orb_false_iff in H as [Ha Hs].
    rewrite Ha, IH by assumption. reflexivity.
Qed.

Lemma split_on_join c l :
  l <> [] -> Forall (fun piece => has_char c piece = false) l ->
  split_on c (join (str c) l) = l.
Proof.
  induction l as [|s l IH]; [congruence|]. intros _ Hall.
  inversion Hall as [|? ? Hs Hl]; subst.
  destruct l as [|t l]; [now apply split_on_whole|].
  change (join (str c) (s :: t :: l))
    with (s ++ String c (join (str c) (t :: l))).
  rewrite split_on_app_sep by assumption.
  rewrite IH; [reflexivity|discriminate|assumption].
Qed.

Lemma has_char_trim_start c s :
  has_char c (trim_start s) = true -> has_char c s = true.
Proof.
  induction s as [|a s IH]; [auto|]. simpl.
  destruct (is_space a); [|auto].
  intros H. rewrite (IH H). apply orb_true_r.
Qed.

Lemma trim_end_prefix s : exists v, s = trim_end s ++ v.
Proof.
  induction s as [|a s [v IH]]; [now exists EmptyString|]. simpl.
  destruct (trim_end s) as [|d r].
  - destruct (is_space a).
    + now exists (String a s).
    + exists s. reflexivity.
  - exists v. simpl in IH |- *. now rewrite <- IH.
Qed.

Lemma has_char_trim c s : has_char c (trim s) = true -> has_char c s = true.
Proof.
  unfold trim. intros H. apply has_char_trim_start.
  destruct (trim_end_prefix (trim_start s)) as [v E].
  rewrite E, has_char_app, H. reflexivity.
Qed.

Lemma has_tag_trim_start s :
  has_tag (trim_start s) = true -> has_tag s = true.
Proof.
  induction s as [|a s IH]; [auto|]. simpl.
  destruct (is_space a); [|auto].
  intros H. rewrite (IH H). apply orb_true_r.
Qed.

Lemma tag_opens_app a v : tag_opens a = true -> tag_opens (a ++ v) = true.
Proof.
  destruct a as [|c a]; [discriminate|]. unfold tag_opens.
  change (String c a ++ v) with (String c (a ++ v)).
  intros H. apply andb_true_iff in H as [H1 H2].
  rewrite H1. change (String c (a ++ v)) with (String c a ++ v).
  now rewrite has_char_app, H2.
Qed.

Lemma has_tag_app a v : has_tag a = true -> has_tag (a ++ v) = true.
Proof.
  induction a as [|c a IH]; [discriminate|]. simpl.
  intros H. apply orb_true_iff in H as [H|H].
  - apply andb_true_iff in H as [H1 H2].
    now rewrite H1, (tag_opens_app _ _ H2).
  - rewrite (IH H). apply orb_true_r.
Qed.

Lemma has_tag_trim s : has_tag s = false -> has_tag (trim s) = false.
Proof.
  intros H. destruct (has_tag (trim s)) eqn:E; [|reflexivity].
  unfold trim in E.
  destruct (trim_end_prefix (trim_start s)) as [v Ev].
  apply (has_tag_app _ v) in E. rewrite <- Ev in E.
  apply has_tag_trim_start in E. congruence.
Qed.

Lemma cue_entry_one_line lines entry :
  Forall (fun line => has_char newline line = false) lines ->
  cue_entry lines entry ->
  has_char newline entry = false /\
  exists t text,
    entry = "[" ++ t ++ "] " ++ text /\ is_timestamp t /\
    has_tag text = false /\ trim_start text = text /\ trim_end text = text.
Proof.
  intros Hlines (t & line & text & -> & Ht & (timing & _ & Htime) & Hin &
                 _ & -> & _).
  split.
  - change ("[" ++ t ++ "] " ++ trim (strip_tags line))
      with (String "[" (t ++ "] " ++ trim (strip_tags line))).
    cbn [has_char]. rewrite has_char_app.
    rewrite (proj2 (find_time_spec _ _ Htime)).
    cbn [append has_char orb].
    destruct (has_char newline (trim (strip_tags line))) eqn:E;
      [|reflexivity].
    apply has_char_trim in E. apply has_char_strip_from in E.
    rewrite Forall_forall in Hlines. rewrite (Hlines _ Hin) in E.
    discriminate.
  - exists t, (trim (strip_tags line)). split; [reflexivity|].
    split; [exact Ht|]. split.
    + apply has_tag_trim, has_tag_strip_from.
    + apply trim_is_trimmed.
Qed.

(** X8. The transcript is one line per entry: no entry holds a newline, so
    splitting the transcript at the newlines gives the entries back; and
    the text of an entry holds no tag and begins and ends with a character
    that is not white space. *)
Theorem parseVTT_one_line_per_entry (vtt : string) :
  Forall (fun entry =>
            has_char newline entry = false /\
            exists t text,
              entry = "[" ++ t ++ "] " ++ text /\ is_timestamp t /\
              has_tag text = false /\
              trim_start text = text /\ trim_end text = text)
    (vtt_entries vtt) /\
  (vtt_entries vtt <> [] ->
   split_on newline (parseVTT vtt) = vtt_entries vtt).
Proof.
  assert (Hall : Forall (fun entry =>
            has_char newline entry = false /\
            exists t text,
              entry = "[" ++ t ++ "] " ++ text /\ is_timestamp t /\
              has_tag text = false /\
              trim_start text = text /\ trim_end text = text)
            (vtt_entries vtt)).
  { pose proof (split_on_no_sep newline vtt) as Hlines.
    assert (Hcues : Forall (cue_entry (split_on newline vtt))
                      (vtt_entries vtt)).
    { unfold vtt_entries.
      apply (fold_left_invariant vtt_line
               (fun st => Forall (cue_entry (split_on newline vtt)) (fst st) /\
                  (snd st = "" \/
                   exists timing, In timing (split_on newline vtt) /\
                                  find_time timing = Some (snd st)))).
      - apply vtt_line_keeps_cues.
      - split; [constructor|now left]. }
    eapply Forall_impl; [|exact Hcues].
    intros entry. now apply cue_entry_one_line. }
  split; [exact Hall|].
  intros Hne. unfold parseVTT. apply split_on_join; [exact Hne|].
  eapply Forall_impl; [|exact Hall]. cbv beta. intros entry [H _]. exact H.
Qed.

Example parseVTT_sample :
  parseVTT vtt_sample =
  "[00:00:01.000] hello world" ++ str newline ++
  "[00:00:03.500] a  2".
Proof. vm_compute. reflexivity. Qed.

(** ** [formatTime] *)

Lemma Qle_bool_inject_Z a b :
  Qle_bool (inject_Z a) (inject_Z b) = (a <=? b)%Z.
Proof. unfold Qle_bool, inject_Z. simpl. now rewrite !Z.mul_1_r. Qed.

(** X9. For a time that is not negative, [formatTime] writes the whole
    seconds of it, rounded down, as [h:mm:ss] when there is at least an
    hour and as [m:ss] otherwise, minutes and seconds below 60 and, after
    the first field, on two digits. *)
Theorem formatTime_fields (seconds : Q) :
  0 <= seconds ->
  exists h m s : Z,
    (0 <= h)%Z /\ (0 <= m < 60)%Z /\ (0 <= s < 60)%Z /\
    (3600 * h + 60 * m + s)%Z = Qfloor seconds /\
    formatTime seconds =
    if (0 <? h)%Z
    then show_nat h ++ ":" ++ digits_fixed 2 m ++ ":" ++ digits_fixed 2 s
    else show_nat m ++ ":" ++ digits_fixed 2 s.
Proof.
  intros Hs. unfold formatTime, Math_floor.
  assert (H3600 : 0 <= seconds / 3600)
    by (change (seconds / 3600) with (seconds * (1 # 3600)); lra).
  assert (H60 : 0 <= seconds / 60)
    by (change (seconds / 60) with (seconds * (1 # 60)); lra).
  rewrite (js_rem_nonneg seconds 3600 H3600), (js_rem_nonneg seconds 60 H60).
  set (hh := Qfloor (seconds / 3600)).
  set (r1 := seconds - 3600 * inject_Z hh).
  set (mm := Qfloor (r1 / 60)).
  set (q60 := Qfloor (seconds / 60)).
  set (r := seconds - 60 * inject_Z q60).
  set (ss := Qfloor r).
  destruct (floor_bounds (seconds / 3600)) as [Hh1 Hh2]. fold hh in Hh1, Hh2.
  destruct (floor_bounds (r1 / 60)) as [Hm1 Hm2]. fold mm in Hm1, Hm2.
  destruct (floor_bounds (seconds / 60)) as [Hq1 Hq2]. fold q60 in Hq1, Hq2.
  destruct (floor_bounds r) as [Hs1 Hs2]. fold ss in Hs1, Hs2.
  change (seconds / 3600) with (seconds * (1 # 3600)) in Hh1, Hh2.
  change (r1 / 60) with (r1 * (1 # 60)) in Hm1, Hm2.
  change (seconds / 60) with (seconds * (1 # 60)) in Hq1, Hq2.
  assert (Hhh : (0 <= hh)%Z).
  { apply inject_Z_lt_inv. change (inject_Z 0) with 0. lra. }
  assert (Hmm : (0 <= mm < 60)%Z).
  { split.
    - apply inject_Z_lt_inv. change (inject_Z 0) with 0. unfold r1 in *. lra.
    - assert (inject_Z mm < inject_Z 59 + 1); [|apply inject_Z_lt_inv in H; lia].
      change (inject_Z 59) with 59. unfold r1 in *. lra. }
  assert (Hq : q60 = (60 * hh + mm)%Z).
  { apply Qfloor_unique; rewrite inject_Z_plus, inject_Z_mult;
      change (inject_Z 60) with 60;
      change (seconds / 60) with (seconds * (1 # 60));
      unfold r1 in *; lra. }
  assert (Hss : (0 <= ss < 60)%Z).
  { split.
    - apply inject_Z_lt_inv. change (inject_Z 0) with 0. unfold r in *. lra.
    - assert (inject_Z ss < inject_Z 59 + 1); [|apply inject_Z_lt_inv in H; lia].
      change (inject_Z 59) with 59. unfold r in *. lra. }
  exists hh, mm, ss.
  split; [exact Hhh|]. split; [exact Hmm|]. split; [exact Hss|]. split.
  - symmetry. apply Qfloor_unique.
    + rewrite !inject_Z_plus, !inject_Z_mult.
      change (inject_Z 3600) with 3600. change (inject_Z 60) with 60.
      unfold r in *. rewrite Hq, inject_Z_plus, inject_Z_mult in Hs1.
      change (inject_Z 60) with 60 in Hs1. lra.
    + rewrite !inject_Z_plus, !inject_Z_mult.
      change (inject_Z 3600) with 3600. change (inject_Z 60) with 60.
      unfold r in *. rewrite Hq, inject_Z_plus, inject_Z_mult in Hs2.
      change (inject_Z 60) with 60 in Hs2. lra.
  - unfold num_gt.
    change (Qle_bool (inject_Z hh) 0)
      with (Qle_bool (inject_Z hh) (inject_Z 0)).
    rewrite Qle_bool_inject_Z, !show_number_nat by lia.
    rewrite !pad2_two_digits by lia.
    destruct (Z.leb_spec hh 0), (Z.ltb_spec 0 hh); try lia; reflexivity.
Qed.

Lemma formatTime_fields_witness :
  exists h m s : Z,
    (0 <= h)%Z /\ (0 <= m < 60)%Z /\ (0 <= s < 60)%Z /\
    (3600 * h + 60 * m + s)%Z = 3725%Z /\
    "1:02:05" =
    if (0 <? h)%Z
    then show_nat h ++ ":" ++ digits_fixed 2 m ++ ":" ++ digits_fixed 2 s
    else show_nat m ++ ":" ++ digits_fixed 2 s.
Proof.
  assert (H0 : 0 <= 3725) by discriminate.
  exact (formatTime_fields 3725 H0).
Defined.

(** ** The moments kept by [detectViralMoments] *)

Lemma insert_by_score_perm m l : Permutation (insert_by_score m l) (m :: l).
Proof.
  induction l as [|x l IH]; [reflexivity|]. simpl.
  destruct (num_gt (score x) (score m)); [|reflexivity].
  rewrite IH. apply perm_swap.
Qed.

Lemma sort_by_score_perm l : Permutation (sort_by_score l) l.
Proof.
  induction l as [|m l IH]; [reflexivity|]. simpl.
  rewrite insert_by_score_perm. now constructor.
Qed.

Lemma num_gt_false a b : num_gt a b = false -> a <= b.
Proof.
  unfold num_gt. intros H. apply negb_false_iff in H.
  now apply Qle_bool_iff.
Qed.

Lemma num_gt_true a b : num_gt a b = true -> b < a.
Proof.
  unfold num_gt. intros H. apply negb_true_iff in H.
  apply Qnot_le_lt. intros Hle. apply Qle_bool_iff in Hle. congruence.
Qed.

Lemma insert_by_score_sorted m l :
  StronglySorted by_score_desc l ->
  StronglySorted by_score_desc (insert_by_score m l).
Proof.
  induction 1 as [|x l Hl IH Hx]; [repeat constructor|]. simpl.
  destruct (num_gt (score x) (score m)) eqn:E.
  - constructor; [exact IH|].
    apply (Permutation_Forall (x := m :: l)).
    + symmetry. apply insert_by_score_perm.
    + constructor; [|exact Hx].
      apply Qlt_le_weak. now apply num_gt_true.
  - apply num_gt_false in E. constructor.
    + now constructor.
    + constructor; [exact E|].
      eapply Forall_impl; [|exact Hx]. cbv beta. unfold by_score_desc.
      intros y Hy. eapply Qle_trans; eassumption.
Qed.

Lemma sort_by_score_sorted l : StronglySorted by_score_desc (sort_by_score l).
Proof.
  induction l as [|m l IH]; [constructor|]. simpl.
  now apply insert_by_score_sorted.
Qed.

Lemma map_indexed_in {A B : Type} (f : nat -> A -> B) i l y :
  In y (map_indexed f i l) -> exists j x, In x l /\ y = f j x.
Proof.
  revert i. induction l as [|a l IH]; intros i; [intros []|].
  simpl. intros [<-|H].
  - exists i, a. split; [now left|reflexivity].
  - destruct (IH _ H) as (j & x & Hx & ->). exists j, x.
    split; [now right|reflexivity].
Qed.

Lemma map_indexed_length {A B : Type} (f : nat -> A -> B) i l :
  length (map_indexed f i l) = length l.
Proof.
  revert i. induction l as [|a l IH]; intros i; simpl; [reflexivity|].
  now rewrite IH.
Qed.

Lemma kept_moment_origin duration moments m :
  In m (kept_moments duration moments) ->
  exists i m0,
    In m0 moments /\ moment_in_video duration m0 = true /\
    m = fix_moment duration i m0.
Proof.
  unfold kept_moments. intros H.
  apply (Permutation_in _ (sort_by_score_perm _)) in H.
  apply map_indexed_in in H as (i & m0 & Hm0 & ->).
  apply filter_In in Hm0 as [Hin Hok]. now exists i, m0.
Qed.

Lemma moment_in_video_spec duration m :
  moment_in_video duration m = true ->
  0 <= vm_startTime m /\ vm_endTime m <= duration /\
  vm_startTime m < vm_endTime m.
Proof.
  unfold moment_in_video. intros H.
  apply andb_true_iff in H as [H H3]. apply andb_true_iff in H as [H1 H2].
  apply Qle_bool_iff in H1, H2. apply num_gt_true in H3. auto.
Qed.

Lemma Math_min_le_r a b : Math_min a b <= b.
Proof.
  unfold Math_min. destruct (Qle_bool a b) eqn:E.
  - now apply Qle_bool_iff.
  - apply Qle_refl.
Qed.

Lemma Math_min_le_l a b : Math_min a b <= a.
Proof.
  unfold Math_min. destruct (Qle_bool a b) eqn:E; [apply Qle_refl|].
  apply Qlt_le_weak, Qnot_le_lt. intros H. apply Qle_bool_iff in H.
  congruence.
Qed.

Lemma Math_min_glb a b c : c <= a -> c <= b -> c <= Math_min a b.
Proof. intros Ha Hb. unfold Math_min. now destruct (Qle_bool a b). Qed.

Lemma Math_max_ge_l a b : a <= Math_max a b.
Proof.
  unfold Math_max. destruct (Qle_bool a b) eqn:E.
  - now apply Qle_bool_iff.
  - apply Qle_refl.
Qed.

(** X10. Every moment [detectViralMoments] keeps has an id that is not
    empty, a score between 1 and 10, a start that is a whole number of
    seconds and not negative, and an end within the duration of the video;
    and it comes from a moment of the reply that passed the filter. *)
Theorem kept_moments_in_range (duration : Q) (moments : list ViralMoment) :
  Forall (fun m =>
            (exists id, vm_id m = Some id /\ id <> "") /\
            (exists v, vm_viralScore m = Some v /\ 1 <= v <= 10) /\
            is_integer (vm_startTime m) /\ 0 <= vm_startTime m /\
            vm_endTime m <= duration /\
            exists m0, In m0 moments /\ vm_label m = vm_label m0 /\
                       0 <= vm_startTime m0 /\
                       vm_startTime m0 < vm_endTime m0 /\
                       vm_endTime m0 <= duration)
    (kept_moments duration moments).
Proof.
  apply Forall_forall. intros m Hm.
  apply kept_moment_origin in Hm as (i & m0 & Hin & Hok & ->).
  apply moment_in_video_spec in Hok as (H0 & Hend & Hlt).
  cbn [fix_moment vm_id vm_viralScore vm_startTime vm_endTime vm_label].
  split.
  { eexists. split; [reflexivity|].
    destruct (vm_id m0) as [id|]; [destruct id|]; discriminate. }
  split.
  { eexists. split; [reflexivity|]. split.
    - apply Math_min_glb; [discriminate|apply Math_max_ge_l].
    - apply Math_min_le_l. }
  split; [eexists; reflexivity|].
  split.
  { unfold Math_round. change 0 with (inject_Z 0). rewrite <- Zle_Qle.
    apply inject_Z_lt_inv. change (inject_Z 0) with 0.
    destruct (floor_bounds (vm_startTime m0 + (1 # 2))) as [_ H]. lra. }
  split; [apply Math_min_le_r|].
  exists m0. auto 10.
Qed.

(** X11. The moments kept are in the order of their scores, highest first,
    and they are the moments that passed the filter, each one once: no
    moment is added and none is lost in the sort. *)
Theorem kept_moments_sorted (duration : Q) (moments : list ViralMoment) :
  StronglySorted (fun a b => score b <= score a)
    (kept_moments duration moments) /\
  Permutation (kept_moments duration moments)
    (map_indexed (fix_moment duration) 0
       (filter (moment_in_video duration) moments)) /\
  (length (kept_moments duration moments) <= length moments)%nat.
Proof.
  unfold kept_moments. split; [apply sort_by_score_sorted|].
  split; [apply sort_by_score_perm|].
  rewrite (Permutation_length (sort_by_score_perm _)), map_indexed_length.
  apply filter_length_le.
Qed.

(** X12. When the duration of the video is a whole number of seconds, no
    moment kept ends before it starts: rounding the two times keeps them in
    order, and the cut at the duration cannot fall below the start. *)
Theorem kept_moments_ordered (duration : Q) (moments : list ViralMoment) :
  is_integer duration ->
  Forall (fun m => vm_startTime m <= vm_endTime m)
    (kept_moments duration moments).
Proof.
  intros [d Hd]. apply Forall_forall. intros m Hm.
  apply kept_moment_origin in Hm as (i & m0 & _ & Hok & ->).
  apply moment_in_video_spec in Hok as (H0 & Hend & Hlt).
  cbn [fix_moment vm_startTime vm_endTime]. unfold Math_round.
  apply Math_min_glb.
  - rewrite <- Zle_Qle. apply Qfloor_resp_le. lra.
  - rewrite Hd. rewrite <- Zle_Qle. apply inject_Z_lt_inv.
    destruct (floor_bounds (vm_startTime m0 + (1 # 2))) as [H _].
    rewrite Hd in Hend. lra.
Qed.

Lemma kept_moments_ordered_witness :
  Forall (fun m => vm_startTime m <= vm_endTime m)
    (kept_moments 600 moments_answer).
Proof.
  apply kept_moments_ordered. exists 600%Z. reflexivity.
Defined.

(** ** The projects in [localStorage] *)

Lemma has_id_true id p : has_id id p = true <-> p_id p = id.
Proof. unfold has_id. apply String.eqb_eq. Qed.

Lemma has_id_false id p : has_id id p = false <-> p_id p <> id.
Proof. unfold has_id. apply String.eqb_neq. Qed.

Lemma findIndex_None_find {A : Type} (f : A -> bool) l :
  findIndex f l = None <-> find f l = None.
Proof.
  induction l as [|x l IH]; [simpl; tauto|]. simpl. destruct (f x).
  - split; discriminate.
  - destruct (findIndex f l) as [j|]; simpl.
    + split; [discriminate|]. intros H. apply IH in H. discriminate.
    + split; [intros _; now apply IH|reflexivity].
Qed.

Lemma set_at_length {A : Type} idx (v : A) l :
  length (set_at idx v l) = length l.
Proof.
  revert idx. induction l as [|x l IH]; intros [|idx]; simpl; auto.
Qed.

Lemma find_set_at_same project l idx :
  findIndex (has_id (p_id project)) l = Some idx ->
  find (has_id (p_id project)) (set_at idx project l) = Some project.
Proof.
  revert idx. induction l as [|x l IH]; intros idx; [discriminate|].
  simpl. destruct (has_id (p_id project) x) eqn:E.
  - intros H. injection H as <-. simpl.
    now rewrite (proj2 (has_id_true _ _) eq_refl).
  - destruct (findIndex (has_id (p_id project)) l) as [j|]; [|discriminate].
    simpl. intros H. injection H as <-. simpl. rewrite E. now apply IH.
Qed.

Lemma find_set_at_other project id l idx :
  id <> p_id project ->
  findIndex (has_id (p_id project)) l = Some idx ->
  find (has_id id) (set_at idx project l) = find (has_id id) l.
Proof.
  intros Hne. revert idx.
  induction l as [|x l IH]; intros idx; [discriminate|].
  simpl. destruct (has_id (p_id project) x) eqn:E.
  - intros H. injection H as <-. simpl.
    apply has_id_true in E.
    rewrite (proj2 (has_id_false id project)) by congruence.
    rewrite (proj2 (has_id_false id x)) by congruence. reflexivity.
  - destruct (findIndex (has_id (p_id project)) l) as [j|]; [|discriminate].
    simpl. intros H. injection H as <-. simpl.
    destruct (has_id id x); [reflexivity|]. now apply IH.
Qed.

Lemma ids_set_at project l idx :
  findIndex (has_id (p_id project)) l = Some idx ->
  map p_id (set_at idx project l) = map p_id l.
Proof.
  revert idx. induction l as [|x l IH]; intros idx; [discriminate|].
  simpl. destruct (has_id (p_id project) x) eqn:E.
  - intros H. injection H as <-. simpl. apply has_id_true in E.
    now rewrite E.
  - destruct (findIndex (has_id (p_id project)) l) as [j|]; [|discriminate].
    simpl. intros H. injection H as <-. simpl. f_equal. now apply IH.
Qed.

Lemma find_None_not_stored id l :
  find (has_id id) l = None -> ~ In id (map p_id l).
Proof.
  induction l as [|x l IH]; [auto|]. simpl.
  destruct (has_id id x) eqn:E; [discriminate|].
  apply has_id_false in E. intros H [Hx|Hin]; [congruence|].
  now apply IH.
Qed.

Lemma NoDup_firstn {A : Type} n (l : list A) : NoDup l -> NoDup (firstn n l).
Proof.
  intros H. rewrite <- (firstn_skipn n l) in H.
  now apply NoDup_app_remove_r in H.
Qed.

Lemma findIndex_set_at project l idx :
  findIndex (has_id (p_id project)) l = Some idx ->
  exists before old after,
    l = (before ++ old :: after)%list /\
    p_id old = p_id project /\
    Forall (fun p => p_id p <> p_id project) before /\
    length before = idx /\
    set_at idx project l = (before ++ project :: after)%list.
Proof.
  revert idx. induction l as [|x l IH]; intros idx; [discriminate|].
  simpl. destruct (has_id (p_id project) x) eqn:E.
  - intros H. injection H as <-. exists [], x, l.
    apply has_id_true in E. repeat split; auto.
  - destruct (findIndex (has_id (p_id project)) l) as [k|]; [|discriminate].
    simpl. intros H. injection H as <-.
    destruct (IH k eq_refl) as (before & old & after & -> & Hid & Hb & Hlen & Hset).
    exists (x :: before), old, after. apply has_id_false in E.
    repeat split; simpl; auto.
    now rewrite Hset.
Qed.

(** X13. After [saveProject] the store holds at most 20 projects.  A
    project whose id is not stored yet goes first, before the 19 first of
    the projects that were there.  A project whose id is stored takes the
    place of the first project with that id: the projects before it, none
    of which has the id, and the projects after it stay as they were, the
    saved project stands where the old one stood, and the ids and their
    order are unchanged. *)
Theorem saveProject_cap (project : Project) (st : LocalStorage) :
  (length (loadProjects (saveProject project st)) <= 20)%nat /\
  (getProject (p_id project) st = None ->
   loadProjects (saveProject project st) =
   project :: firstn 19 (loadProjects st)) /\
  (getProject (p_id project) st <> None ->
   stored_ids (saveProject project st) = firstn 20 (stored_ids st) /\
   exists before old after,
     loadProjects st = (before ++ old :: after)%list /\
     p_id old = p_id project /\
     Forall (fun p => p_id p <> p_id project) before /\
     loadProjects (saveProject project st) =
     firstn 20 (before ++ project :: after)%list).
Proof.
  unfold saveProject, getProject, stored_ids. cbn [loadProjects].
  split; [apply firstn_le_length|]. split.
  - intros H. apply findIndex_None_find in H. rewrite H. reflexivity.
  - intros H.
    destruct (findIndex (has_id (p_id project)) (loadProjects st))
      as [idx|] eqn:E.
    + split.
      * rewrite <- firstn_map, (ids_set_at _ _ _ E). reflexivity.
      * destruct (findIndex_set_at _ _ _ E)
          as (before & old & after & Hl & Hid & Hb & _ & Hset).
        exists before, old, after. rewrite Hset. auto.
    + apply findIndex_None_find in E. contradiction.
Qed.

Lemma saveProject_cap_witness :
  loadProjects (saveProject project_a_later (Some [project_a])) =
  [project_a_later].
Proof.
  destruct (saveProject_cap project_a_later (Some [project_a]))
    as (_ & _ & Hstored).
  destruct Hstored as (_ & before & old & after & Hl & _ & _ & Hsaved);
    [discriminate|].
  rewrite Hsaved. cbn [loadProjects] in Hl.
  destruct before as [|b before].
  - injection Hl as _ <-. reflexivity.
  - injection Hl as _ Hl. destruct before; discriminate.
Defined.

(** X14. In a store of at most 20 projects, which is what every save
    leaves, a project that has just been saved is the one [getProject]
    finds under its id. *)
Theorem saveProject_getProject (project : Project) (st : LocalStorage) :
  (length (loadProjects st) <= 20)%nat ->
  getProject (p_id project) (saveProject project st) = Some project.
Proof.
  intros Hlen. unfold saveProject, getProject. cbn [loadProjects].
  destruct (findIndex (has_id (p_id project)) (loadProjects st))
    as [idx|] eqn:E.
  - rewrite firstn_all2 by (rewrite set_at_length; lia).
    now apply find_set_at_same.
  - simpl. now rewrite (proj2 (has_id_true _ _) eq_refl).
Qed.

Lemma saveProject_getProject_witness :
  getProject "a1b2c3d4" (saveProject project_a_later (Some [project_a])) =
  Some project_a_later.
Proof.
  apply (saveProject_getProject project_a_later (Some [project_a])).
  simpl. lia.
Defined.

(** X15. Saving a project leaves the other projects findable as they were,
    as long as nothing has to be dropped: when the id saved is stored
    already in a store of at most 20, or when the store holds fewer than
    20. *)
Theorem saveProject_keeps_others (project : Project) (st : LocalStorage)
  (id : string) :
  id <> p_id project ->
  (length (loadProjects st) < 20)%nat \/
  ((length (loadProjects st) <= 20)%nat /\
   getProject (p_id project) st <> None) ->
  getProject id (saveProject project st) = getProject id st.
Proof.
  intros Hne Hroom. unfold saveProject, getProject in *.
  cbn [loadProjects].
  destruct (findIndex (has_id (p_id project)) (loadProjects st))
    as [idx|] eqn:E.
  - rewrite firstn_all2 by (rewrite set_at_length; lia).
    now apply find_set_at_other.
  - destruct Hroom as [Hlt|[_ Hstored]].
    + rewrite firstn_all2 by (simpl; lia). simpl.
      now rewrite (proj2 (has_id_false id project)) by congruence.
    + apply findIndex_None_find in E. contradiction.
Qed.

Lemma saveProject_keeps_others_witness :
  getProject "zzzz" (saveProject project_a_later (Some [project_a])) =
  getProject "zzzz" (Some [project_a]).
Proof.
  apply saveProject_keeps_others; [discriminate|].
  left. simpl. lia.
Defined.

Lemma find_filter_other id id' l :
  id' <> id ->
  find (has_id id') (filter (fun p => negb (has_id id p)) l) =
  find (has_id id') l.
Proof.
  intros Hne. induction l as [|x l IH]; [reflexivity|]. simpl.
  destruct (has_id id x) eqn:E; simpl.
  - apply has_id_true in E.
    rewrite (proj2 (has_id_false id' x)) by congruence. exact IH.
  - destruct (has_id id' x); [reflexivity|exact IH].
Qed.

Lemma find_filter_same id l :
  find (has_id id) (filter (fun p => negb (has_id id p)) l) = None.
Proof.
  induction l as [|x l IH]; [reflexivity|]. simpl.
  destruct (has_id id x) eqn:E; simpl; [exact IH|]. now rewrite E.
Qed.

Lemma filter_absent id l :
  find (has_id id) l = None ->
  filter (fun p => negb (has_id id p)) l = l.
Proof.
  induction l as [|x l IH]; [reflexivity|]. simpl.
  destruct (has_id id x); [discriminate|]. simpl. intros H.
  now rewrite IH.
Qed.

(** X16. After [deleteProject] no project is found under the id deleted,
    every other id finds what it found before, and deleting an id that is
    not stored leaves the projects as they are. *)
Theorem deleteProject_getProject (id : string) (st : LocalStorage) :
  getProject id (deleteProject id st) = None /\
  (forall id', id' <> id ->
     getProject id' (deleteProject id st) = getProject id' st) /\
  (getProject id st = None ->
   loadProjects (deleteProject id st) = loadProjects st).
Proof.
  unfold getProject, deleteProject. cbn [loadProjects].
  split; [apply find_filter_same|].
  split; [intros id' Hne; now apply find_filter_other|].
  apply filter_absent.
Qed.

(** X17. Ids that are stored once each stay so: neither [saveProject] nor
    [deleteProject] makes two projects share an id. *)
Theorem stored_ids_stay_unique (project : Project) (id : string)
  (st : LocalStorage) :
  NoDup (stored_ids st) ->
  NoDup (stored_ids (saveProject project st)) /\
  NoDup (stored_ids (deleteProject id st)).
Proof.
  intros Hnd. unfold stored_ids, saveProject, deleteProject in *.
  cbn [loadProjects]. split.
  - rewrite <- firstn_map. apply NoDup_firstn.
    destruct (findIndex (has_id (p_id project)) (loadProjects st))
      as [idx|] eqn:E.
    + now rewrite (ids_set_at _ _ _ E).
    + simpl. constructor; [|exact Hnd].
      apply find_None_not_stored. now apply findIndex_None_find.
  - induction (loadProjects st) as [|x l IH]; [constructor|].
    simpl in Hnd |- *. inversion Hnd as [|? ? Hx Hl]; subst.
    destruct (has_id id x); simpl; [now apply IH|].
    constructor; [|now apply IH].
    intros Hin. apply Hx. apply in_map_iff in Hin as (y & Hy & Hin).
    apply filter_In in Hin as [Hin _]. apply in_map_iff. now exists y.
Qed.

Lemma stored_ids_stay_unique_witness :
  NoDup (stored_ids (saveProject project_a_later (Some [project_a]))).
Proof.
  apply (stored_ids_stay_unique project_a_later "a1b2c3d4"
           (Some [project_a])).
  repeat constructor. intros [].
Defined.

(** ** The crop box in the frame *)

Lemma supported_ratio_bounds name rw rh :
  In (name, (rw, rh)) supported_ratios ->
  (0 < rw)%Z /\ (0 < rh)%Z /\ (rw <= 2 * rh)%Z /\ (rh <= 2 * rw)%Z.
Proof.
  unfold supported_ratios.
  intros [E|[E|[E|[E|[]]]]]; injection E as <- <- <-; lia.
Qed.

Lemma cut_at_least_2 a b c :
  (0 <= a)%Z -> (0 <= b)%Z -> (0 < c)%Z -> (2 * c <= a * b)%Z ->
  2 <= inject_Z (2 * Qfloor (inject_Z a * inject_Z b / inject_Z c / 2)).
Proof.
  intros Ha Hb Hc Hbig.
  change 2 with (inject_Z 2) at 1. rewrite <- Zle_Qle.
  assert (H1 : (Qfloor 1 <=
                Qfloor (inject_Z a * inject_Z b / inject_Z c / 2))%Z).
  { apply Qfloor_resp_le.
    apply Qle_shift_div_l; [reflexivity|].
    apply Qle_shift_div_l; [unfold Qlt; simpl; lia|].
    change (1 * 2) with (inject_Z 2).
    rewrite <- !inject_Z_mult, <- Zle_Qle. lia. }
  change (Qfloor 1) with 1%Z in H1. lia.
Qed.

(** X18. On a source of at least 4 by 4 pixels and for every supported
    target ratio, the crop box is a real box inside the frame: its width
    and height are at least 2, its offsets are not negative, it ends within
    the source on both axes, and it is centred, the margin being the same
    on both sides. *)
Theorem crop_box_inside_frame (w h rw rh : Z) (name : string) :
  (4 <= w)%Z -> (4 <= h)%Z ->
  In (name, (rw, rh)) supported_ratios ->
  exists box,
    crop_box (Num (inject_Z rw)) (Num (inject_Z rh)) w h = Some box /\
    2 <= crop_w box /\ 2 <= crop_h box /\
    0 <= crop_x box /\ 0 <= crop_y box /\
    crop_x box + crop_w box <= inject_Z w /\
    crop_y box + crop_h box <= inject_Z h /\
    crop_x box + crop_w box + crop_x box == inject_Z w /\
    crop_y box + crop_h box + crop_y box == inject_Z h.
Proof.
  intros Hw Hh Hin.
  destruct (supported_ratio_bounds _ _ _ Hin) as (Hrw & Hrh & Hr1 & Hr2).
  destruct (crop_box_geometry w h rw rh) as
    (box & Hbox & Hx & Hy & Hfw & Hfh & Hwide & Hnarrow); try lia.
  exists box. split; [exact Hbox|].
  assert (H4w : 4 <= inject_Z w)
    by (change 4 with (inject_Z 4); rewrite <- Zle_Qle; exact Hw).
  assert (H4h : 4 <= inject_Z h)
    by (change 4 with (inject_Z 4); rewrite <- Zle_Qle; exact Hh).
  assert (Hdims : 2 <= crop_w box /\ 2 <= crop_h box).
  { destruct (Qlt_le_dec (inject_Z rw / inject_Z rh)
                         (inject_Z w / inject_Z h)) as [Hlt|Hle].
    - destruct (Hwide Hlt) as [Ech Ecw]. rewrite Ech, Ecw. split; [|lra].
      apply cut_at_least_2; nia.
    - destruct (Hnarrow Hle) as [Ecw Ech]. rewrite Ecw, Ech. split; [lra|].
      apply cut_at_least_2; nia. }
  destruct Hdims as [H2w H2h].
  change ((inject_Z w - crop_w box) / 2)
    with ((inject_Z w - crop_w box) * (1 # 2)) in Hx.
  change ((inject_Z h - crop_h box) / 2)
    with ((inject_Z h - crop_h box) * (1 # 2)) in Hy.
  repeat split; try assumption; lra.
Qed.

Lemma crop_box_inside_frame_witness :
  exists box,
    crop_box (Num 9) (Num 16) 1920 1080 = Some box /\
    2 <= crop_w box /\ 0 <= crop_x box /\ crop_x box + crop_w box <= 1920.
Proof.
  assert (Hw : (4 <= 1920)%Z) by lia.
  assert (Hh : (4 <= 1080)%Z) by lia.
  assert (Hin : In ("9:16", (9, 16)%Z) supported_ratios) by (left; reflexivity).
  destruct (crop_box_inside_frame 1920 1080 9 16 "9:16" Hw Hh Hin)
    as (box & Hbox & H2 & _ & Hx & _ & Hfit & _).
  exists box. auto.
Defined.

(** ** The video-info handler *)

Lemma fetch_transcript_calls ir url info :
  fst (fst (fetch_transcript ir url info)) =
  [exec (subtitles_cmd (TEMP_DIR (ir_rt ir)) url) 30000].
Proof.
  unfold fetch_transcript.
  destruct (execAsync_outcome _ _); [reflexivity|].
  destruct (fs_existsSync _ _); [|reflexivity].
  destruct (fs_readFileSync _ _); reflexivity.
Qed.

Lemma fetch_transcript_text ir url info :
  let rt := ir_rt ir in
  let vttFile := path_join rt (TEMP_DIR rt) (info_id info ++ ".en.vtt") in
  snd (fetch_transcript ir url info) =
  match execAsync_outcome rt (subtitles_cmd (TEMP_DIR rt) url),
        fs_existsSync rt vttFile, fs_readFileSync ir vttFile with
  | None, true, Some raw => parseVTT raw
  | _, _, _ => EmptyString
  end.
Proof.
  cbv zeta. unfold fetch_transcript.
  destruct (execAsync_outcome _ _); [reflexivity|].
  destruct (fs_existsSync _ _); [|reflexivity].
  destruct (fs_readFileSync _ _); reflexivity.
Qed.

(** X19. The captions are fetched on a best-effort basis: once the metadata
    command has succeeded and its output has been parsed, the request is
    answered 200 whatever becomes of the captions command, of the captions
    file and of its removal.  The transcript is [parseVTT] of the file when
    the command succeeded and the file is there and readable, and empty
    otherwise; the description is cut at 2000 characters; and two processes
    have been started, the metadata command first. *)
Theorem video_info_best_effort (ir : InfoRuntime) (url : string)
  (info : VideoInfo) :
  url <> "" ->
  execAsync_outcome (ir_rt ir) (dump_json_cmd url) = None ->
  JSON_parse ir (exec_stdout ir (dump_json_cmd url)) = inr info ->
  let rt := ir_rt ir in
  let vttFile := path_join rt (TEMP_DIR rt) (info_id info ++ ".en.vtt") in
  let result := video_info ir (Some url) in
  fst (fst result) =
  [exec (dump_json_cmd url) 30000;
   exec (subtitles_cmd (TEMP_DIR rt) url) 30000] /\
  response_transcript (snd result) =
  Some (match execAsync_outcome rt (subtitles_cmd (TEMP_DIR rt) url),
              fs_existsSync rt vttFile, fs_readFileSync ir vttFile with
        | None, true, Some raw => parseVTT raw
        | _, _, _ => EmptyString
        end) /\
  (exists description,
      response_description (snd result) = Some description /\
      (String.length description <= 2000)%nat) /\
  Forall (fun file => file = vttFile) (snd (fst result)).
Proof.
  intros Hurl Hexec Hparse. cbv zeta. unfold video_info.
  rewrite (truthy_string_nonempty _ Hurl). cbn [negb].
  rewrite Hexec, Hparse.
  pose proof (fetch_transcript_calls ir url info) as Hcalls.
  pose proof (fetch_transcript_text ir url info) as Htext.
  cbv zeta in Htext.
  assert (Hrm : Forall (fun file => file = path_join (ir_rt ir)
                          (TEMP_DIR (ir_rt ir)) (info_id info ++ ".en.vtt"))
                  (snd (fst (fetch_transcript ir url info)))).
  { unfold fetch_transcript.
    destruct (execAsync_outcome (ir_rt ir) (subtitles_cmd _ _));
      [constructor|].
    destruct (fs_existsSync _ _); [|constructor].
    destruct (fs_readFileSync _ _); [|constructor].
    cbn [fst snd]. destruct (fs_unlinkSync _ _); repeat constructor. }
  destruct (fetch_transcript ir url info) as [[calls removed] transcript].
  cbn [fst snd] in *. subst calls.
  split; [reflexivity|]. split; [now rewrite Htext|].
  split; [|exact Hrm].
  eexists. split; [reflexivity|].
  rewrite substring_0_length. lia.
Qed.

Lemma video_info_best_effort_witness :
  response_transcript
    (snd (video_info ir_no_captions (Some "https://youtu.be/dQw4w9WgXcQ"))) =
  Some "".
Proof.
  destruct (video_info_best_effort ir_no_captions
              "https://youtu.be/dQw4w9WgXcQ" info_sample)
    as (_ & Ht & _); [discriminate|reflexivity|reflexivity|].
  exact Ht.
Defined.

(** ** More on the export path *)

(** X20. For a time that is a whole number of milliseconds and not
    negative, the text [secondsToFFmpeg] writes denotes exactly that time:
    its fields, read back as hours, minutes, seconds and milliseconds, add
    up to the number of milliseconds given. *)
Theorem secondsToFFmpeg_exact_ms (n : Z) :
  (0 <= n)%Z ->
  exists hh mm ss ms : Z,
    secondsToFFmpeg (inject_Z n / 1000) =
    padStart 2 "0" (show_nat hh) ++ ":" ++ digits_fixed 2 mm ++ ":" ++
    digits_fixed 2 ss ++ "." ++ digits_fixed 3 ms /\
    (0 <= hh)%Z /\ (0 <= mm < 60)%Z /\ (0 <= ss <= 60)%Z /\
    (0 <= ms < 1000)%Z /\
    (1000 * (3600 * hh + 60 * mm + ss) + ms)%Z = n.
Proof.
  intros Hn.
  assert (Hn' : 0 <= inject_Z n)
    by (change 0 with (inject_Z 0); now rewrite <- Zle_Qle).
  assert (H0 : 0 <= inject_Z n / 1000).
  { change (inject_Z n / 1000) with (inject_Z n * (1 # 1000)). lra. }
  destruct (secondsToFFmpeg_format _ H0)
    as (hh & mm & ss & ms & Htext & _ & Hhh & Hmm & Hss & Hms & Hval).
  exists hh, mm, ss, ms. repeat split; try assumption; try lia.
  apply Qabs_Qle_condition in Hval as [Hlo Hhi].
  change (inject_Z ms / 1000) with (inject_Z ms * (1 # 1000)) in Hlo, Hhi.
  change (inject_Z n / 1000) with (inject_Z n * (1 # 1000)) in Hlo, Hhi.
  set (N := (1000 * (3600 * hh + 60 * mm + ss) + ms)%Z).
  assert (HN : inject_Z N ==
               1000 * inject_Z (3600 * hh + 60 * mm + ss) + inject_Z ms).
  { unfold N. rewrite inject_Z_plus, inject_Z_mult. reflexivity. }
  assert (H1 : (N <= n)%Z) by (apply inject_Z_lt_inv; lra).
  assert (H2 : (n <= N)%Z) by (apply inject_Z_lt_inv; lra).
  lia.
Qed.

Lemma secondsToFFmpeg_exact_ms_witness :
  exists hh mm ss ms : Z,
    secondsToFFmpeg (inject_Z 3725125 / 1000) =
    padStart 2 "0" (show_nat hh) ++ ":" ++ digits_fixed 2 mm ++ ":" ++
    digits_fixed 2 ss ++ "." ++ digits_fixed 3 ms /\
    (0 <= hh)%Z /\ (0 <= mm < 60)%Z /\ (0 <= ss <= 60)%Z /\
    (0 <= ms < 1000)%Z /\
    (1000 * (3600 * hh + 60 * mm + ss) + ms)%Z = 3725125%Z.
Proof.
  apply secondsToFFmpeg_exact_ms. lia.
Defined.

Lemma missing_or_0_absent v : missing_or [0] v -> present_nonzero v = None.
Proof.
  destruct v as [q|]; [|reflexivity]. simpl. intros H.
  inversion H as [? ? Hq|? ? Hq]; subst; [|inversion Hq].
  unfold present_nonzero, num_neq. apply Qeq_bool_iff in Hq.
  now rewrite Hq.
Qed.

(** X21. An edit specification that asks for nothing (no aspect ratio or
    "original", color deltas missing or 0, speed missing, 0 or 1, no
    overlay) adds nothing to the command: the filter chain is empty, and
    the command line is the input arguments followed by the output
    arguments, without [-vf] and without [-af]; the same holds for a
    request without edits. *)
Theorem neutral_edits_plain_cut (e : ClipEdits) (src out : string)
  (c : Clip) :
  neutral_edits e ->
  buildFFmpegFilters e = Normal [] /\
  build_cmd src out c (Some e) =
  Normal (join " " (input_args src c ++ output_args out)%list) /\
  build_cmd src out c None = build_cmd src out c (Some e).
Proof.
  intros (Har & Hb & Hc & Hs & Hsp & Hov).
  assert (Hfilters : buildFFmpegFilters e = Normal []).
  { unfold buildFFmpegFilters, push_crop, wants_crop, push_color,
      eq_entries, push_speed, wants_setpts.
    rewrite (missing_or_0_absent _ Hb), (missing_or_0_absent _ Hc),
      (missing_or_0_absent _ Hs).
    assert (Hcrop : match aspectRatio e with
                    | Some ar =>
                        if truthy_string ar &&
                           negb (String.eqb ar "original")
                        then Some ar else None
                    | None => None
                    end = None).
    { destruct Har as [->|[->| ->]]; reflexivity. }
    rewrite Hcrop.
    assert (Hspeed : match speed e with
                     | Some s => if truthy_num s && num_neq s 1
                                 then Some s else None
                     | None => None
                     end = None).
    { destruct (speed e) as [q|]; [|reflexivity]. simpl in Hsp.
      unfold truthy_num, num_neq.
      inversion Hsp as [? ? Hq|? ? Hq]; subst.
      - apply Qeq_bool_iff in Hq. now rewrite Hq.
      - inversion Hq as [? ? Hq1|? ? Hq1]; subst; [|inversion Hq1].
        apply Qeq_bool_iff in Hq1. rewrite Hq1.
        now rewrite andb_false_r. }
    rewrite Hspeed.
    destruct Hov as [-> | ->]; reflexivity. }
  assert (Haudio : Qeq_bool (audio_speed (Some e)) 1 = true).
  { unfold audio_speed. destruct (speed e) as [q|]; [|reflexivity].
    simpl in Hsp. unfold truthy_num, num_neq.
    destruct (Qeq_bool q 0) eqn:E0; [reflexivity|]. simpl.
    inversion Hsp as [? ? Hq|? ? Hq]; subst.
    - apply Qeq_bool_iff in Hq. congruence.
    - inversion Hq as [? ? Hq1|? ? Hq1]; subst; [|inversion Hq1].
      now apply Qeq_bool_iff. }
  assert (Hcmd : build_cmd src out c (Some e) =
                 Normal (join " " (input_args src c ++ output_args out)%list)).
  { rewrite (build_cmd_args src out c (Some e) [] Hfilters).
    unfold af_args. rewrite Haudio. reflexivity. }
  split; [exact Hfilters|]. split; [exact Hcmd|].
  rewrite Hcmd. reflexivity.
Qed.

Lemma neutral_edits_plain_cut_witness :
  build_cmd "in.mp4" "out.mp4" moment_45_90 (Some defaultEdits) =
  Normal ("ffmpeg -y -ss 00:00:45.000 -i " ++ str dquote ++ "in.mp4" ++
          str dquote ++ " -t 00:00:45.000 -c:v libx264 -preset fast -crf 22"
          ++ " -c:a aac -b:a 128k -movflags +faststart " ++ str dquote ++
          "out.mp4" ++ str dquote).
Proof.
  assert (Hneutral : neutral_edits defaultEdits).
  { repeat split; try (now right; right); try (now right);
      simpl; repeat constructor; reflexivity. }
  destruct (neutral_edits_plain_cut defaultEdits "in.mp4" "out.mp4"
              moment_45_90 Hneutral) as (_ & Hcmd & _).
  rewrite Hcmd. vm_compute. reflexivity.
Defined.

(** ** The cleanup job *)

Lemma cleanup_files_removed rt clock dir tmax files :
  (forall i, clock i <= tmax) ->
  forall reads path,
    In path (fst (cleanup_files rt clock dir reads files)) ->
    exists f mtimeMs,
      In f files /\ path = path_join rt dir (de_name f) /\
      de_mtimeMs f = Some mtimeMs /\ MAX_AGE_MS < tmax - mtimeMs.
Proof.
  intros Hclock. induction files as [|f rest IH]; intros reads path;
    [intros []|].
  cbn [cleanup_files].
  destruct (de_mtimeMs f) as [m|] eqn:Em; [|intros []].
  destruct (num_gt (clock reads - m) MAX_AGE_MS) eqn:Eold.
  - destruct (de_unlink_ok f); [|intros []].
    destruct (cleanup_files rt clock dir (S reads) rest) as [removed n] eqn:Er.
    cbn [fst]. intros [<-|Hin].
    + exists f, m. split; [now left|]. split; [reflexivity|].
      split; [exact Em|]. apply num_gt_true in Eold.
      pose proof (Hclock reads). lra.
    + specialize (IH (S reads) path). rewrite Er in IH.
      destruct (IH Hin) as (f' & m' & Hf' & Hrest).
      exists f', m'. split; [now right|exact Hrest].
  - intros Hin. destruct (IH _ _ Hin) as (f' & m' & Hf' & Hrest).
    exists f', m'. split; [now right|exact Hrest].
Qed.

Lemma cleanup_files_complete rt clock dir t0 files :
  (forall i, t0 <= clock i) ->
  Forall (fun f => de_mtimeMs f <> None /\ de_unlink_ok f = true) files ->
  forall reads f mtimeMs,
    In f files -> de_mtimeMs f = Some mtimeMs -> MAX_AGE_MS < t0 - mtimeMs ->
    In (path_join rt dir (de_name f))
       (fst (cleanup_files rt clock dir reads files)).
Proof.
  intros Hclock Hok. induction Hok as [|x rest [Hstat Hunlink] _ IH];
    intros reads f m; [intros []|].
  cbn [cleanup_files].
  destruct (de_mtimeMs x) as [mx|] eqn:Ex; [|congruence].
  rewrite Hunlink.
  intros [->|Hin] Hm Hold.
  - rewrite Ex in Hm. injection Hm as ->.
    assert (E : num_gt (clock reads - m) MAX_AGE_MS = true).
    { unfold num_gt. apply negb_true_iff.
      destruct (Qle_bool (clock reads - m) MAX_AGE_MS) eqn:E; [|reflexivity].
      apply Qle_bool_iff in E. pose proof (Hclock reads). lra. }
    rewrite E.
    destruct (cleanup_files rt clock dir (S reads) rest). now left.
  - specialize (IH (S reads) f m Hin Hm Hold).
    destruct (num_gt (clock reads - mx) MAX_AGE_MS); [|exact IH].
    destruct (cleanup_files rt clock dir (S reads) rest). now right.
Qed.

Lemma cleanup_removed_from rt clock temp exports path :
  In path (cleanup rt clock temp exports) ->
  (exists files reads, temp = Some files /\
     In path (fst (cleanup_files rt clock (TEMP_DIR rt) reads files))) \/
  (exists files reads, exports = Some files /\
     In path (fst (cleanup_files rt clock (EXPORT_DIR rt) reads files))).
Proof.
  unfold cleanup, cleanup_dir.
  destruct temp as [tf|].
  - destruct (cleanup_files rt clock (TEMP_DIR rt) 0 tf) as [r1 n] eqn:E1.
    destruct exports as [ef|].
    + destruct (cleanup_files rt clock (EXPORT_DIR rt) n ef) as [r2 k] eqn:E2.
      intros H. apply in_app_or in H as [H|H].
      * left. exists tf, 0%nat. rewrite E1. auto.
      * right. exists ef, n. rewrite E2. auto.
    + rewrite app_nil_r. intros H. left. exists tf, 0%nat. rewrite E1. auto.
  - destruct exports as [ef|]; [|intros []].
    destruct (cleanup_files rt clock (EXPORT_DIR rt) 0 ef) as [r2 k] eqn:E2.
    intros H. right. exists ef, 0%nat. rewrite E2. auto.
Qed.

(** X22. The cleanup job removes nothing but old files: every path it
    removes is that of a listed file, in the directory it was listed in,
    that was more than two hours old at a reading of the clock during the
    run; so a file that is at most two hours old when the run is over is
    still there. *)
Theorem cleanup_removes_only_old (rt : Runtime) (clock : nat -> Q)
  (tmax : Q) (temp exports : option (list DirEntry)) (path : string) :
  (forall i, clock i <= tmax) ->
  In path (cleanup rt clock temp exports) ->
  exists dir f mtimeMs,
    In (dir, f) (listed (TEMP_DIR rt) temp ++ listed (EXPORT_DIR rt) exports) /\
    path = path_join rt dir (de_name f) /\
    de_mtimeMs f = Some mtimeMs /\
    2 * 60 * 60 * 1000 < tmax - mtimeMs.
Proof.
  intros Hclock Hin.
  apply cleanup_removed_from in Hin
    as [(files & reads & -> & Hin)|(files & reads & -> & Hin)];
    destruct (cleanup_files_removed _ _ _ _ _ Hclock _ _ Hin)
      as (f & m & Hf & Hpath & Hm & Hold).
  - exists (TEMP_DIR rt), f, m. split; [|auto].
    apply in_or_app. left. simpl. apply in_map_iff. now exists f.
  - exists (EXPORT_DIR rt), f, m. split; [|auto].
    apply in_or_app. right. simpl. apply in_map_iff. now exists f.
Qed.

Lemma cleanup_removes_only_old_witness :
  exists dir f mtimeMs,
    In (dir, f) (listed "/srv/temp_videos" temp_listing ++
                 listed "/srv/exports" exports_listing) /\
    "/srv/temp_videos/abc.mp4" = dir ++ "/" ++ de_name f /\
    de_mtimeMs f = Some mtimeMs /\
    2 * 60 * 60 * 1000 < 1714000000000 - mtimeMs.
Proof.
  apply (cleanup_removes_only_old rt_all_present (fun _ => 1714000000000)
           1714000000000 temp_listing exports_listing
           "/srv/temp_videos/abc.mp4").
  - intros _. apply Qle_refl.
  - vm_compute. left. reflexivity.
Defined.

(** X23. When nothing throws during the run, the cleanup job removes every
    listed file that was more than two hours old when the run began, in
    both directories. *)
Theorem cleanup_removes_every_old (rt : Runtime) (clock : nat -> Q) (t0 : Q)
  (temp exports : option (list DirEntry)) (dir : string) (f : DirEntry)
  (mtimeMs : Q) :
  (forall i, t0 <= clock i) ->
  no_failure temp -> no_failure exports ->
  In (dir, f) (listed (TEMP_DIR rt) temp ++ listed (EXPORT_DIR rt) exports) ->
  de_mtimeMs f = Some mtimeMs ->
  2 * 60 * 60 * 1000 < t0 - mtimeMs ->
  In (path_join rt dir (de_name f)) (cleanup rt clock temp exports).
Proof.
  intros Hclock (tf & -> & Htf) (ef & -> & Hef) Hin Hm Hold.
  unfold cleanup, cleanup_dir.
  destruct (cleanup_files rt clock (TEMP_DIR rt) 0 tf) as [r1 n] eqn:E1.
  destruct (cleanup_files rt clock (EXPORT_DIR rt) n ef) as [r2 k] eqn:E2.
  apply in_app_or in Hin as [Hin|Hin]; simpl in Hin;
    apply in_map_iff in Hin as (f' & E & Hf'); injection E as <- <-;
    apply in_or_app.
  - left.
    pose proof (cleanup_files_complete rt clock (TEMP_DIR rt) t0 tf Hclock
                  Htf 0%nat f' mtimeMs Hf' Hm Hold) as H.
    now rewrite E1 in H.
  - right.
    pose proof (cleanup_files_complete rt clock (EXPORT_DIR rt) t0 ef Hclock
                  Hef n f' mtimeMs Hf' Hm Hold) as H.
    now rewrite E2 in H.
Qed.

Lemma cleanup_removes_every_old_witness :
  In "/srv/temp_videos/abc.mp4"
    (cleanup rt_all_present (fun _ => 1714000000000) temp_listing
       exports_listing).
Proof.
  apply (cleanup_removes_every_old rt_all_present (fun _ => 1714000000000)
           1714000000000 temp_listing exports_listing "/srv/temp_videos"
           (mkDirEntry "abc.mp4" (Some 1713989200000) true) 1713989200000).
  - intros _. apply Qle_refl.
  - eexists. split; [reflexivity|]. repeat constructor. discriminate.
  - eexists. split; [reflexivity|]. repeat constructor. discriminate.
  - left. reflexivity.
  - reflexivity.
  - reflexivity.
Defined.

Example cleanup_keeps_recent_export :
  cleanup rt_all_present (fun _ => 1714000000000) temp_listing
    exports_listing = ["/srv/temp_videos/abc.mp4"].
Proof. vm_compute. reflexivity. Qed.

Example formatTime_examples :
  formatTime 45 = "0:45" /\ formatTime 3725 = "1:02:05" /\
  formatTime (599 + (9 # 10)) = "9:59".
Proof. repeat split; vm_compute; reflexivity. Qed.

Example kept_moments_answer :
  map (fun m => (vm_id m, vm_startTime m, vm_endTime m, vm_viralScore m))
    (kept_moments 600 moments_answer) =
  [ (Some "moment_2", 300, 341, Some 10);
    (Some "moment_1", 1, 31, Some 7);
    (Some "moment_3", 400, 430, Some 5) ].
Proof. vm_compute. reflexivity. Qed.
